(** * Group-order coordinator of vendor-bridge-rasoi

    A shallow embedding of the group-order code of the repository:
    - the data-access functions [createGroupOrder], [joinGroupOrder] and
      [getActiveGroupOrders] of the Firestore library module, and
    - the handlers and derived computations of the [GroupOrderManager]
      component ([handleCreateGroupOrder], [handleJoinGroupOrder],
      [getTimeRemaining], [getProgressPercentage], [isUserJoined],
      [getTotalQuantity]).

    JavaScript numbers are IEEE 754 binary64 values ([spec_float] with
    precision 53 and maximal exponent 1024).  A [Date] is its [getTime()]
    value, an integral number of milliseconds.  The document store is a
    finite map from document paths to documents, together with a schedule of
    request failures and the console log; an asynchronous function is a
    state-passing computation that either resolves or rejects.  A document
    id that a library function is given goes through [doc] first, which
    refuses what is no document path before anything is asked of the
    store. *)

From Stdlib Require Import ZArith List String Ascii Lia SpecFloat.
From stdpp Require Import gmap strings list sorting pretty.

Local Open Scope string_scope.
Local Open Scope list_scope.
Local Open Scope Z_scope.

(** ** JavaScript values *)

Definition number : Type := spec_float.

Definition prec : Z := 53.
Definition emax : Z := 1024.

(** The double nearest to an integer literal. *)
Definition number_of_Z (z : Z) : number := binary_normalize prec emax z 0 false.

Definition Number_div (x y : number) : number := SFdiv prec emax x y.
Definition Number_mul (x y : number) : number := SFmul prec emax x y.
Definition Number_add (x y : number) : number := SFadd prec emax x y.

(** [Math.min] on two arguments: NaN if either is NaN, and -0 is smaller
    than +0. *)
Definition Math_min (x y : number) : number :=
  match SFcompare x y with
  | None => S754_nan
  | Some Lt => x
  | Some Gt => y
  | Some Eq => match x with S754_zero true => x | _ => y end
  end.

Definition is_finite (x : number) : bool :=
  match x with
  | S754_zero _ | S754_finite _ _ _ => true
  | _ => false
  end.

(** Milliseconds since the epoch. *)
Definition Date : Type := Z.

(** ** Data model (the exported interfaces of the library module) *)

Inductive Status : Type := active | completed | expired.

Global Instance Status_eq_dec : EqDecision Status.
Proof. solve_decision. Defined.

(** [a === b] on status values. *)
Definition Status_eqb (a b : Status) : bool :=
  match a, b with
  | active, active | completed, completed | expired, expired => true
  | _, _ => false
  end.

(** An element of [joinedVendors]. *)
Record Vendor : Type := {
  userId : string;
  quantity : number;
  joinedAt : Date
}.

(** [{ ...v, quantity }] *)
Definition with_quantity (q : number) (v : Vendor) : Vendor :=
  {| userId := userId v; quantity := q; joinedAt := joinedAt v |}.

(** [interface GroupOrder]; [id] is optional there, and a document read from
    the store carries none. *)
Record GroupOrder : Type := {
  id : option string;
  createdBy : string;
  itemName : string;
  category : string;
  targetPrice : number;
  unit : string;
  minVendors : number;
  joinedVendors : list Vendor;
  deadline : Date;
  status : Status;
  createdAt : Date
}.

(** [Omit<GroupOrder, 'id' | 'createdAt'>], the argument of
    [createGroupOrder]. *)
Module NewGroupOrder.
Record t : Type := {
  createdBy : string;
  itemName : string;
  category : string;
  targetPrice : number;
  unit : string;
  minVendors : number;
  joinedVendors : list Vendor;
  deadline : Date;
  status : Status
}.
End NewGroupOrder.

(** [{ ...groupOrder, createdAt: serverTimestamp() }] *)
Definition with_createdAt (g : NewGroupOrder.t) (ts : Date) : GroupOrder :=
  {| id := None;
     createdBy := NewGroupOrder.createdBy g;
     itemName := NewGroupOrder.itemName g;
     category := NewGroupOrder.category g;
     targetPrice := NewGroupOrder.targetPrice g;
     unit := NewGroupOrder.unit g;
     minVendors := NewGroupOrder.minVendors g;
     joinedVendors := NewGroupOrder.joinedVendors g;
     deadline := NewGroupOrder.deadline g;
     status := NewGroupOrder.status g;
     createdAt := ts |}.

(** The partial update [{ joinedVendors: vs }]. *)
Definition set_joinedVendors (vs : list Vendor) (g : GroupOrder) : GroupOrder :=
  {| id := id g;
     createdBy := createdBy g;
     itemName := itemName g;
     category := category g;
     targetPrice := targetPrice g;
     unit := unit g;
     minVendors := minVendors g;
     joinedVendors := vs;
     deadline := deadline g;
     status := status g;
     createdAt := createdAt g |}.

(** [{ id: doc.id, ...doc.data(), createdAt: ..toDate(), deadline: ..toDate() }]:
    the spread comes after [id], so an [id] field of the document itself
    would win over the document's key. *)
Definition with_id (k : string) (g : GroupOrder) : GroupOrder :=
  {| id := match id g with Some own => Some own | None => Some k end;
     createdBy := createdBy g;
     itemName := itemName g;
     category := category g;
     targetPrice := targetPrice g;
     unit := unit g;
     minVendors := minVendors g;
     joinedVendors := joinedVendors g;
     deadline := deadline g;
     status := status g;
     createdAt := createdAt g |}.

Definition userIds (g : GroupOrder) : list string := map userId (joinedVendors g).

(** ** The document store and asynchronous computations *)

(** What a rejected promise carries, classified as the specification does;
    [InvalidArgument] is the error the store's client library throws at a
    malformed document path, before any request is made. *)
Inductive ErrorKind : Type :=
  ValidationError | NotFoundError | StorageError | InvalidArgument.

Inductive Outcome (A : Type) : Type :=
| Resolved (a : A)
| Rejected (e : ErrorKind).
Arguments Resolved {A} a.
Arguments Rejected {A} e.

(** *** Document references

    [doc(db, collection, documentId)] of the client library takes its last
    argument as a path below the collection: it throws when the path holds
    two slashes in a row, splits it at the slashes, drops the empty pieces,
    and throws again unless what remains, counted with the collection's
    name, is an even number of segments.  So the empty id is refused, a
    trailing or leading slash is ignored, and an id of three segments names
    a document of a collection below a document of this one. *)

(** [path.indexOf('//') >= 0] *)
Fixpoint hasDoubleSlash (s : string) : bool :=
  match s with
  | String a ((String b _) as rest) =>
      (Ascii.eqb a "/" && Ascii.eqb b "/") || hasDoubleSlash rest
  | _ => false
  end.

(** [path.split('/')] *)
Fixpoint splitAtSlashes (s : string) : list string :=
  match s with
  | EmptyString => [EmptyString]
  | String c rest =>
      if Ascii.eqb c "/" then EmptyString :: splitAtSlashes rest
      else match splitAtSlashes rest with
           | piece :: pieces => String c piece :: pieces
           | [] => [String c EmptyString]
           end
  end.

(** [path.split('/').filter(segment => segment.length > 0)] *)
Definition segments (s : string) : list string :=
  List.filter (fun piece => negb (String.eqb piece "")) (splitAtSlashes s).

(** A reference to a document at or below a collection, by its path from the
    collection: the segments joined by single slashes. *)
Record DocumentReference : Type := { path : string }.

(** The reference that [doc(db, collection, documentId)] returns, [None]
    when it throws. *)
Definition reference (documentId : string) : option DocumentReference :=
  if hasDoubleSlash documentId then None
  else if Nat.odd (length (segments documentId))
       then Some {| path := String.concat "/" (segments documentId) |}
       else None.

(** [docSnap.id]: the last segment of the path. *)
Definition referenceId (docRef : DocumentReference) : string :=
  List.last (segments (path docRef)) "".

Fixpoint noSlash (s : string) : bool :=
  match s with
  | EmptyString => true
  | String c rest => negb (Ascii.eqb c "/") && noSlash rest
  end.

(** The path of a document of the collection itself: one segment, not
    empty.  These are the ids that [addDoc] issues and that a query
    returns as [doc.id]. *)
Definition plainId (k : string) : bool := negb (String.eqb k "") && noSlash k.

(** The documents of a collection itself among those stored at or below
    it: what a query over the collection ranges over. *)
Definition members {D : Type} (m : gmap string D) : list (string * D) :=
  filter (fun kd => plainId kd.1 = true) (map_to_list m).

(** The documents at and below the ['groupOrders'] collection, each under
    its path from the collection (a group order under its id); the
    outcomes of the coming requests to the store ([true]: the request
    fails; an exhausted schedule means no more failures); and what
    [console.error] has printed. *)
Record World : Type := {
  groupOrders : gmap string GroupOrder;
  failures : list bool;
  console : list string
}.

Definition Promise (A : Type) : Type := World -> Outcome A * World.

Definition resolve {A} (a : A) : Promise A := fun w => (Resolved a, w).
Definition throw {A} (e : ErrorKind) : Promise A := fun w => (Rejected e, w).

Definition bind {A B} (m : Promise A) (k : A -> Promise B) : Promise B :=
  fun w =>
    match m w with
    | (Resolved a, w') => k a w'
    | (Rejected e, w') => (Rejected e, w')
    end.

Notation "'await' x <- m ;; k" := (bind m (fun x => k))
  (at level 10, x name, m at level 99, k at level 200).

(** [try { m } catch (error) { h error }] *)
Definition try_catch {A} (m : Promise A) (h : ErrorKind -> Promise A) : Promise A :=
  fun w =>
    match m w with
    | (Resolved a, w') => (Resolved a, w')
    | (Rejected e, w') => h e w'
    end.

Definition console_error (msg : string) : Promise ()  :=
  fun w => (Resolved (),
            {| groupOrders := groupOrders w;
               failures := failures w;
               console := console w ++ [msg] |}).

(** One round trip to the store: it fails when the schedule says so (the
    store cannot be reached, or refuses the request for reasons of its
    own). *)
Definition request : Promise () :=
  fun w =>
    match failures w with
    | [] => (Resolved (), w)
    | failed :: rest =>
        let w' := {| groupOrders := groupOrders w;
                     failures := rest;
                     console := console w |} in
        if failed then (Rejected StorageError, w') else (Resolved (), w')
    end.

Definition put (k : string) (g : GroupOrder) : Promise () :=
  fun w => (Resolved (),
            {| groupOrders := <[k := g]> (groupOrders w);
               failures := failures w;
               console := console w |}).

(** [doc(db, 'groupOrders', documentId)]: throws at a malformed path,
    without a request to the store. *)
Definition doc (documentId : string) : Promise DocumentReference :=
  match reference documentId with
  | Some docRef => resolve docRef
  | None => throw InvalidArgument
  end.

(** [getDoc(docRef)]: the snapshot, [None] when [exists()] is false. *)
Definition getDoc (docRef : DocumentReference) : Promise (option GroupOrder) :=
  await _ <- request;;
  fun w => (Resolved (groupOrders w !! path docRef), w).

(** [updateDoc(docRef, fields)]: rejects with not-found on a missing
    document. *)
Definition updateDoc (docRef : DocumentReference) (fields : GroupOrder -> GroupOrder)
  : Promise () :=
  await _ <- request;;
  fun w =>
    match groupOrders w !! path docRef with
    | Some g => put (path docRef) (fields g) w
    | None => (Rejected NotFoundError, w)
    end.

(** [addDoc(collection(db, 'groupOrders'), data)]: the store picks an id
    that no document of the collection has and returns the reference. *)
Definition addDoc (data : GroupOrder) : Promise string :=
  await _ <- request;;
  fun w =>
    let k : string := fresh (dom (groupOrders w)) in
    (Resolved k, (put k data w).2).

(** [query(collection, where(field, '==', value), orderBy(key))] *)
Record Query : Type := {
  where_ : GroupOrder -> bool;
  orderBy : GroupOrder -> Z
}.

Definition key_le (q : Query) (a b : string * GroupOrder) : Prop :=
  orderBy q a.2 <= orderBy q b.2.

Global Instance key_le_dec q a b : Decision (key_le q a b).
Proof. unfold key_le. apply _. Defined.

(** [getDocs(q)]: the matching documents of the collection in ascending
    order of the key. *)
Definition getDocs (q : Query) : Promise (list (string * GroupOrder)) :=
  await _ <- request;;
  fun w =>
    (Resolved (merge_sort (key_le q)
                 (filter (fun kd => where_ q kd.2 = true) (members (groupOrders w)))),
     w).

(** ** Group order operations of the library module *)

Definition createGroupOrder (serverTimestamp : Date) (groupOrder : NewGroupOrder.t)
  : Promise string :=
  try_catch
    (await docRef <- addDoc (with_createdAt groupOrder serverTimestamp);;
     resolve docRef)
    (fun error =>
       await _ <- console_error "Error creating group order:";;
       throw error).

(** The value of the local [updatedVendors] of [joinGroupOrder]. *)
Definition updatedVendors (now : Date) (userId_ : string) (quantity_ : number)
  (vendors : list Vendor) : list Vendor :=
  let existingVendor := find (fun v => String.eqb (userId v) userId_) vendors in
  match existingVendor with
  | Some _ =>
      map (fun v => if String.eqb (userId v) userId_ then with_quantity quantity_ v else v)
        vendors
  | None =>
      vendors ++ [ {| userId := userId_; quantity := quantity_; joinedAt := now |} ]
  end.

Definition joinGroupOrder (now : Date) (groupOrderId userId_ : string) (quantity_ : number)
  : Promise () :=
  try_catch
    (await docRef <- doc groupOrderId;;
     await docSnap <- getDoc docRef;;
     match docSnap with
     | Some data =>
         updateDoc docRef
           (set_joinedVendors (updatedVendors now userId_ quantity_ (joinedVendors data)))
     | None => resolve ()
     end)
    (fun error =>
       await _ <- console_error "Error joining group order:";;
       throw error).

(** The two requests of [joinGroupOrder], taken apart: what the body
    holds in [docRef] and [docSnap] once [getDoc] has answered, and what it
    does from there.  Between the two, other calls may run. *)
Definition joinSnapshot (groupOrderId : string)
  : Promise (DocumentReference * option GroupOrder) :=
  await docRef <- doc groupOrderId;;
  await docSnap <- getDoc docRef;;
  resolve (docRef, docSnap).

Definition joinUpdate (now : Date) (userId_ : string) (quantity_ : number)
  (read : DocumentReference * option GroupOrder) : Promise () :=
  match read.2 with
  | Some data =>
      updateDoc read.1
        (set_joinedVendors (updatedVendors now userId_ quantity_ (joinedVendors data)))
  | None => resolve ()
  end.

Definition activeByDeadline : Query :=
  {| where_ := fun g => Status_eqb (status g) active;
     orderBy := deadline |}.

Definition getActiveGroupOrders : Promise (list GroupOrder) :=
  try_catch
    (await snapshot <- getDocs activeByDeadline;;
     resolve (map (fun doc => with_id doc.1 doc.2) snapshot))
    (fun error =>
       await _ <- console_error "Error getting active group orders:";;
       throw error).

(** ** The [GroupOrderManager] component *)

(** What the component takes from its surroundings: the translation function
    of the language context and the JavaScript conversions applied to the
    form's strings ([parseFloat], [parseInt], [new Date(string)]). *)
Record Env : Type := {
  t : string -> string;
  parseFloat : string -> number;
  parseInt : string -> number;
  Date_of_string : string -> Date
}.

Record User : Type := { uid : string }.

Module GroupOrderFormData.
Record t : Type := {
  itemName : string;
  category : string;
  targetPrice : string;
  unit : string;
  minVendors : string;
  deadline : string
}.
End GroupOrderFormData.

Inductive ToastVariant : Type := default | destructive.

Record Toast : Type := {
  title : string;
  description : string;
  variant : ToastVariant
}.

(** The component's state hooks, and the toasts it has raised. *)
Module Component.
Record t : Type := {
  groupOrders : list GroupOrder;
  loading : bool;
  dialogOpen : bool;
  formData : GroupOrderFormData.t;
  toasts : list Toast
}.
End Component.

Definition setGroupOrders (orders : list GroupOrder) (c : Component.t) : Component.t :=
  {| Component.groupOrders := orders;
     Component.loading := Component.loading c;
     Component.dialogOpen := Component.dialogOpen c;
     Component.formData := Component.formData c;
     Component.toasts := Component.toasts c |}.

Definition setLoading (b : bool) (c : Component.t) : Component.t :=
  {| Component.groupOrders := Component.groupOrders c;
     Component.loading := b;
     Component.dialogOpen := Component.dialogOpen c;
     Component.formData := Component.formData c;
     Component.toasts := Component.toasts c |}.

Definition setDialogOpen (b : bool) (c : Component.t) : Component.t :=
  {| Component.groupOrders := Component.groupOrders c;
     Component.loading := Component.loading c;
     Component.dialogOpen := b;
     Component.formData := Component.formData c;
     Component.toasts := Component.toasts c |}.

Definition setFormData (fd : GroupOrderFormData.t) (c : Component.t) : Component.t :=
  {| Component.groupOrders := Component.groupOrders c;
     Component.loading := Component.loading c;
     Component.dialogOpen := Component.dialogOpen c;
     Component.formData := fd;
     Component.toasts := Component.toasts c |}.

Definition toast (x : Toast) (c : Component.t) : Component.t :=
  {| Component.groupOrders := Component.groupOrders c;
     Component.loading := Component.loading c;
     Component.dialogOpen := Component.dialogOpen c;
     Component.formData := Component.formData c;
     Component.toasts := Component.toasts c ++ [x] |}.

Definition errorToast (env : Env) (key : string) : Toast :=
  {| title := t env "error"; description := t env key; variant := destructive |}.

Definition successToast (env : Env) (key : string) : Toast :=
  {| title := t env "success"; description := t env key; variant := default |}.

Definition loadGroupOrders (env : Env) (c : Component.t) (w : World)
  : Component.t * World :=
  match getActiveGroupOrders w with
  | (Resolved orders, w') => (setLoading false (setGroupOrders orders c), w')
  | (Rejected _, w') =>
      (setLoading false (toast (errorToast env "failed_to_load_group_orders") c), w')
  end.

Definition resetForm (c : Component.t) : Component.t :=
  setFormData
    {| GroupOrderFormData.itemName := "";
       GroupOrderFormData.category := "";
       GroupOrderFormData.targetPrice := "";
       GroupOrderFormData.unit := "";
       GroupOrderFormData.minVendors := "";
       GroupOrderFormData.deadline := "" |} c.

(** [!s] for a string: only the empty string is falsy. *)
Definition falsy (s : string) : bool := String.eqb s "".

(** The guard of [handleCreateGroupOrder]: no user, or an empty field. *)
Definition missingRequiredFields (user : option User) (fd : GroupOrderFormData.t) : bool :=
  match user with None => true | Some _ => false end
  || falsy (GroupOrderFormData.itemName fd)
  || falsy (GroupOrderFormData.category fd)
  || falsy (GroupOrderFormData.targetPrice fd)
  || falsy (GroupOrderFormData.unit fd)
  || falsy (GroupOrderFormData.minVendors fd)
  || falsy (GroupOrderFormData.deadline fd).

(** The object literal [groupOrderData] of [handleCreateGroupOrder]. *)
Definition groupOrderData (env : Env) (now : Date) (user : User)
  (fd : GroupOrderFormData.t) : NewGroupOrder.t :=
  {| NewGroupOrder.createdBy := uid user;
     NewGroupOrder.itemName := GroupOrderFormData.itemName fd;
     NewGroupOrder.category := GroupOrderFormData.category fd;
     NewGroupOrder.targetPrice := parseFloat env (GroupOrderFormData.targetPrice fd);
     NewGroupOrder.unit := GroupOrderFormData.unit fd;
     NewGroupOrder.minVendors := parseInt env (GroupOrderFormData.minVendors fd);
     NewGroupOrder.joinedVendors :=
       [ {| userId := uid user; quantity := number_of_Z 1; joinedAt := now |} ];
     NewGroupOrder.deadline := Date_of_string env (GroupOrderFormData.deadline fd);
     NewGroupOrder.status := active |}.

Definition handleCreateGroupOrder (env : Env) (now serverTimestamp : Date)
  (user : option User) (c : Component.t) (w : World) : Component.t * World :=
  match user with
  | Some u =>
      if missingRequiredFields user (Component.formData c)
      then (toast (errorToast env "please_fill_required_fields") c, w)
      else
        match createGroupOrder serverTimestamp
                (groupOrderData env now u (Component.formData c)) w with
        | (Resolved _, w') =>
            loadGroupOrders env
              (resetForm
                 (setDialogOpen false
                    (toast (successToast env "group_order_created_successfully") c)))
              w'
        | (Rejected _, w') =>
            (toast (errorToast env "failed_to_create_group_order") c, w')
        end
  | None => (toast (errorToast env "please_fill_required_fields") c, w)
  end.

(** [quantity] defaults to 1 at the call site of the join button. *)
Definition handleJoinGroupOrder (env : Env) (now : Date) (user : option User)
  (groupOrderId : string) (quantity_ : number) (c : Component.t) (w : World)
  : Component.t * World :=
  match user with
  | None => (c, w)
  | Some u =>
      match joinGroupOrder now groupOrderId (uid u) quantity_ w with
      | (Resolved _, w') =>
          loadGroupOrders env
            (toast (successToast env "joined_group_order_successfully") c) w'
      | (Rejected _, w') =>
          (toast (errorToast env "failed_to_join_group_order") c, w')
      end
  end.

Definition msPerDay : Z := 1000 * 60 * 60 * 24.
Definition msPerHour : Z := 1000 * 60 * 60.
Definition msPerMinute : Z := 1000 * 60.

(** Times are integral numbers of milliseconds, on which the double
    arithmetic of the source is exact: [%] is the truncating remainder and
    [Math.floor] of a quotient is the floor division. *)
Definition getTimeRemaining (env : Env) (now : Date) (deadline_ : Date) : string :=
  let timeLeft := (deadline_ - now)%Z in
  if (timeLeft <=? 0)%Z then t env "expired"
  else
    let days := (timeLeft / msPerDay)%Z in
    let hours := (Z.rem timeLeft msPerDay / msPerHour)%Z in
    let minutes := (Z.rem timeLeft msPerHour / msPerMinute)%Z in
    if (days >? 0)%Z then pretty days +:+ "d " +:+ pretty hours +:+ "h"
    else if (hours >? 0)%Z then pretty hours +:+ "h " +:+ pretty minutes +:+ "m"
    else pretty minutes +:+ "m".

Definition getProgressPercentage (joinedVendors_ minVendors_ : number) : number :=
  Math_min (Number_mul (Number_div joinedVendors_ minVendors_) (number_of_Z 100))
    (number_of_Z 100).

Definition isUserJoined (user : option User) (groupOrder : GroupOrder) : bool :=
  match user with
  | None => false
  | Some u => existsb (fun vendor => String.eqb (userId vendor) (uid u))
                (joinedVendors groupOrder)
  end.

Definition getTotalQuantity (groupOrder : GroupOrder) : number :=
  fold_left (fun total vendor => Number_add total (quantity vendor))
    (joinedVendors groupOrder) (number_of_Z 0).

(** The join button of a card; it is not rendered for a user who has joined. *)
Record JoinButton : Type := { disabled : bool; label : string }.

Definition joinButton (env : Env) (now : Date) (user : option User)
  (groupOrder : GroupOrder) : option JoinButton :=
  let timeLeft := getTimeRemaining env now (deadline groupOrder) in
  if isUserJoined user groupOrder then None
  else Some {| disabled := String.eqb timeLeft (t env "expired");
               label := if String.eqb timeLeft (t env "expired")
                        then t env "expired" else t env "join_group_order" |}.


(** ** Sample data *)

Definition emptyWorld : World :=
  {| groupOrders := ∅; failures := []; console := [] |}.

Definition asha : Vendor :=
  {| userId := "asha"; quantity := number_of_Z 1; joinedAt := 100 |}.
Definition bala : Vendor :=
  {| userId := "bala"; quantity := number_of_Z 2; joinedAt := 200 |}.

(** An order whose deadline (1000) is over and which is marked expired. *)
Definition riceOrder : GroupOrder :=
  {| id := None; createdBy := "asha"; itemName := "rice"; category := "grains";
     targetPrice := number_of_Z 40; unit := "kg"; minVendors := number_of_Z 3;
     joinedVendors := [asha; bala]; deadline := 1000; status := expired;
     createdAt := 100 |}.

Definition oilOrder : GroupOrder :=
  {| id := None; createdBy := "bala"; itemName := "oil"; category := "oil";
     targetPrice := number_of_Z 120; unit := "litre"; minVendors := number_of_Z 2;
     joinedVendors := [bala]; deadline := 9000; status := active;
     createdAt := 150 |}.

Definition dalOrder : GroupOrder :=
  {| id := None; createdBy := "asha"; itemName := "dal"; category := "grains";
     targetPrice := number_of_Z 90; unit := "kg"; minVendors := number_of_Z 2;
     joinedVendors := [asha]; deadline := 5000; status := active;
     createdAt := 160 |}.

Definition sampleWorld : World :=
  {| groupOrders := <["g3" := dalOrder]> (<["g2" := oilOrder]> {["g1" := riceOrder]});
     failures := []; console := [] |}.

(** An environment for examples: keys are displayed untranslated, and the
    form's strings are plain runs of decimal digits (dates in milliseconds). *)
Fixpoint read_decimal (acc : Z) (s : string) : Z :=
  match s with
  | EmptyString => acc
  | String c s' => read_decimal (10 * acc + (Z.of_N (N_of_ascii c) - 48)) s'
  end.

Definition plainEnv : Env :=
  {| t := fun key => key;
     parseFloat := fun s => number_of_Z (read_decimal 0 s);
     parseInt := fun s => number_of_Z (read_decimal 0 s);
     Date_of_string := fun s => read_decimal 0 s |}.

Definition emptyForm : GroupOrderFormData.t :=
  {| GroupOrderFormData.itemName := "";
     GroupOrderFormData.category := "";
     GroupOrderFormData.targetPrice := "";
     GroupOrderFormData.unit := "";
     GroupOrderFormData.minVendors := "";
     GroupOrderFormData.deadline := "" |}.

Definition freshComponent (fd : GroupOrderFormData.t) : Component.t :=
  {| Component.groupOrders := [];
     Component.loading := true;
     Component.dialogOpen := true;
     Component.formData := fd;
     Component.toasts := [] |}.


(** ** Auxiliary notions used in the statements *)

(** No pending failure: the store answers every request. *)
Definition reachable (w : World) : Prop := failures w = [].

(** The documents a query selects, before they are put in order. *)
Definition selected (q : Query) (w : World) : list (string * GroupOrder) :=
  filter (fun kd => where_ q kd.2 = true) (members (groupOrders w)).

(** An order that asks for one vendor only and whose deadline (5) is over at
    the time of creation (10). *)
Definition lateOrder : NewGroupOrder.t :=
  {| NewGroupOrder.createdBy := "asha";
     NewGroupOrder.itemName := "rice";
     NewGroupOrder.category := "grains";
     NewGroupOrder.targetPrice := number_of_Z 40;
     NewGroupOrder.unit := "kg";
     NewGroupOrder.minVendors := number_of_Z 1;
     NewGroupOrder.joinedVendors :=
       [ {| userId := "asha"; quantity := number_of_Z 1; joinedAt := 10 |} ];
     NewGroupOrder.deadline := 5;
     NewGroupOrder.status := active |}.

(** A valid creation input: every field filled in, a positive target price,
    at least two vendors, and a deadline after the current time. *)
Definition validCreationInput (env : Env) (now : Date) (fd : GroupOrderFormData.t)
  : Prop :=
  GroupOrderFormData.itemName fd <> ""
  /\ GroupOrderFormData.category fd <> ""
  /\ GroupOrderFormData.targetPrice fd <> ""
  /\ GroupOrderFormData.unit fd <> ""
  /\ GroupOrderFormData.minVendors fd <> ""
  /\ GroupOrderFormData.deadline fd <> ""
  /\ SFltb (number_of_Z 0) (parseFloat env (GroupOrderFormData.targetPrice fd)) = true
  /\ SFleb (number_of_Z 2) (parseInt env (GroupOrderFormData.minVendors fd)) = true
  /\ now < Date_of_string env (GroupOrderFormData.deadline fd).

(** A well-filled form: three vendors, deadline at 3600000. *)
Definition riceForm : GroupOrderFormData.t :=
  {| GroupOrderFormData.itemName := "rice";
     GroupOrderFormData.category := "grains";
     GroupOrderFormData.targetPrice := "40";
     GroupOrderFormData.unit := "kg";
     GroupOrderFormData.minVendors := "3";
     GroupOrderFormData.deadline := "3600000" |}.

(** A call of one of the three coordinator operations. *)
Inductive Call : Type :=
| CreateGroupOrder (serverTimestamp : Date) (groupOrder : NewGroupOrder.t)
| JoinGroupOrder (now : Date) (groupOrderId userId_ : string) (quantity_ : number)
| GetActiveGroupOrders.

Definition perform (c : Call) (w : World) : World :=
  match c with
  | CreateGroupOrder ts g => (createGroupOrder ts g w).2
  | JoinGroupOrder now k u q => (joinGroupOrder now k u q w).2
  | GetActiveGroupOrders => (getActiveGroupOrders w).2
  end.

Definition performAll (cs : list Call) (w : World) : World :=
  fold_left (fun w c => perform c w) cs w.

(** Two versions of a document that differ at most in [joinedVendors]. *)
Definition sameButMembers (d d' : GroupOrder) : Prop :=
  status d' = status d
  /\ deadline d' = deadline d
  /\ minVendors d' = minVendors d
  /\ itemName d' = itemName d
  /\ category d' = category d
  /\ targetPrice d' = targetPrice d
  /\ unit d' = unit d
  /\ createdAt d' = createdAt d
  /\ createdBy d' = createdBy d
  /\ id d' = id d.

(** An entry [g] of a listing that carries what is stored under [k]: every
    field as the document [d] has it, and as [id] the document's key (or the
    [id] field of the document itself, had it one). *)
Definition listedOrder (k : string) (d g : GroupOrder) : Prop :=
  id g = match id d with Some own => Some own | None => Some k end
  /\ createdBy g = createdBy d
  /\ itemName g = itemName d
  /\ category g = category d
  /\ targetPrice g = targetPrice d
  /\ unit g = unit d
  /\ minVendors g = minVendors d
  /\ joinedVendors g = joinedVendors d
  /\ deadline g = deadline d
  /\ status g = status d
  /\ createdAt g = createdAt d.

(** A decimal digit character. *)
Definition isDigit (c : ascii) : bool :=
  ((48 <=? N_of_ascii c) && (N_of_ascii c <=? 57))%N.

Fixpoint allDigits (s : string) : bool :=
  match s with
  | EmptyString => true
  | String c rest => isDigit c && allDigits rest
  end.

Definition startsWithDigit (s : string) : bool :=
  match s with
  | String c _ => isDigit c
  | EmptyString => false
  end.

(** The double 100. *)
Definition hundred : number := S754_finite false 7036874417766400 (-46).

(** A shift record whose mantissa is not negative. *)
Definition nonneg_record (mrs : shr_record) : Prop := 0 <= shr_m mrs.

(** Who is a member and since when, in list order. *)
Definition memberStamps (g : GroupOrder) : list (string * Date) :=
  map (fun v => (userId v, joinedAt v)) (joinedVendors g).

(** ** The other collections of the library module *)

(** One collection of the store other than ['groupOrders'] (the documents
    at and below it, by path, as in [World]), with the schedule of request
    failures and the console beside it.
    The operations are those of the store's interface that the library uses:
    [getDoc], [setDoc] (create or overwrite under a given id), [addDoc]
    (create under an id the store picks), [updateDoc] (rejects on a missing
    document), [deleteDoc] (resolves also on a missing document) and
    [getDocs] on a query. *)
Module Collection.

Record t (D : Type) : Type := {
  docs : gmap string D;
  failures : list bool;
  console : list string
}.
Arguments docs {D} _.
Arguments failures {D} _.
Arguments console {D} _.

Section Operations.
Context {D : Type}.

Definition Action (A : Type) : Type := t D -> Outcome A * t D.

Definition resolve {A} (a : A) : Action A := fun s => (Resolved a, s).
Definition throw {A} (e : ErrorKind) : Action A := fun s => (Rejected e, s).

Definition bind {A B} (m : Action A) (k : A -> Action B) : Action B :=
  fun s =>
    match m s with
    | (Resolved a, s') => k a s'
    | (Rejected e, s') => (Rejected e, s')
    end.

Definition try_catch {A} (m : Action A) (h : ErrorKind -> Action A) : Action A :=
  fun s =>
    match m s with
    | (Resolved a, s') => (Resolved a, s')
    | (Rejected e, s') => h e s'
    end.

Definition console_error (msg : string) : Action () :=
  fun s => (Resolved (),
            {| docs := docs s; failures := failures s;
               console := console s ++ [msg] |}).

(** [catch (error) { console.error(msg, error); throw error; }] *)
Definition logged {A} (msg : string) (m : Action A) : Action A :=
  try_catch m (fun error => bind (console_error msg) (fun _ => throw error)).

Definition request : Action () :=
  fun s =>
    match failures s with
    | [] => (Resolved (), s)
    | failed :: rest =>
        let s' := {| docs := docs s; failures := rest; console := console s |} in
        if failed then (Rejected StorageError, s') else (Resolved (), s')
    end.

Definition write (m : gmap string D) : Action () :=
  fun s => (Resolved (),
            {| docs := m; failures := failures s; console := console s |}).

(** [doc(db, collection, documentId)]: throws at a malformed path, without
    a request to the store. *)
Definition doc (documentId : string) : Action DocumentReference :=
  match reference documentId with
  | Some docRef => resolve docRef
  | None => throw InvalidArgument
  end.

Definition getDoc (docRef : DocumentReference) : Action (option D) :=
  bind request (fun _ s => (Resolved (docs s !! path docRef), s)).

Definition setDoc (docRef : DocumentReference) (data : D) : Action () :=
  bind request (fun _ s => write (<[path docRef := data]> (docs s)) s).

Definition addDoc (data : D) : Action string :=
  bind request (fun _ s =>
    let k : string := fresh (dom (docs s)) in
    (Resolved k, (write (<[k := data]> (docs s)) s).2)).

Definition updateDoc (docRef : DocumentReference) (fields : D -> D) : Action () :=
  bind request (fun _ s =>
    match docs s !! path docRef with
    | Some d => write (<[path docRef := fields d]> (docs s)) s
    | None => (Rejected NotFoundError, s)
    end).

Definition deleteDoc (docRef : DocumentReference) : Action () :=
  bind request (fun _ s => write (delete (path docRef) (docs s)) s).

(** [getDocs(query(collection, where.., orderBy..))]: the documents of the
    collection that satisfy [p], put in order by [le]. *)
Definition getDocs (p : D -> bool) (le : relation (string * D))
  `{!forall a b, Decision (le a b)} : Action (list (string * D)) :=
  bind request (fun _ s =>
    (Resolved (merge_sort le
                 (filter (fun kd => p kd.2 = true) (members (docs s)))),
     s)).

End Operations.
End Collection.

Declare Scope collection_scope.
Delimit Scope collection_scope with collection.
Notation "'await' x <- m ;; k" := (Collection.bind m (fun x => k))
  (at level 10, x name, m at level 99, k at level 200) : collection_scope.

(** Document order when a query names none: by document id. *)
Definition byId {D : Type} (a b : string * D) : Prop := String.leb a.1 b.1 = true.

Global Instance byId_dec {D} (a b : string * D) : Decision (byId a b).
Proof. unfold byId. apply _. Defined.

(** *** Inventory *)

Module InventoryItem.
Record t : Type := {
  id : option string;
  supplierId : string;
  name : string;
  category : string;
  price : number;
  unit : string;
  stock : number;
  description : option string;
  createdAt : Date;
  updatedAt : Date
}.
End InventoryItem.

(** [Omit<InventoryItem, 'id' | 'createdAt' | 'updatedAt'>] *)
Module NewInventoryItem.
Record t : Type := {
  supplierId : string;
  name : string;
  category : string;
  price : number;
  unit : string;
  stock : number;
  description : option string
}.
End NewInventoryItem.

(** [Partial<InventoryItem>]: [None] for a field that is not given. *)
Module InventoryUpdates.
Record t : Type := {
  id : option string;
  supplierId : option string;
  name : option string;
  category : option string;
  price : option number;
  unit : option string;
  stock : option number;
  description : option string;
  createdAt : option Date;
  updatedAt : option Date
}.
End InventoryUpdates.

(** [{ ...item, createdAt: serverTimestamp(), updatedAt: serverTimestamp() }] *)
Definition newInventoryDoc (item : NewInventoryItem.t) (ts : Date) : InventoryItem.t :=
  {| InventoryItem.id := None;
     InventoryItem.supplierId := NewInventoryItem.supplierId item;
     InventoryItem.name := NewInventoryItem.name item;
     InventoryItem.category := NewInventoryItem.category item;
     InventoryItem.price := NewInventoryItem.price item;
     InventoryItem.unit := NewInventoryItem.unit item;
     InventoryItem.stock := NewInventoryItem.stock item;
     InventoryItem.description := NewInventoryItem.description item;
     InventoryItem.createdAt := ts;
     InventoryItem.updatedAt := ts |}.

(** The field of a document after an update that may or may not give it. *)
Definition updated {A} (given : option A) (old : A) : A :=
  match given with Some a => a | None => old end.

Definition updatedOptional {A} (given : option A) (old : option A) : option A :=
  match given with Some a => Some a | None => old end.

(** The effect of [updateDoc(ref, { ...updates, updatedAt: serverTimestamp() })]
    on the document: [updatedAt] comes last and wins. *)
Definition inventoryFields (updates : InventoryUpdates.t) (ts : Date)
  (d : InventoryItem.t) : InventoryItem.t :=
  {| InventoryItem.id := updatedOptional (InventoryUpdates.id updates) (InventoryItem.id d);
     InventoryItem.supplierId :=
       updated (InventoryUpdates.supplierId updates) (InventoryItem.supplierId d);
     InventoryItem.name := updated (InventoryUpdates.name updates) (InventoryItem.name d);
     InventoryItem.category :=
       updated (InventoryUpdates.category updates) (InventoryItem.category d);
     InventoryItem.price := updated (InventoryUpdates.price updates) (InventoryItem.price d);
     InventoryItem.unit := updated (InventoryUpdates.unit updates) (InventoryItem.unit d);
     InventoryItem.stock := updated (InventoryUpdates.stock updates) (InventoryItem.stock d);
     InventoryItem.description :=
       updatedOptional (InventoryUpdates.description updates) (InventoryItem.description d);
     InventoryItem.createdAt :=
       updated (InventoryUpdates.createdAt updates) (InventoryItem.createdAt d);
     InventoryItem.updatedAt := ts |}.

(** [{ id: doc.id, ...doc.data(), createdAt: ..toDate(), updatedAt: ..toDate() }] *)
Definition inventoryItemOf (doc : string * InventoryItem.t) : InventoryItem.t :=
  {| InventoryItem.id :=
       match InventoryItem.id doc.2 with Some own => Some own | None => Some doc.1 end;
     InventoryItem.supplierId := InventoryItem.supplierId doc.2;
     InventoryItem.name := InventoryItem.name doc.2;
     InventoryItem.category := InventoryItem.category doc.2;
     InventoryItem.price := InventoryItem.price doc.2;
     InventoryItem.unit := InventoryItem.unit doc.2;
     InventoryItem.stock := InventoryItem.stock doc.2;
     InventoryItem.description := InventoryItem.description doc.2;
     InventoryItem.createdAt := InventoryItem.createdAt doc.2;
     InventoryItem.updatedAt := InventoryItem.updatedAt doc.2 |}.

(** [orderBy('name')] *)
Definition byName (a b : string * InventoryItem.t) : Prop :=
  String.leb (InventoryItem.name a.2) (InventoryItem.name b.2) = true.

Global Instance byName_dec a b : Decision (byName a b).
Proof. unfold byName. apply _. Defined.

Section InventoryOperations.
Local Open Scope collection_scope.

Definition addInventoryItem (serverTimestamp : Date) (item : NewInventoryItem.t)
  : Collection.Action string :=
  Collection.logged "Error adding inventory item:"
    (await docRef <- Collection.addDoc (newInventoryDoc item serverTimestamp);;
     Collection.resolve docRef).

Definition updateInventoryItem (serverTimestamp : Date) (itemId : string)
  (updates : InventoryUpdates.t) : Collection.Action () :=
  Collection.logged "Error updating inventory item:"
    (await docRef <- Collection.doc itemId;;
     Collection.updateDoc docRef (inventoryFields updates serverTimestamp)).

Definition deleteInventoryItem (itemId : string)
  : Collection.Action (D := InventoryItem.t) () :=
  Collection.logged "Error deleting inventory item:"
    (await docRef <- Collection.doc itemId;;
     Collection.deleteDoc docRef).

Definition getSupplierInventory (supplierId : string)
  : Collection.Action (list InventoryItem.t) :=
  Collection.logged "Error getting supplier inventory:"
    (await snapshot <-
       Collection.getDocs
         (fun d => String.eqb (InventoryItem.supplierId d) supplierId) byName;;
     Collection.resolve (map inventoryItemOf snapshot)).

Definition getAllInventory : Collection.Action (list InventoryItem.t) :=
  Collection.logged "Error getting all inventory:"
    (await snapshot <- Collection.getDocs (fun _ => true) byName;;
     Collection.resolve (map inventoryItemOf snapshot)).

End InventoryOperations.

(** *** Orders *)

Module OrderStatus.
Inductive t : Type := pending | confirmed | rejected | completed.

(** The string that the status is in the source. *)
Definition toString (s : t) : string :=
  match s with
  | pending => "pending"
  | confirmed => "confirmed"
  | rejected => "rejected"
  | completed => "completed"
  end.
End OrderStatus.

(** An element of [items]. *)
Module OrderLine.
Record t : Type := {
  itemId : string;
  name : string;
  quantity : number;
  price : number;
  unit : string
}.
End OrderLine.

Module Order.
Record t : Type := {
  id : option string;
  retailerId : string;
  supplierId : string;
  items : list OrderLine.t;
  totalAmount : number;
  status : OrderStatus.t;
  isGroupOrder : bool;
  groupOrderId : option string;
  createdAt : Date;
  updatedAt : Date
}.
End Order.

(** [Omit<Order, 'id' | 'createdAt' | 'updatedAt'>] *)
Module NewOrder.
Record t : Type := {
  retailerId : string;
  supplierId : string;
  items : list OrderLine.t;
  totalAmount : number;
  status : OrderStatus.t;
  isGroupOrder : bool;
  groupOrderId : option string
}.
End NewOrder.

(** [{ ...order, createdAt: serverTimestamp(), updatedAt: serverTimestamp() }] *)
Definition newOrderDoc (order : NewOrder.t) (ts : Date) : Order.t :=
  {| Order.id := None;
     Order.retailerId := NewOrder.retailerId order;
     Order.supplierId := NewOrder.supplierId order;
     Order.items := NewOrder.items order;
     Order.totalAmount := NewOrder.totalAmount order;
     Order.status := NewOrder.status order;
     Order.isGroupOrder := NewOrder.isGroupOrder order;
     Order.groupOrderId := NewOrder.groupOrderId order;
     Order.createdAt := ts;
     Order.updatedAt := ts |}.


(** [{ id: doc.id, ...doc.data(), createdAt: ..toDate(), updatedAt: ..toDate() }] *)
Definition orderOf (doc : string * Order.t) : Order.t :=
  {| Order.id := match Order.id doc.2 with Some own => Some own | None => Some doc.1 end;
     Order.retailerId := Order.retailerId doc.2;
     Order.supplierId := Order.supplierId doc.2;
     Order.items := Order.items doc.2;
     Order.totalAmount := Order.totalAmount doc.2;
     Order.status := Order.status doc.2;
     Order.isGroupOrder := Order.isGroupOrder doc.2;
     Order.groupOrderId := Order.groupOrderId doc.2;
     Order.createdAt := Order.createdAt doc.2;
     Order.updatedAt := Order.updatedAt doc.2 |}.

(** [orderBy('createdAt', 'desc')] *)
Definition newestFirst (a b : string * Order.t) : Prop :=
  Order.createdAt b.2 <= Order.createdAt a.2.

Global Instance newestFirst_dec a b : Decision (newestFirst a b).
Proof. unfold newestFirst. apply _. Defined.

Section OrderOperations.
Local Open Scope collection_scope.

Definition createOrder (serverTimestamp : Date) (order : NewOrder.t)
  : Collection.Action string :=
  Collection.logged "Error creating order:"
    (await docRef <- Collection.addDoc (newOrderDoc order serverTimestamp);;
     Collection.resolve docRef).


Definition getRetailerOrders (retailerId : string) : Collection.Action (list Order.t) :=
  Collection.logged "Error getting retailer orders:"
    (await snapshot <-
       Collection.getDocs (fun d => String.eqb (Order.retailerId d) retailerId)
         newestFirst;;
     Collection.resolve (map orderOf snapshot)).

Definition getSupplierOrders (supplierId : string) : Collection.Action (list Order.t) :=
  Collection.logged "Error getting supplier orders:"
    (await snapshot <-
       Collection.getDocs (fun d => String.eqb (Order.supplierId d) supplierId)
         newestFirst;;
     Collection.resolve (map orderOf snapshot)).

End OrderOperations.

(** [filterOrdersByStatus] of the order manager, on its list of orders. *)
Definition filterOrdersByStatus (orders : list Order.t) (status_ : string)
  : list Order.t :=
  if String.eqb status_ "all" then orders
  else List.filter
         (fun order => String.eqb (OrderStatus.toString (Order.status order)) status_)
         orders.

(** *** Supplier profiles *)

Module ContactInfo.
Record t : Type := { phone : option string; address : option string }.
End ContactInfo.

Module Supplier.
Record t : Type := {
  id : option string;
  userId : string;
  storeName : string;
  location : string;
  contactInfo : ContactInfo.t;
  rating : number;
  totalOrders : number;
  createdAt : Date
}.
End Supplier.

(** [Omit<Supplier, 'id' | 'userId' | 'createdAt'>] *)
Module NewSupplier.
Record t : Type := {
  storeName : string;
  location : string;
  contactInfo : ContactInfo.t;
  rating : number;
  totalOrders : number
}.
End NewSupplier.

(** [{ userId, ...supplierData, rating: 0, totalOrders: 0,
       createdAt: serverTimestamp() }]: the two zeros come after the spread. *)
Definition newSupplierDoc (userId_ : string) (supplierData : NewSupplier.t)
  (ts : Date) : Supplier.t :=
  {| Supplier.id := None;
     Supplier.userId := userId_;
     Supplier.storeName := NewSupplier.storeName supplierData;
     Supplier.location := NewSupplier.location supplierData;
     Supplier.contactInfo := NewSupplier.contactInfo supplierData;
     Supplier.rating := number_of_Z 0;
     Supplier.totalOrders := number_of_Z 0;
     Supplier.createdAt := ts |}.

(** [{ id: doc.id, ...doc.data(), createdAt: ..toDate() }] *)
Definition supplierOf (doc : string * Supplier.t) : Supplier.t :=
  {| Supplier.id :=
       match Supplier.id doc.2 with Some own => Some own | None => Some doc.1 end;
     Supplier.userId := Supplier.userId doc.2;
     Supplier.storeName := Supplier.storeName doc.2;
     Supplier.location := Supplier.location doc.2;
     Supplier.contactInfo := Supplier.contactInfo doc.2;
     Supplier.rating := Supplier.rating doc.2;
     Supplier.totalOrders := Supplier.totalOrders doc.2;
     Supplier.createdAt := Supplier.createdAt doc.2 |}.

Section SupplierOperations.
Local Open Scope collection_scope.

Definition createSupplierProfile (serverTimestamp : Date) (userId_ : string)
  (supplierData : NewSupplier.t) : Collection.Action () :=
  Collection.logged "Error creating supplier profile:"
    (await docRef <- Collection.doc userId_;;
     Collection.setDoc docRef (newSupplierDoc userId_ supplierData serverTimestamp)).

Definition getSupplierProfile (userId_ : string)
  : Collection.Action (option Supplier.t) :=
  Collection.logged "Error getting supplier profile:"
    (await docRef <- Collection.doc userId_;;
     await docSnap <- Collection.getDoc docRef;;
     match docSnap with
     | Some data => Collection.resolve (Some (supplierOf (referenceId docRef, data)))
     | None => Collection.resolve None
     end).

Definition getAllSuppliers : Collection.Action (list Supplier.t) :=
  Collection.logged "Error getting suppliers:"
    (await snapshot <- Collection.getDocs (fun _ => true) byId;;
     Collection.resolve (map supplierOf snapshot)).

End SupplierOperations.

(** An entry [g] of an inventory listing that carries what is stored under
    [k]: every field as the document [d] has it, and as [id] the document's
    key (or the [id] field of the document itself, had it one). *)
Definition listedItem (k : string) (d g : InventoryItem.t) : Prop :=
  InventoryItem.id g
  = match InventoryItem.id d with Some own => Some own | None => Some k end
  /\ InventoryItem.supplierId g = InventoryItem.supplierId d
  /\ InventoryItem.name g = InventoryItem.name d
  /\ InventoryItem.category g = InventoryItem.category d
  /\ InventoryItem.price g = InventoryItem.price d
  /\ InventoryItem.unit g = InventoryItem.unit d
  /\ InventoryItem.stock g = InventoryItem.stock d
  /\ InventoryItem.description g = InventoryItem.description d
  /\ InventoryItem.createdAt g = InventoryItem.createdAt d
  /\ InventoryItem.updatedAt g = InventoryItem.updatedAt d.

(** The same for an entry of an order listing. *)
Definition listedOrderEntry (k : string) (d g : Order.t) : Prop :=
  Order.id g = match Order.id d with Some own => Some own | None => Some k end
  /\ Order.retailerId g = Order.retailerId d
  /\ Order.supplierId g = Order.supplierId d
  /\ Order.items g = Order.items d
  /\ Order.totalAmount g = Order.totalAmount d
  /\ Order.status g = Order.status d
  /\ Order.isGroupOrder g = Order.isGroupOrder d
  /\ Order.groupOrderId g = Order.groupOrderId d
  /\ Order.createdAt g = Order.createdAt d
  /\ Order.updatedAt g = Order.updatedAt d.

(** The documents of the collection that a query selects, in the order it
    asks for. *)
Definition queried {D : Type} (p : D -> bool) (le : relation (string * D))
  `{!forall a b, Decision (le a b)} (s : Collection.t D) : list (string * D) :=
  merge_sort le (filter (fun kd => p kd.2 = true) (members (Collection.docs s))).

(** A collection whose store answers every request. *)
Definition answering {D : Type} (s : Collection.t D) : Prop :=
  Collection.failures s = [].

(** *** Sample inventory *)

Definition onions : InventoryItem.t :=
  {| InventoryItem.id := None; InventoryItem.supplierId := "ravi";
     InventoryItem.name := "onions"; InventoryItem.category := "vegetables";
     InventoryItem.price := number_of_Z 30; InventoryItem.unit := "kg";
     InventoryItem.stock := number_of_Z 50; InventoryItem.description := None;
     InventoryItem.createdAt := 10; InventoryItem.updatedAt := 10 |}.

Definition chillies : InventoryItem.t :=
  {| InventoryItem.id := None; InventoryItem.supplierId := "ravi";
     InventoryItem.name := "chillies"; InventoryItem.category := "vegetables";
     InventoryItem.price := number_of_Z 80; InventoryItem.unit := "kg";
     InventoryItem.stock := number_of_Z 0; InventoryItem.description := None;
     InventoryItem.createdAt := 20; InventoryItem.updatedAt := 25 |}.

Definition ghee : InventoryItem.t :=
  {| InventoryItem.id := None; InventoryItem.supplierId := "sita";
     InventoryItem.name := "ghee"; InventoryItem.category := "dairy";
     InventoryItem.price := number_of_Z 500; InventoryItem.unit := "litre";
     InventoryItem.stock := number_of_Z 8; InventoryItem.description := Some "cow ghee";
     InventoryItem.createdAt := 30; InventoryItem.updatedAt := 30 |}.

Definition sampleInventory : Collection.t InventoryItem.t :=
  {| Collection.docs := <["i3" := ghee]> (<["i2" := chillies]> {["i1" := onions]});
     Collection.failures := []; Collection.console := [] |}.

Definition turmeric : NewInventoryItem.t :=
  {| NewInventoryItem.supplierId := "sita"; NewInventoryItem.name := "turmeric";
     NewInventoryItem.category := "spices"; NewInventoryItem.price := number_of_Z 200;
     NewInventoryItem.unit := "kg"; NewInventoryItem.stock := number_of_Z 12;
     NewInventoryItem.description := None |}.

(** An update that gives a new price and nothing else. *)
Definition priceOnly (p : number) : InventoryUpdates.t :=
  {| InventoryUpdates.id := None; InventoryUpdates.supplierId := None;
     InventoryUpdates.name := None; InventoryUpdates.category := None;
     InventoryUpdates.price := Some p; InventoryUpdates.unit := None;
     InventoryUpdates.stock := None; InventoryUpdates.description := None;
     InventoryUpdates.createdAt := None; InventoryUpdates.updatedAt := None |}.

(** *** Sample orders *)

Definition order1 : Order.t :=
  {| Order.id := None; Order.retailerId := "asha"; Order.supplierId := "ravi";
     Order.items := []; Order.totalAmount := number_of_Z 300;
     Order.status := OrderStatus.completed; Order.isGroupOrder := false;
     Order.groupOrderId := None; Order.createdAt := 100; Order.updatedAt := 150 |}.

Definition order2 : Order.t :=
  {| Order.id := None; Order.retailerId := "asha"; Order.supplierId := "sita";
     Order.items := []; Order.totalAmount := number_of_Z 500;
     Order.status := OrderStatus.pending; Order.isGroupOrder := false;
     Order.groupOrderId := None; Order.createdAt := 200; Order.updatedAt := 200 |}.

Definition order3 : Order.t :=
  {| Order.id := None; Order.retailerId := "bala"; Order.supplierId := "ravi";
     Order.items := []; Order.totalAmount := number_of_Z 80;
     Order.status := OrderStatus.confirmed; Order.isGroupOrder := true;
     Order.groupOrderId := Some "g2"; Order.createdAt := 300; Order.updatedAt := 310 |}.

Definition sampleOrders : Collection.t Order.t :=
  {| Collection.docs := <["o3" := order3]> (<["o2" := order2]> {["o1" := order1]});
     Collection.failures := []; Collection.console := [] |}.

Definition order4 : NewOrder.t :=
  {| NewOrder.retailerId := "bala"; NewOrder.supplierId := "sita";
     NewOrder.items :=
       [ {| OrderLine.itemId := "i3"; OrderLine.name := "ghee";
            OrderLine.quantity := number_of_Z 2; OrderLine.price := number_of_Z 500;
            OrderLine.unit := "litre" |} ];
     NewOrder.totalAmount := number_of_Z 1000;
     NewOrder.status := OrderStatus.pending; NewOrder.isGroupOrder := false;
     NewOrder.groupOrderId := None |}.

(** *** Sample supplier data *)

Definition raviStore : NewSupplier.t :=
  {| NewSupplier.storeName := "Ravi Traders"; NewSupplier.location := "Pune";
     NewSupplier.contactInfo := {| ContactInfo.phone := None; ContactInfo.address := None |};
     NewSupplier.rating := number_of_Z 5; NewSupplier.totalOrders := number_of_Z 40 |}.

Definition noSuppliers : Collection.t Supplier.t :=
  {| Collection.docs := ∅; Collection.failures := []; Collection.console := [] |}.

(** *** The inventory manager component *)

Module ItemFormData.
Record t : Type := {
  name : string;
  category : string;
  price : string;
  unit : string;
  stock : string;
  description : string
}.
End ItemFormData.

(** The state hooks of the inventory manager, and the toasts it has raised. *)
Module InventoryManager.
Record t : Type := {
  items : list InventoryItem.t;
  loading : bool;
  dialogOpen : bool;
  editingItem : option InventoryItem.t;
  formData : ItemFormData.t;
  toasts : list Toast
}.

Definition setItems (inventory : list InventoryItem.t) (c : t) : t :=
  {| items := inventory; loading := loading c; dialogOpen := dialogOpen c;
     editingItem := editingItem c; formData := formData c; toasts := toasts c |}.

Definition setLoading (b : bool) (c : t) : t :=
  {| items := items c; loading := b; dialogOpen := dialogOpen c;
     editingItem := editingItem c; formData := formData c; toasts := toasts c |}.

Definition setDialogOpen (b : bool) (c : t) : t :=
  {| items := items c; loading := loading c; dialogOpen := b;
     editingItem := editingItem c; formData := formData c; toasts := toasts c |}.

Definition setEditingItem (item : option InventoryItem.t) (c : t) : t :=
  {| items := items c; loading := loading c; dialogOpen := dialogOpen c;
     editingItem := item; formData := formData c; toasts := toasts c |}.

Definition setFormData (fd : ItemFormData.t) (c : t) : t :=
  {| items := items c; loading := loading c; dialogOpen := dialogOpen c;
     editingItem := editingItem c; formData := fd; toasts := toasts c |}.

Definition toast (x : Toast) (c : t) : t :=
  {| items := items c; loading := loading c; dialogOpen := dialogOpen c;
     editingItem := editingItem c; formData := formData c;
     toasts := toasts c ++ [x] |}.

Definition emptyForm : ItemFormData.t :=
  {| ItemFormData.name := ""; ItemFormData.category := ""; ItemFormData.price := "";
     ItemFormData.unit := ""; ItemFormData.stock := "";
     ItemFormData.description := "" |}.

Definition loadInventory (env : Env) (user : option User) (c : t)
  (s : Collection.t InventoryItem.t) : t * Collection.t InventoryItem.t :=
  match user with
  | Some u =>
      match getSupplierInventory (uid u) s with
      | (Resolved inventory, s') => (setLoading false (setItems inventory c), s')
      | (Rejected _, s') =>
          (setLoading false (toast (errorToast env "failed_to_load_inventory") c), s')
      end
  | None => (setLoading false c, s)
  end.

Definition resetForm (c : t) : t := setEditingItem None (setFormData emptyForm c).

(** The guard of [handleSubmit]: no user, or an empty required field (the
    description is not required). *)
Definition missingRequiredFields (user : option User) (fd : ItemFormData.t) : bool :=
  match user with None => true | Some _ => false end
  || falsy (ItemFormData.name fd)
  || falsy (ItemFormData.category fd)
  || falsy (ItemFormData.price fd)
  || falsy (ItemFormData.unit fd)
  || falsy (ItemFormData.stock fd).

(** The object literal [itemData] of [handleSubmit], as [addInventoryItem]
    takes it. *)
Definition itemData (env : Env) (user : User) (fd : ItemFormData.t)
  : NewInventoryItem.t :=
  {| NewInventoryItem.supplierId := uid user;
     NewInventoryItem.name := ItemFormData.name fd;
     NewInventoryItem.category := ItemFormData.category fd;
     NewInventoryItem.price := parseFloat env (ItemFormData.price fd);
     NewInventoryItem.unit := ItemFormData.unit fd;
     NewInventoryItem.stock := parseInt env (ItemFormData.stock fd);
     NewInventoryItem.description := Some (ItemFormData.description fd) |}.

(** The same object as [updateInventoryItem] takes it: the seven fields are
    given, [id], [createdAt] and [updatedAt] are not. *)
Definition itemUpdates (item : NewInventoryItem.t) : InventoryUpdates.t :=
  {| InventoryUpdates.id := None;
     InventoryUpdates.supplierId := Some (NewInventoryItem.supplierId item);
     InventoryUpdates.name := Some (NewInventoryItem.name item);
     InventoryUpdates.category := Some (NewInventoryItem.category item);
     InventoryUpdates.price := Some (NewInventoryItem.price item);
     InventoryUpdates.unit := Some (NewInventoryItem.unit item);
     InventoryUpdates.stock := Some (NewInventoryItem.stock item);
     InventoryUpdates.description := NewInventoryItem.description item;
     InventoryUpdates.createdAt := None;
     InventoryUpdates.updatedAt := None |}.

(** The write of [handleSubmit]: an update of the item being edited, or else
    an addition.  For an edited item without an id no document reference can
    be made: [updateInventoryItem] then fails, and logs, before any request
    to the store. *)
Definition submitWrite (env : Env) (serverTimestamp : Date) (u : User) (c : t)
  : Collection.Action () :=
  match editingItem c with
  | Some item =>
      match InventoryItem.id item with
      | Some itemId =>
          updateInventoryItem serverTimestamp itemId
            (itemUpdates (itemData env u (formData c)))
      | None =>
          Collection.logged "Error updating inventory item:"
            (Collection.throw ValidationError)
      end
  | None =>
      Collection.bind (addInventoryItem serverTimestamp (itemData env u (formData c)))
        (fun _ => Collection.resolve ())
  end.

Definition handleSubmit (env : Env) (serverTimestamp : Date) (user : option User)
  (c : t) (s : Collection.t InventoryItem.t) : t * Collection.t InventoryItem.t :=
  match user with
  | Some u =>
      if missingRequiredFields user (formData c)
      then (toast (errorToast env "please_fill_required_fields") c, s)
      else
        match submitWrite env serverTimestamp u c s with
        | (Resolved _, s') =>
            loadInventory env user
              (resetForm
                 (setDialogOpen false
                    (toast (successToast env
                              (match editingItem c with
                               | Some _ => "item_updated_successfully"
                               | None => "item_added_successfully"
                               end)) c)))
              s'
        | (Rejected _, s') =>
            (toast (errorToast env
                      (match editingItem c with
                       | Some _ => "failed_to_update_item"
                       | None => "failed_to_add_item"
                       end)) c, s')
        end
  | None => (toast (errorToast env "please_fill_required_fields") c, s)
  end.

(** [confirmed] is the answer of the [confirm] dialog. *)
Definition handleDelete (env : Env) (confirmed : bool) (user : option User)
  (itemId : string) (c : t) (s : Collection.t InventoryItem.t)
  : t * Collection.t InventoryItem.t :=
  if negb confirmed then (c, s)
  else
    match deleteInventoryItem itemId s with
    | (Resolved _, s') =>
        loadInventory env user
          (toast (successToast env "item_deleted_successfully") c) s'
    | (Rejected _, s') =>
        (toast (errorToast env "failed_to_delete_item") c, s')
    end.

End InventoryManager.

(** A filled-in item form, and the manager editing the item ["i1"] with it. *)
Definition onionForm : ItemFormData.t :=
  {| ItemFormData.name := "red onions"; ItemFormData.category := "vegetables";
     ItemFormData.price := "35"; ItemFormData.unit := "kg";
     ItemFormData.stock := "40"; ItemFormData.description := "" |}.

Definition editingOnions : InventoryManager.t :=
  {| InventoryManager.items := [];
     InventoryManager.loading := false;
     InventoryManager.dialogOpen := true;
     InventoryManager.editingItem := Some (inventoryItemOf ("i1", onions));
     InventoryManager.formData := onionForm;
     InventoryManager.toasts := [] |}.

(** The manager with the same form and no item being edited. *)
Definition addingOnions : InventoryManager.t :=
  {| InventoryManager.items := [];
     InventoryManager.loading := false;
     InventoryManager.dialogOpen := true;
     InventoryManager.editingItem := None;
     InventoryManager.formData := onionForm;
     InventoryManager.toasts := [] |}.

(** * Properties *)

(** ** The store operations, step by step *)

Ltac unfold_promise :=
  cbv beta delta [try_catch bind doc getDoc updateDoc addDoc getDocs request put
                  resolve throw console_error].

Ltac simpl_world := cbn [fst snd groupOrders failures console].

Lemma surjective_World (w : World) :
  {| groupOrders := groupOrders w; failures := failures w; console := console w |} = w.
Proof. by destruct w. Qed.

Lemma request_reachable w : reachable w -> request w = (Resolved (), w).
Proof. unfold reachable, request. by intros ->. Qed.

Lemma getDoc_reachable docRef w :
  reachable w -> getDoc docRef w = (Resolved (groupOrders w !! path docRef), w).
Proof. intros H. unfold getDoc, bind. by rewrite request_reachable. Qed.

Lemma updateDoc_reachable docRef fields g w :
  reachable w -> groupOrders w !! path docRef = Some g ->
  updateDoc docRef fields w =
    (Resolved (), {| groupOrders := <[path docRef := fields g]> (groupOrders w);
                     failures := failures w; console := console w |}).
Proof.
  intros H Hk. unfold updateDoc, bind. rewrite request_reachable by done.
  by rewrite Hk.
Qed.

Lemma addDoc_reachable data w :
  reachable w ->
  addDoc data w =
    (Resolved (fresh (dom (groupOrders w))),
     {| groupOrders := <[fresh (dom (groupOrders w)) := data]> (groupOrders w);
        failures := failures w; console := console w |}).
Proof. intros H. unfold addDoc, bind. by rewrite request_reachable. Qed.

Lemma fresh_id_unused (m : gmap string GroupOrder) : m !! fresh (dom m) = None.
Proof. apply not_elem_of_dom, is_fresh. Qed.

(** ** Document references *)

Lemma splitAtSlashes_noSlash s : noSlash s = true -> splitAtSlashes s = [s].
Proof.
  induction s as [|c s IH]; intros H; cbn in *; [done|].
  apply andb_prop in H as [Hc Hs]. apply negb_true_iff in Hc. rewrite Hc.
  by rewrite IH.
Qed.

Lemma hasDoubleSlash_noSlash s : noSlash s = true -> hasDoubleSlash s = false.
Proof.
  induction s as [|a s IH]; [done|]. cbn [noSlash]. intros [Ha Hs]%andb_prop.
  apply negb_true_iff in Ha. destruct s as [|b s]; [done|].
  cbn [hasDoubleSlash]. rewrite Ha. cbn. by apply IH.
Qed.

Lemma segments_plainId k : plainId k = true -> segments k = [k].
Proof.
  unfold plainId. intros [Hne Hs]%andb_prop. unfold segments.
  rewrite splitAtSlashes_noSlash by done. cbn [List.filter]. by rewrite Hne.
Qed.

(** A plain id is the path of the reference that [doc] makes of it. *)
Lemma reference_plainId k : plainId k = true -> reference k = Some {| path := k |}.
Proof.
  intros Hk. unfold reference. rewrite (segments_plainId k Hk).
  apply andb_prop in Hk as [_ Hs]. by rewrite hasDoubleSlash_noSlash.
Qed.

Lemma referenceId_plainId k : plainId k = true -> referenceId {| path := k |} = k.
Proof. intros Hk. unfold referenceId. cbn [path]. by rewrite segments_plainId. Qed.

(** What [doc] makes of some ids: a plain id is taken as it is, slashes at
    either end are dropped, three segments name a document further below;
    the empty id, two segments and a doubled slash are refused. *)
Example reference_samples :
  reference "g1" = Some {| path := "g1" |}
  /\ reference "g1/" = Some {| path := "g1" |}
  /\ reference "/g1" = Some {| path := "g1" |}
  /\ reference "g1/notes/n1" = Some {| path := "g1/notes/n1" |}
  /\ referenceId {| path := "g1/notes/n1" |} = "n1"
  /\ reference "" = None
  /\ reference "/" = None
  /\ reference "g1/notes" = None
  /\ reference "g1//n1" = None.
Proof. vm_compute. repeat split. Qed.

Lemma isDigit_pretty_N_char n : isDigit (pretty_N_char n) = true.
Proof. unfold pretty_N_char. by repeat case_match. Qed.

Lemma allDigits_pretty_N_go (n : N) (s : string) :
  allDigits s = true -> allDigits (pretty_N_go n s) = true.
Proof.
  revert s. induction (N.lt_wf_0 n) as [n _ IH]. intros s Hs.
  destruct (decide (n = 0)%N) as [->|Hn]; [done|].
  rewrite pretty_N_go_step by lia.
  apply IH; [apply N.div_lt; lia|]. cbn. by rewrite isDigit_pretty_N_char.
Qed.

Lemma pretty_N_go_nonempty (n : N) (s : string) :
  s <> "" -> pretty_N_go n s <> "".
Proof.
  revert s. induction (N.lt_wf_0 n) as [n _ IH]. intros s Hs.
  destruct (decide (n = 0)%N) as [->|Hn]; [done|].
  rewrite pretty_N_go_step by lia.
  apply IH; [apply N.div_lt; lia|done].
Qed.

Lemma allDigits_noSlash s : allDigits s = true -> noSlash s = true.
Proof.
  induction s as [|c s IH]; [done|]. cbn. intros [Hc Hs]%andb_prop.
  rewrite IH by done. rewrite andb_true_r. apply negb_true_iff.
  by destruct (Ascii.eqb_spec c "/") as [->|].
Qed.

(** The decimal numerals are plain ids. *)
Lemma plainId_pretty_nat (n : nat) : plainId (pretty n) = true.
Proof.
  unfold pretty, pretty_nat, pretty, pretty_N.
  case_decide as Hn; [done|].
  assert (Hd : allDigits (pretty_N_go (N.of_nat n) "") = true)
    by by apply allDigits_pretty_N_go.
  unfold plainId. rewrite (allDigits_noSlash _ Hd), andb_true_r.
  apply negb_true_iff.
  destruct (String.eqb_spec (pretty_N_go (N.of_nat n) "") "") as [He|]; [|done].
  exfalso. revert He. rewrite pretty_N_go_step by lia.
  by apply pretty_N_go_nonempty.
Qed.

Lemma search_infinite_go_pretty (xs : list string) (n : nat)
    (acc : Acc (fun n1 n2 : nat => (n2 < n1)%nat /\ pretty (n1 - 1)%nat ∈ xs) n) :
  exists m : nat, Fix_F _ (search_infinite_go pretty xs) acc = pretty m.
Proof.
  revert n acc. fix FIX 2. intros n [a]. cbn. unfold search_infinite_go at 1.
  destruct (decide _); eauto.
Qed.

(** The id that the store picks for a new document is a decimal numeral,
    hence a plain id. *)
Lemma plainId_fresh (X : gset string) : plainId (fresh X) = true.
Proof.
  assert (H : exists n : nat, fresh X = pretty n).
  { unfold fresh, set_fresh, fresh, infinite_fresh, string_infinite, search_infinite.
    apply search_infinite_go_pretty. }
  destruct H as [n ->]. apply plainId_pretty_nat.
Qed.

Lemma elem_of_members {D} (m : gmap string D) k d :
  (k, d) ∈ members m <-> m !! k = Some d /\ plainId k = true.
Proof.
  unfold members. rewrite list_elem_of_filter, elem_of_map_to_list. cbn. tauto.
Qed.

Lemma NoDup_members {D} (m : gmap string D) : NoDup (members m).
Proof. unfold members. apply NoDup_filter, NoDup_map_to_list. Qed.

(** Writing a plain id that was not stored adds one member; the others
    stay. *)
Lemma members_insert_new {D} (m : gmap string D) k d :
  m !! k = None -> plainId k = true -> members (<[k := d]> m) ≡ₚ (k, d) :: members m.
Proof.
  intros Hk Hp. unfold members.
  rewrite map_to_list_insert by done. rewrite filter_cons_True by done. done.
Qed.

(** Overwriting a stored plain id replaces that member. *)
Lemma members_insert_old {D} (m : gmap string D) k d0 d :
  m !! k = Some d0 -> plainId k = true ->
  members (<[k := d]> m) ≡ₚ (k, d) :: members (delete k m).
Proof.
  intros Hk Hp. rewrite <- insert_delete_eq.
  apply members_insert_new; [apply lookup_delete_eq | done].
Qed.

(** ** Membership lists *)

Lemma find_userId_None u (vs : list Vendor) :
  find (fun v => String.eqb (userId v) u) vs = None <-> u ∉ map userId vs.
Proof.
  induction vs as [|v vs IH]; simpl.
  - split; [intros _; apply not_elem_of_nil | done].
  - destruct (String.eqb_spec (userId v) u) as [->|Hne].
    + split; [done | intros []; left].
    + rewrite IH, not_elem_of_cons.
      split; [intros ?; split; [congruence | done] | by intros [_ ?]].
Qed.

Lemma find_userId_Some u (vs : list Vendor) :
  u ∈ map userId vs -> exists v, find (fun v => String.eqb (userId v) u) vs = Some v.
Proof.
  intros Hin. destruct (find _ vs) eqn:E; [eauto|].
  by apply find_userId_None in E.
Qed.

Lemma updatedVendors_present now u q vs :
  u ∈ map userId vs ->
  updatedVendors now u q vs =
    map (fun v => if String.eqb (userId v) u then with_quantity q v else v) vs.
Proof. intros [v Hv]%find_userId_Some. unfold updatedVendors. by rewrite Hv. Qed.

Lemma updatedVendors_absent now u q vs :
  u ∉ map userId vs ->
  updatedVendors now u q vs =
    vs ++ [ {| userId := u; quantity := q; joinedAt := now |} ].
Proof. intros Hv%find_userId_None. unfold updatedVendors. by rewrite Hv. Qed.

Lemma userId_requantify u q v :
  userId (if String.eqb (userId v) u then with_quantity q v else v) = userId v.
Proof. by destruct (String.eqb _ _). Qed.

Lemma updatedVendors_userIds now u q vs :
  map userId (updatedVendors now u q vs) =
    if decide (u ∈ map userId vs) then map userId vs else map userId vs ++ [u].
Proof.
  case_decide as Hin.
  - rewrite updatedVendors_present by done. rewrite map_map.
    apply map_ext. intros v. apply userId_requantify.
  - rewrite updatedVendors_absent by done. by rewrite map_app.
Qed.

Lemma updatedVendors_NoDup now u q vs :
  NoDup (map userId vs) -> NoDup (map userId (updatedVendors now u q vs)).
Proof.
  intros Hnd. rewrite updatedVendors_userIds. case_decide as Hin; [done|].
  apply NoDup_app. split_and!; [done | | apply NoDup_singleton].
  intros x Hx ->%list_elem_of_singleton. done.
Qed.

Lemma updatedVendors_member now u q vs : u ∈ map userId (updatedVendors now u q vs).
Proof.
  rewrite updatedVendors_userIds. case_decide; [done|].
  apply elem_of_app. right. apply list_elem_of_singleton. done.
Qed.

Lemma updatedVendors_quantity now u q vs v :
  v ∈ updatedVendors now u q vs -> userId v = u -> quantity v = q.
Proof.
  destruct (decide (u ∈ map userId vs)) as [Hin|Hin].
  - rewrite updatedVendors_present by done.
    intros (v0 & -> & Hv0)%list_elem_of_fmap.
    destruct (String.eqb_spec (userId v0) u); [done|]. by intros ?.
  - rewrite updatedVendors_absent by done.
    intros [Hv| ->%list_elem_of_singleton]%elem_of_app; [|done].
    intros <-. destruct Hin. apply list_elem_of_fmap. eauto.
Qed.

(** ** [joinGroupOrder] on the store *)

Lemma doc_reference k docRef w :
  reference k = Some docRef -> doc k w = (Resolved docRef, w).
Proof. unfold doc. by intros ->. Qed.

Lemma doc_malformed k w :
  reference k = None -> doc k w = (Rejected InvalidArgument, w).
Proof. unfold doc. by intros ->. Qed.

Lemma joinGroupOrder_existing_at now k docRef u q w d :
  reachable w -> reference k = Some docRef ->
  groupOrders w !! path docRef = Some d ->
  joinGroupOrder now k u q w =
    (Resolved (),
     {| groupOrders :=
          <[path docRef :=
              set_joinedVendors (updatedVendors now u q (joinedVendors d)) d]>
            (groupOrders w);
        failures := failures w; console := console w |}).
Proof.
  intros Hw Hr Hk. unfold joinGroupOrder, try_catch, bind at 1.
  rewrite (doc_reference k docRef) by done. unfold bind at 1.
  rewrite getDoc_reachable by done. rewrite Hk.
  by rewrite (updateDoc_reachable _ _ d).
Qed.

Lemma joinGroupOrder_existing now k u q w d :
  reachable w -> plainId k = true -> groupOrders w !! k = Some d ->
  joinGroupOrder now k u q w =
    (Resolved (),
     {| groupOrders :=
          <[k := set_joinedVendors (updatedVendors now u q (joinedVendors d)) d]>
            (groupOrders w);
        failures := failures w; console := console w |}).
Proof.
  intros Hw Hp Hk.
  by apply (joinGroupOrder_existing_at now k {| path := k |});
    [|apply reference_plainId|].
Qed.

Lemma joinGroupOrder_missing now k docRef u q w :
  reachable w -> reference k = Some docRef ->
  groupOrders w !! path docRef = None ->
  joinGroupOrder now k u q w = (Resolved (), w).
Proof.
  intros Hw Hr Hk. unfold joinGroupOrder, try_catch, bind at 1.
  rewrite (doc_reference k docRef) by done. unfold bind at 1.
  rewrite getDoc_reachable by done. by rewrite Hk.
Qed.

(** A malformed id is refused before any request: the call rejects, logs,
    and leaves the store and the schedule of its answers as they were. *)
Lemma joinGroupOrder_malformed now k u q w :
  reference k = None ->
  joinGroupOrder now k u q w =
    (Rejected InvalidArgument,
     {| groupOrders := groupOrders w; failures := failures w;
        console := console w ++ ["Error joining group order:"] |}).
Proof.
  intros Hr. unfold joinGroupOrder, try_catch, bind at 1.
  by rewrite doc_malformed.
Qed.

(** Whatever the store does, a join either leaves the collection as it was or
    rewrites the membership list of the one order it names. *)
Lemma joinGroupOrder_cases now k u q w :
  let r := joinGroupOrder now k u q w in
  (reference k = None /\ r.1 = Rejected InvalidArgument
   /\ groupOrders r.2 = groupOrders w)
  \/ (r.1 = Rejected StorageError /\ groupOrders r.2 = groupOrders w)
  \/ (exists docRef, reference k = Some docRef /\ r.1 = Resolved ()
        /\ groupOrders w !! path docRef = None /\ groupOrders r.2 = groupOrders w)
  \/ (exists docRef d, reference k = Some docRef /\ r.1 = Resolved ()
        /\ groupOrders w !! path docRef = Some d
        /\ groupOrders r.2 =
             <[path docRef :=
                 set_joinedVendors (updatedVendors now u q (joinedVendors d)) d]>
               (groupOrders w)).
Proof.
  destruct (reference k) as [docRef|] eqn:Hr.
  - right. destruct w as [m fs c]. unfold joinGroupOrder. unfold_promise.
    rewrite Hr. simpl_world.
    destruct fs as [|[] [|[] fs]]; simpl_world; try (left; done);
      destruct (m !! path docRef) as [d|] eqn:Hk; simpl_world;
      rewrite ?Hk; simpl_world; try (left; done);
      try (right; left; by exists docRef); right; right; by exists docRef, d.
  - left. by rewrite joinGroupOrder_malformed.
Qed.

(** ** Membership upsert *)

(** C10. On an order stored under a plain id, a re-join by a member changes
    only the quantity of that member's entry: the list keeps its length and
    order, the member's entry keeps its user id and [joinedAt], and every
    other entry is unchanged.  A join by a new user appends one entry,
    stamped with the current time, after the existing entries. *)
Theorem joinGroupOrder_membership_frame (now : Date) (k u : string) (q : number)
  (w : World) (d : GroupOrder) :
  reachable w -> plainId k = true -> groupOrders w !! k = Some d ->
  exists w' d',
    joinGroupOrder now k u q w = (Resolved (), w')
    /\ groupOrders w' !! k = Some d'
    /\ (u ∈ userIds d ->
          length (joinedVendors d') = length (joinedVendors d)
          /\ forall (i : nat) (v : Vendor),
               joinedVendors d !! i = Some v ->
               joinedVendors d' !! i =
                 Some (if decide (userId v = u)
                       then {| userId := userId v; quantity := q; joinedAt := joinedAt v |}
                       else v))
    /\ (u ∉ userIds d ->
          joinedVendors d' =
            joinedVendors d ++ [ {| userId := u; quantity := q; joinedAt := now |} ]).
Proof.
  intros Hw Hp Hk. eexists _, _.
  split; [by apply joinGroupOrder_existing|]. simpl_world.
  split; [apply lookup_insert_eq|]. cbn [joinedVendors set_joinedVendors].
  split.
  - intros Hin. rewrite updatedVendors_present by done.
    split; [apply length_map|].
    intros i v Hv. rewrite list_lookup_fmap, Hv. cbn.
    destruct (String.eqb_spec (userId v) u); case_decide; done.
  - intros Hin. by apply updatedVendors_absent.
Qed.

Lemma joinGroupOrder_membership_frame_witness :
  exists w' d',
    joinGroupOrder 300 "g1" "bala" (number_of_Z 7) sampleWorld = (Resolved (), w')
    /\ groupOrders w' !! "g1" = Some d'
    /\ joinedVendors d' !! 0%nat = Some asha
    /\ joinedVendors d' !! 1%nat =
         Some {| userId := "bala"; quantity := number_of_Z 7; joinedAt := 200 |}.
Proof.
  destruct (joinGroupOrder_membership_frame 300 "g1" "bala" (number_of_Z 7)
              sampleWorld riceOrder) as (w' & d' & Hrun & Hd' & Hin & _).
  - reflexivity.
  - reflexivity.
  - vm_compute. reflexivity.
  - exists w', d'. split; [exact Hrun|]. split; [exact Hd'|].
    destruct Hin as [_ Hi].
    + unfold userIds. cbn. set_solver.
    + split.
      * apply (Hi 0%nat asha). reflexivity.
      * apply (Hi 1%nat bala). reflexivity.
Defined.

Lemma filter_userId_absent u (vs : list Vendor) :
  u ∉ map userId vs -> filter (fun v => userId v = u) vs = [].
Proof.
  induction vs as [|v vs IH]; cbn [map]; [done|].
  intros [Hne Hin]%not_elem_of_cons. rewrite filter_cons_False by congruence.
  by apply IH.
Qed.

Lemma filter_userId_unique u (vs : list Vendor) :
  NoDup (map userId vs) -> u ∈ map userId vs ->
  exists v, filter (fun v => userId v = u) vs = [v].
Proof.
  induction vs as [|v vs IH]; cbn [map].
  - intros _ Hin. by apply elem_of_nil in Hin.
  - intros [Hv Hnd]%NoDup_cons Hin. rewrite filter_cons. case_decide as Hu.
    + exists v. f_equal. apply filter_userId_absent. by rewrite <- Hu.
    + apply elem_of_cons in Hin as [Hin|Hin]; [congruence|]. by apply IH.
Qed.

(** A join to any order, whatever the store answers, leaves an order with
    unique members in place with unique members. *)
Lemma joinGroupOrder_keeps_unique now k' u q w k d :
  groupOrders w !! k = Some d -> NoDup (userIds d) ->
  exists d', groupOrders (joinGroupOrder now k' u q w).2 !! k = Some d'
             /\ NoDup (userIds d').
Proof.
  intros Hk Hnd.
  destruct (joinGroupOrder_cases now k' u q w)
    as [(_ & _ & ->)|[[_ ->]|[(r & _ & _ & _ & ->)|(r & d0 & _ & _ & Hk' & ->)]]];
    [by eauto..|].
  destruct (decide (path r = k)) as [Heq|Hne].
  - rewrite Heq in *. rewrite lookup_insert_eq. eexists; split; [done|].
    assert (d0 = d) as -> by congruence. by apply updatedVendors_NoDup.
  - rewrite lookup_insert_ne by done. eauto.
Qed.

(** C1. On an order whose membership list names each user at most once,
    every call of [joinGroupOrder] keeps it so (whichever id the call
    names and whatever the store answers); and when the store is reachable
    and the order is stored under a plain id, two successive joins by one
    user both resolve and leave exactly one entry for that user, carrying
    the quantity of the second call. *)
Theorem joinGroupOrder_twice_replaces (w : World) (k : string) (d : GroupOrder) :
  groupOrders w !! k = Some d -> NoDup (userIds d) ->
  (forall (now : Date) (k' u : string) (q : number),
     exists d', groupOrders (joinGroupOrder now k' u q w).2 !! k = Some d'
                /\ NoDup (userIds d'))
  /\ (reachable w -> plainId k = true ->
      forall (now1 now2 : Date) (u : string) (q1 q2 : number),
      exists w1 d1 w2 d2,
        joinGroupOrder now1 k u q1 w = (Resolved (), w1)
        /\ groupOrders w1 !! k = Some d1 /\ NoDup (userIds d1)
        /\ joinGroupOrder now2 k u q2 w1 = (Resolved (), w2)
        /\ groupOrders w2 !! k = Some d2 /\ NoDup (userIds d2)
        /\ length (joinedVendors d2) = length (joinedVendors d1)
        /\ exists v, filter (fun v => userId v = u) (joinedVendors d2) = [v]
                     /\ quantity v = q2).
Proof.
  intros Hk Hnd. split.
  { intros now k' u q. by apply (joinGroupOrder_keeps_unique now k' u q w k d). }
  intros Hw Hp now1 now2 u q1 q2.
  pose proof (joinGroupOrder_existing now1 k u q1 w d Hw Hp Hk) as H1.
  set (d1 := set_joinedVendors (updatedVendors now1 u q1 (joinedVendors d)) d) in *.
  set (w1 := {| groupOrders := <[k := d1]> (groupOrders w);
                failures := failures w; console := console w |}) in *.
  assert (Hk1 : groupOrders w1 !! k = Some d1) by apply lookup_insert_eq.
  assert (Hnd1 : NoDup (userIds d1)) by by apply updatedVendors_NoDup.
  pose proof (joinGroupOrder_existing now2 k u q2 w1 d1 Hw Hp Hk1) as H2.
  set (d2 := set_joinedVendors (updatedVendors now2 u q2 (joinedVendors d1)) d1) in *.
  assert (Hin1 : u ∈ userIds d1) by apply updatedVendors_member.
  assert (Hnd2 : NoDup (userIds d2)) by by apply updatedVendors_NoDup.
  eexists w1, d1, _, d2. split_and!; try done.
  - apply lookup_insert_eq.
  - cbn [d2 joinedVendors set_joinedVendors].
    rewrite updatedVendors_present by done. apply length_map.
  - destruct (filter_userId_unique u (joinedVendors d2)) as [v Hv]; [done | |].
    { apply updatedVendors_member. }
    exists v. split; [done|].
    assert (Hv' : v ∈ filter (fun v => userId v = u) (joinedVendors d2)).
    { rewrite Hv. apply list_elem_of_singleton. done. }
    apply list_elem_of_filter in Hv' as [Hu Hv'].
    by apply (updatedVendors_quantity now2 u q2 (joinedVendors d1)).
Qed.

Lemma joinGroupOrder_twice_replaces_witness :
  exists w1 d1 w2 d2,
    joinGroupOrder 300 "g2" "asha" (number_of_Z 4) sampleWorld = (Resolved (), w1)
    /\ groupOrders w1 !! "g2" = Some d1 /\ NoDup (userIds d1)
    /\ joinGroupOrder 400 "g2" "asha" (number_of_Z 9) w1 = (Resolved (), w2)
    /\ groupOrders w2 !! "g2" = Some d2 /\ NoDup (userIds d2)
    /\ length (joinedVendors d2) = length (joinedVendors d1)
    /\ exists v, filter (fun v => userId v = "asha") (joinedVendors d2) = [v]
                 /\ quantity v = number_of_Z 9.
Proof.
  destruct (joinGroupOrder_twice_replaces sampleWorld "g2" oilOrder) as [_ Htwice].
  - vm_compute. reflexivity.
  - unfold userIds. cbn. apply NoDup_singleton.
  - apply (Htwice eq_refl eq_refl 300 400 "asha" (number_of_Z 4) (number_of_Z 9)).
Defined.

(** ** A join that names no order *)

(** C2, as stated, fails: joining an order that does not exist resolves
    normally; nothing is signalled and nothing is written. *)
Lemma joinGroupOrder_missing_order_resolves :
  reference "g9" = Some {| path := "g9" |}
  /\ groupOrders sampleWorld !! "g9" = None
  /\ joinGroupOrder 300 "g9" "asha" (number_of_Z 1) sampleWorld
     = (Resolved (), sampleWorld)
  /\ (joinGroupOrder 300 "g9" "asha" (number_of_Z 1) sampleWorld).1
     <> Rejected NotFoundError.
Proof.
  assert (Hr : reference "g9" = Some {| path := "g9" |}) by reflexivity.
  assert (Hk : groupOrders sampleWorld !! "g9" = None) by (vm_compute; reflexivity).
  split; [exact Hr|]. split; [exact Hk|].
  rewrite (joinGroupOrder_missing 300 "g9" {| path := "g9" |} "asha" (number_of_Z 1)
             sampleWorld eq_refl Hr Hk).
  split; [reflexivity | discriminate].
Qed.

(** C2, amended.  For an id that references no stored order,
    [joinGroupOrder] never signals a not-found error and never writes.  An
    id that is no well-formed document path (the empty id, for one) is
    refused by [doc] before any request: the call rejects with the client
    library's invalid-argument error and the schedule of the store's answers
    is untouched.  For a well-formed id the call resolves whenever the read
    is answered (leaving the world as it was when the store is reachable) and
    rejects with the store's error when the read fails.  Every rejection is
    logged on the console before it is passed on; a call that resolves logs
    nothing. *)
Theorem joinGroupOrder_missing_order_silent (now : Date) (k u : string)
  (q : number) (w : World) :
  (forall docRef, reference k = Some docRef ->
     groupOrders w !! path docRef = None) ->
  let r := joinGroupOrder now k u q w in
  r.1 <> Rejected NotFoundError
  /\ groupOrders r.2 = groupOrders w
  /\ (reference k = None ->
        r.1 = Rejected InvalidArgument /\ failures r.2 = failures w)
  /\ (reference k <> None ->
        (r.1 = Resolved () \/ r.1 = Rejected StorageError)
        /\ (head (failures w) <> Some true -> r.1 = Resolved ())
        /\ (head (failures w) = Some true -> r.1 = Rejected StorageError)
        /\ (reachable w -> r = (Resolved (), w)))
  /\ (r.1 = Resolved () -> console r.2 = console w)
  /\ (forall e, r.1 = Rejected e ->
        console r.2 = console w ++ ["Error joining group order:"]).
Proof.
  intros Hk r. subst r.
  destruct (reference k) as [docRef|] eqn:Hr.
  - specialize (Hk docRef eq_refl).
    assert (Hrun : reachable w -> joinGroupOrder now k u q w = (Resolved (), w))
      by (intros Hw; by apply (joinGroupOrder_missing now k docRef)).
    destruct w as [m fs c]. cbn [groupOrders] in Hk. revert Hrun.
    unfold joinGroupOrder. unfold_promise. rewrite Hr. simpl_world.
    destruct fs as [|[] fs]; simpl_world; rewrite ?Hk; simpl_world; intros Hrun;
      split_and!; try done; try (by left); try (by right);
      try (intros _; split_and!; try done; try (by left); by right).
  - rewrite joinGroupOrder_malformed by done. simpl_world.
    split_and!; try done.
Qed.

Lemma joinGroupOrder_missing_order_silent_witness :
  (joinGroupOrder 300 "g9" "asha" (number_of_Z 1) sampleWorld).1
    <> Rejected NotFoundError
  /\ groupOrders (joinGroupOrder 300 "g9" "asha" (number_of_Z 1) sampleWorld).2
     = groupOrders sampleWorld
  /\ joinGroupOrder 300 "g9" "asha" (number_of_Z 1) sampleWorld
     = (Resolved (), sampleWorld)
  /\ (joinGroupOrder 300 "" "asha" (number_of_Z 1) sampleWorld).1
     = Rejected InvalidArgument
  /\ console (joinGroupOrder 300 "" "asha" (number_of_Z 1) sampleWorld).2
     = ["Error joining group order:"].
Proof.
  destruct (joinGroupOrder_missing_order_silent 300 "g9" "asha" (number_of_Z 1)
              sampleWorld) as (H1 & H2 & _ & H4 & _).
  { intros docRef Hr. vm_compute in Hr. injection Hr as <-. vm_compute. reflexivity. }
  destruct (joinGroupOrder_missing_order_silent 300 "" "asha" (number_of_Z 1)
              sampleWorld) as (_ & _ & H3 & _ & _ & H6).
  { intros docRef Hr. vm_compute in Hr. discriminate. }
  split; [exact H1|]. split; [exact H2|]. split.
  - destruct H4 as (_ & _ & _ & Hrun); [discriminate|].
    apply Hrun. reflexivity.
  - destruct (H3 eq_refl) as [Hrej _]. split; [exact Hrej|].
    apply (H6 InvalidArgument Hrej).
Defined.

(** ** A join is unconditional *)

Lemma getTimeRemaining_expired env now dl :
  dl <= now -> getTimeRemaining env now dl = t env "expired".
Proof.
  intros H. unfold getTimeRemaining.
  destruct (Z.leb_spec (dl - now) 0) as [_|Hlt]; [done | lia].
Qed.

(** C9. On an existing order (one stored under a plain id) the upsert is
    unconditional: whatever the order's status and deadline and whatever the
    quantity, the join resolves and the user's entry holds the given
    quantity, with status and deadline as they were.  The only gate is in
    the presentation layer: the join button of an order whose deadline is
    over is disabled. *)
Theorem joinGroupOrder_unconditional (env : Env) (now : Date) (k u : string)
  (q : number) (w : World) (d : GroupOrder) :
  reachable w -> groupOrders w !! k = Some d ->
  (plainId k = true ->
   exists w' d',
     joinGroupOrder now k u q w = (Resolved (), w')
     /\ groupOrders w' !! k = Some d'
     /\ u ∈ userIds d'
     /\ (forall v, v ∈ joinedVendors d' -> userId v = u -> quantity v = q)
     /\ status d' = status d /\ deadline d' = deadline d)
  /\ (deadline d <= now ->
      forall user, isUserJoined user d = false ->
      exists b, joinButton env now user d = Some b /\ disabled b = true).
Proof.
  intros Hw Hk. split.
  - intros Hp. eexists _, _. split; [by apply joinGroupOrder_existing|]. simpl_world.
    split; [apply lookup_insert_eq|].
    split; [apply updatedVendors_member|].
    split; [|done].
    intros v Hv Hu. by apply (updatedVendors_quantity now u q (joinedVendors d)).
  - intros Hdl user Hj. unfold joinButton. rewrite Hj.
    rewrite getTimeRemaining_expired by done.
    eexists. split; [done|]. cbn. apply String.eqb_refl.
Qed.

(** The expired order of the sample world (deadline 1000, status [expired])
    takes a join with quantity -5 at time 5000. *)
Lemma joinGroupOrder_unconditional_witness :
  exists w' d',
    joinGroupOrder 5000 "g1" "chitra" (number_of_Z (-5)) sampleWorld
    = (Resolved (), w')
    /\ groupOrders w' !! "g1" = Some d'
    /\ "chitra" ∈ userIds d'
    /\ status d' = expired.
Proof.
  destruct (joinGroupOrder_unconditional plainEnv 5000 "g1" "chitra"
              (number_of_Z (-5)) sampleWorld riceOrder) as [Hjoin _].
  - reflexivity.
  - vm_compute. reflexivity.
  - destruct (Hjoin eq_refl) as (w' & d' & Hrun & Hk' & Hin & _ & Hst & _).
    exists w', d'. split; [exact Hrun|]. split; [exact Hk'|].
    split; [exact Hin | exact Hst].
Defined.

(** ** Listing the active orders *)

Global Instance key_le_total q : Total (key_le q).
Proof. intros a b. unfold key_le. lia. Qed.

Global Instance key_le_trans q : Transitive (key_le q).
Proof. intros a b c. unfold key_le. lia. Qed.

Lemma Status_eqb_eq a b : Status_eqb a b = true <-> a = b.
Proof. destruct a, b; cbn; split; congruence. Qed.

Lemma getDocs_reachable q w :
  reachable w -> getDocs q w = (Resolved (merge_sort (key_le q) (selected q w)), w).
Proof. intros Hw. unfold getDocs, bind. by rewrite request_reachable. Qed.

Lemma getActiveGroupOrders_reachable w :
  reachable w ->
  getActiveGroupOrders w =
    (Resolved (map (fun doc => with_id doc.1 doc.2)
                 (merge_sort (key_le activeByDeadline) (selected activeByDeadline w))),
     w).
Proof.
  intros Hw. unfold getActiveGroupOrders, try_catch, bind at 1.
  by rewrite getDocs_reachable.
Qed.

(** Listing never writes to the collection, whatever the store answers. *)
Lemma getActiveGroupOrders_reads_only w :
  groupOrders (getActiveGroupOrders w).2 = groupOrders w.
Proof.
  destruct w as [m fs c]. unfold getActiveGroupOrders. unfold_promise.
  simpl_world. by destruct fs as [|[] fs].
Qed.

Lemma elem_of_selected q w k d :
  (k, d) ∈ selected q w <->
  groupOrders w !! k = Some d /\ plainId k = true /\ where_ q d = true.
Proof.
  unfold selected. rewrite list_elem_of_filter, elem_of_members. cbn. tauto.
Qed.

Lemma selected_NoDup_keys q w : NoDup (map fst (selected q w)).
Proof.
  apply (NoDup_fmap_2_strong fst).
  - intros [k1 d1] [k2 d2] [H1 _]%elem_of_selected [H2 _]%elem_of_selected.
    cbn. intros <-. congruence.
  - unfold selected. apply NoDup_filter, NoDup_members.
Qed.

Lemma selected_active_length w :
  length (selected activeByDeadline w)
  = size (filter (fun kd => plainId kd.1 = true /\ status kd.2 = active)
            (groupOrders w)).
Proof.
  rewrite <- length_map_to_list, map_filter_alt.
  assert (Hsel : filter (fun kd : string * GroupOrder =>
                           plainId kd.1 = true /\ status kd.2 = active)
                   (map_to_list (groupOrders w)) = selected activeByDeadline w).
  { unfold selected, members. rewrite list_filter_filter.
    apply list_filter_iff. intros [k d]. cbn. rewrite Status_eqb_eq. tauto. }
  rewrite Hsel. rewrite map_to_list_to_map; [done|].
  apply selected_NoDup_keys.
Qed.

Lemma listedOrder_with_id k d : listedOrder k d (with_id k d).
Proof. by repeat split. Qed.

Lemma Forall2_map_self {A B} (R : A -> B -> Prop) (f : A -> B) (l : list A) :
  (forall a, R a (f a)) -> Forall2 R l (map f l).
Proof. intros H. induction l as [|a l IH]; cbn [map]; by constructor. Qed.

(** C5. [getActiveGroupOrders] writes nothing to the collection; and when the
    store answers, it resolves to a list that has one entry for each order of
    the collection whose stored status is [active], and no other entry.  The
    entries stand in ascending order of the stored deadlines, and each one
    carries the stored values of its order (item, price, unit, minimum vendor
    count, members, deadline, status, creation time) together with the
    document id (the documents that [createGroupOrder] writes have no [id]
    field of their own). *)
Theorem getActiveGroupOrders_spec (w : World) :
  groupOrders (getActiveGroupOrders w).2 = groupOrders w
  /\ (reachable w ->
      exists (stored : list (string * GroupOrder)) (orders : list GroupOrder),
        getActiveGroupOrders w = (Resolved orders, w)
        /\ (forall k d, (k, d) ∈ stored <->
              groupOrders w !! k = Some d /\ plainId k = true /\ status d = active)
        /\ NoDup (map fst stored)
        /\ StronglySorted (fun a b => deadline a.2 <= deadline b.2) stored
        /\ Forall2 (fun kd g => listedOrder kd.1 kd.2 g) stored orders
        /\ (forall g, g ∈ orders <->
              exists k d, groupOrders w !! k = Some d /\ plainId k = true
                          /\ status d = active /\ g = with_id k d)
        /\ length orders
           = size (filter (fun kd => plainId kd.1 = true /\ status kd.2 = active)
                     (groupOrders w))
        /\ StronglySorted (fun a b => deadline a <= deadline b) orders
        /\ ((forall k d, groupOrders w !! k = Some d -> id d = None) ->
            NoDup (map id orders))).
Proof.
  split; [apply getActiveGroupOrders_reads_only|].
  intros Hw.
  exists (merge_sort (key_le activeByDeadline) (selected activeByDeadline w)).
  eexists. split; [by apply getActiveGroupOrders_reachable|].
  set (q := activeByDeadline).
  assert (Hperm : merge_sort (key_le q) (selected q w) ≡ₚ selected q w)
    by apply merge_sort_Permutation.
  split_and!.
  - intros k d. rewrite Hperm, elem_of_selected. cbn. by rewrite Status_eqb_eq.
  - rewrite Hperm. apply selected_NoDup_keys.
  - apply (StronglySorted_merge_sort (key_le q)).
  - apply Forall2_map_self. intros [k d]. apply listedOrder_with_id.
  - intros g. rewrite list_elem_of_fmap. split.
    + intros ([k d] & -> & Hin). rewrite Hperm in Hin.
      apply elem_of_selected in Hin as (Hk & Hp & Hst). apply Status_eqb_eq in Hst.
      by exists k, d.
    + intros (k & d & Hk & Hp & Hst & ->). exists (k, d). split; [done|].
      rewrite Hperm. apply elem_of_selected. split_and!; [done..|].
      by apply Status_eqb_eq.
  - rewrite length_map, Hperm. by rewrite selected_active_length.
  - apply (StronglySorted_fmap _ (key_le q)); [by intros [] []|].
    apply StronglySorted_merge_sort; apply _.
  - intros Hnoid.
    replace (map id (map (fun doc => with_id doc.1 doc.2)
                       (merge_sort (key_le q) (selected q w))))
      with (Some <$> (fst <$> merge_sort (key_le q) (selected q w))).
    + apply (NoDup_fmap_2 Some). rewrite Hperm. apply selected_NoDup_keys.
    + rewrite <- list_fmap_compose. symmetry. rewrite map_map.
      apply map_ext_in. intros [k d] Hin. cbn.
      apply list_elem_of_In in Hin. rewrite Hperm in Hin.
      apply elem_of_selected in Hin as [Hk _]. by rewrite (Hnoid k d Hk).
Qed.

Example getActiveGroupOrders_sample :
  getActiveGroupOrders sampleWorld
  = (Resolved [with_id "g3" dalOrder; with_id "g2" oilOrder], sampleWorld).
Proof. vm_compute. reflexivity. Qed.

(** ** Creating an order *)

Lemma createGroupOrder_reachable ts g w :
  reachable w ->
  createGroupOrder ts g w =
    (Resolved (fresh (dom (groupOrders w))),
     {| groupOrders :=
          <[fresh (dom (groupOrders w)) := with_createdAt g ts]> (groupOrders w);
        failures := failures w; console := console w |}).
Proof.
  intros Hw. unfold createGroupOrder, try_catch, bind at 1.
  by rewrite addDoc_reachable.
Qed.

(** Whatever the store answers, a creation either fails with the store's
    error and writes nothing, or adds one document under an unused id. *)
Lemma createGroupOrder_cases ts g w :
  let r := createGroupOrder ts g w in
  (r.1 = Rejected StorageError /\ groupOrders r.2 = groupOrders w)
  \/ (r.1 = Resolved (fresh (dom (groupOrders w)))
      /\ groupOrders r.2 =
           <[fresh (dom (groupOrders w)) := with_createdAt g ts]> (groupOrders w)).
Proof.
  destruct w as [m fs c]. unfold createGroupOrder. unfold_promise. simpl_world.
  destruct fs as [|[] fs]; simpl_world; auto.
Qed.

Lemma loadGroupOrders_reads_only env c w :
  groupOrders (loadGroupOrders env c w).2 = groupOrders w.
Proof.
  unfold loadGroupOrders.
  pose proof (getActiveGroupOrders_reads_only w) as H.
  by destruct (getActiveGroupOrders w) as [[orders|e] w'].
Qed.

Lemma loadGroupOrders_reachable env c w :
  reachable w -> (loadGroupOrders env c w).2 = w.
Proof.
  intros Hw. unfold loadGroupOrders.
  by rewrite getActiveGroupOrders_reachable.
Qed.

Lemma falsy_false s : falsy s = false <-> s <> "".
Proof. unfold falsy. by destruct (String.eqb_spec s ""). Qed.


Lemma handleCreateGroupOrder_reachable env now ts u c w :
  missingRequiredFields (Some u) (Component.formData c) = false ->
  reachable w ->
  (handleCreateGroupOrder env now ts (Some u) c w).2 =
    {| groupOrders :=
         <[fresh (dom (groupOrders w)) :=
             with_createdAt (groupOrderData env now u (Component.formData c)) ts]>
           (groupOrders w);
       failures := failures w; console := console w |}.
Proof.
  intros H Hw. unfold handleCreateGroupOrder. rewrite H.
  rewrite createGroupOrder_reachable by done.
  by rewrite loadGroupOrders_reachable.
Qed.


Lemma validCreationInput_filled env now u fd :
  validCreationInput env now fd -> missingRequiredFields (Some u) fd = false.
Proof.
  intros (H1 & H2 & H3 & H4 & H5 & H6 & _). unfold missingRequiredFields.
  apply falsy_false in H1, H2, H3, H4, H5, H6.
  by rewrite H1, H2, H3, H4, H5, H6.
Qed.


(** C4. For a signed-in user and a valid creation input, with the store
    answering, the submit handler stores one new order under an unused id:
    created by the user, with status [active] and a membership list holding
    exactly the creator with quantity 1, joined at the time of the call; and
    it reports success. *)
Theorem handleCreateGroupOrder_creates_active (env : Env) (now ts : Date)
  (u : User) (c : Component.t) (w : World) :
  reachable w -> validCreationInput env now (Component.formData c) ->
  exists k g,
    groupOrders w !! k = None
    /\ createGroupOrder ts (groupOrderData env now u (Component.formData c)) w
       = (Resolved k,
          {| groupOrders := <[k := g]> (groupOrders w);
             failures := failures w; console := console w |})
    /\ groupOrders (handleCreateGroupOrder env now ts (Some u) c w).2
       = <[k := g]> (groupOrders w)
    /\ status g = active
    /\ joinedVendors g =
         [ {| userId := uid u; quantity := number_of_Z 1; joinedAt := now |} ]
    /\ createdBy g = uid u
    /\ createdAt g = ts
    /\ Component.toasts (handleCreateGroupOrder env now ts (Some u) c w).1
       = Component.toasts c ++ [successToast env "group_order_created_successfully"].
Proof.
  intros Hw Hvalid.
  pose proof (validCreationInput_filled env now u _ Hvalid) as Hfd.
  exists (fresh (dom (groupOrders w))),
    (with_createdAt (groupOrderData env now u (Component.formData c)) ts).
  split; [apply fresh_id_unused|].
  split; [by apply createGroupOrder_reachable|].
  split; [by rewrite handleCreateGroupOrder_reachable|].
  split_and!; try done.
  unfold handleCreateGroupOrder. rewrite Hfd.
  rewrite createGroupOrder_reachable by done.
  unfold loadGroupOrders. by rewrite getActiveGroupOrders_reachable.
Qed.

Lemma handleCreateGroupOrder_creates_active_witness :
  exists k g,
    groupOrders sampleWorld !! k = None
    /\ groupOrders
         (handleCreateGroupOrder plainEnv 1000 1001 (Some {| uid := "chitra" |})
            (freshComponent riceForm) sampleWorld).2
       = <[k := g]> (groupOrders sampleWorld)
    /\ status g = active
    /\ joinedVendors g =
         [ {| userId := "chitra"; quantity := number_of_Z 1; joinedAt := 1000 |} ].
Proof.
  destruct (handleCreateGroupOrder_creates_active plainEnv 1000 1001
              {| uid := "chitra" |}
              (freshComponent riceForm) sampleWorld)
    as (k & g & Hk & _ & Hrun & Hst & Hvs & _).
  - reflexivity.
  - unfold validCreationInput. cbn.
    repeat (split; [first [discriminate | reflexivity]|]). reflexivity.
  - exists k, g. split; [exact Hk|]. split; [exact Hrun|].
    split; [exact Hst | exact Hvs].
Defined.

(** ** Status is never rewritten *)

Lemma sameButMembers_refl d : sameButMembers d d.
Proof. by repeat split. Qed.

Lemma sameButMembers_trans d1 d2 d3 :
  sameButMembers d1 d2 -> sameButMembers d2 d3 -> sameButMembers d1 d3.
Proof. unfold sameButMembers. intuition congruence. Qed.

Lemma perform_frame c w k d :
  groupOrders w !! k = Some d ->
  exists d', groupOrders (perform c w) !! k = Some d' /\ sameButMembers d d'.
Proof.
  intros Hk. destruct c as [ts g|now k' u q|]; cbn [perform].
  - destruct (createGroupOrder_cases ts g w) as [[_ ->]|[_ ->]].
    + eauto using sameButMembers_refl.
    + rewrite lookup_insert_ne; [eauto using sameButMembers_refl|].
      intros Heq. rewrite <- Heq, fresh_id_unused in Hk. done.
  - destruct (joinGroupOrder_cases now k' u q w)
      as [(_ & _ & ->)|[[_ ->]|[(r & _ & _ & _ & ->)|(r & d0 & _ & _ & Hk' & ->)]]];
      [eauto using sameButMembers_refl..|].
    destruct (decide (path r = k)) as [Heq|Hne].
    + rewrite Heq in *. rewrite lookup_insert_eq. eexists; split; [done|].
      assert (d0 = d) as -> by congruence. by repeat split.
    + rewrite lookup_insert_ne by done. eauto using sameButMembers_refl.
  - rewrite getActiveGroupOrders_reads_only. eauto using sameButMembers_refl.
Qed.

Lemma handleCreateGroupOrder_cases env now ts user c w :
  let w' := (handleCreateGroupOrder env now ts user c w).2 in
  groupOrders w' = groupOrders w
  \/ exists u, user = Some u
       /\ groupOrders w' =
            <[fresh (dom (groupOrders w)) :=
                with_createdAt (groupOrderData env now u (Component.formData c)) ts]>
              (groupOrders w).
Proof.
  unfold handleCreateGroupOrder. destruct user as [u|]; [|by left].
  destruct (missingRequiredFields _ _); [by left|].
  pose proof (createGroupOrder_cases ts
                (groupOrderData env now u (Component.formData c)) w) as Hc.
  destruct (createGroupOrder _ _ w) as [[k|e] w1]; cbn [fst snd] in *.
  - rewrite loadGroupOrders_reads_only.
    destruct Hc as [[? _]|[_ ->]]; [done|]. right. eauto.
  - destruct Hc as [[_ ->]|[? _]]; [by left | done].
Qed.

(** C6. No coordinator operation rewrites the status of a stored order.
    Over any sequence of [createGroupOrder], [joinGroupOrder] and
    [getActiveGroupOrders] calls, whatever the store answers, an order that
    is stored stays stored with the status, deadline, minimum vendor count,
    item name, category, target price, unit and creation time it had; a join
    writes the membership list only; listing writes nothing; and an order
    that the creation handler adds has status [active]. *)
Theorem status_never_rewritten (w : World) (k : string) (d : GroupOrder) :
  groupOrders w !! k = Some d ->
  (forall cs : list Call,
     exists d', groupOrders (performAll cs w) !! k = Some d' /\ sameButMembers d d')
  /\ (forall now k' u q,
        exists vs, groupOrders (joinGroupOrder now k' u q w).2 !! k
                   = Some (set_joinedVendors vs d))
  /\ groupOrders (getActiveGroupOrders w).2 = groupOrders w
  /\ (forall env now ts user c k' g,
        groupOrders w !! k' = None ->
        groupOrders (handleCreateGroupOrder env now ts user c w).2 !! k' = Some g ->
        status g = active).
Proof.
  intros Hk. split_and!.
  - intros cs. revert w d Hk. induction cs as [|c cs IH]; intros w d Hk.
    + exists d. split; [done | apply sameButMembers_refl].
    + cbn [performAll fold_left].
      destruct (perform_frame c w k d Hk) as (d1 & Hk1 & H1).
      destruct (IH _ _ Hk1) as (d' & Hk' & H').
      exists d'. split; [done|]. by apply (sameButMembers_trans _ d1).
  - intros now k' u q.
    assert (Hid : set_joinedVendors (joinedVendors d) d = d) by by destruct d.
    destruct (joinGroupOrder_cases now k' u q w)
      as [(_ & _ & ->)|[[_ ->]|[(r & _ & _ & _ & ->)|(r & d0 & _ & _ & Hk' & ->)]]].
    + exists (joinedVendors d). by rewrite Hid.
    + exists (joinedVendors d). by rewrite Hid.
    + exists (joinedVendors d). by rewrite Hid.
    + destruct (decide (path r = k)) as [Heq|Hne].
      * rewrite Heq in *. rewrite lookup_insert_eq.
        assert (d0 = d) as -> by congruence. eauto.
      * rewrite lookup_insert_ne by done. exists (joinedVendors d). by rewrite Hid.
  - apply getActiveGroupOrders_reads_only.
  - intros env now ts user c k' g Hnone.
    destruct (handleCreateGroupOrder_cases env now ts user c w)
      as [->|(u & -> & ->)]; [congruence|].
    destruct (decide (fresh (dom (groupOrders w)) = k')) as [->|Hne].
    + rewrite lookup_insert_eq. by intros [= <-].
    + rewrite lookup_insert_ne by done. congruence.
Qed.

Lemma status_never_rewritten_witness :
  exists d',
    groupOrders
      (performAll
         [ JoinGroupOrder 300 "g2" "asha" (number_of_Z 2);
           CreateGroupOrder 310 lateOrder;
           GetActiveGroupOrders;
           JoinGroupOrder 320 "g2" "chitra" (number_of_Z 5) ]
         sampleWorld) !! "g2" = Some d'
    /\ sameButMembers oilOrder d'.
Proof.
  destruct (status_never_rewritten sampleWorld "g2" oilOrder) as [Hseq _].
  - vm_compute. reflexivity.
  - apply Hseq.
Defined.

(** ** Time remaining *)

Lemma startsWithDigit_app a b :
  startsWithDigit a = true -> startsWithDigit (a +:+ b) = true.
Proof. by destruct a. Qed.

Lemma startsWithDigit_pretty_N_go (n : N) (s : string) :
  (0 < n)%N -> startsWithDigit (pretty_N_go n s) = true.
Proof.
  revert s. induction (N.lt_wf_0 n) as [n _ IH]. intros s Hn.
  rewrite pretty_N_go_step by done.
  destruct (decide (n `div` 10 = 0)%N) as [->|Hq].
  - rewrite pretty_N_go_0. apply isDigit_pretty_N_char.
  - apply IH; [apply N.div_lt; lia | by apply N.neq_0_lt_0].
Qed.

Lemma startsWithDigit_pretty (z : Z) : 0 <= z -> startsWithDigit (pretty z) = true.
Proof.
  intros Hz. destruct z as [|p|p]; [done | | lia].
  change (startsWithDigit (pretty (Npos p)) = true).
  unfold pretty, pretty_N. case_decide; [done|].
  by apply startsWithDigit_pretty_N_go.
Qed.

Ltac dlia := Z.to_euclidean_division_equations; lia.

Ltac use_ms :=
  change msPerDay with 86400000 in *;
  change msPerHour with 3600000 in *;
  change msPerMinute with 60000 in *.

(** C8.  Provided the translation of "expired" does not itself begin with a
    digit, [getTimeRemaining] returns the expired indicator exactly when the
    current time has reached the deadline.  Before the deadline it returns
    days and hours when at least one day remains, hours and minutes when at
    least one hour but less than a day remains, and minutes alone
    otherwise. *)
Theorem getTimeRemaining_spec (env : Env) (now deadline_ : Date) :
  startsWithDigit (t env "expired") = false ->
  (getTimeRemaining env now deadline_ = t env "expired" <-> deadline_ <= now)
  /\ (now < deadline_ ->
      let timeLeft := deadline_ - now in
      let days := timeLeft / msPerDay in
      let hours := (timeLeft `mod` msPerDay) / msPerHour in
      let minutes := (timeLeft `mod` msPerHour) / msPerMinute in
      0 <= hours < 24 /\ 0 <= minutes < 60
      /\ getTimeRemaining env now deadline_ =
           if decide (msPerDay <= timeLeft)
           then pretty days +:+ "d " +:+ pretty hours +:+ "h"
           else if decide (msPerHour <= timeLeft)
                then pretty hours +:+ "h " +:+ pretty minutes +:+ "m"
                else pretty minutes +:+ "m").
Proof.
  intros Ht.
  assert (Hfmt : now < deadline_ ->
    getTimeRemaining env now deadline_ =
      if decide (msPerDay <= deadline_ - now)
      then pretty ((deadline_ - now) / msPerDay) +:+ "d "
           +:+ pretty (((deadline_ - now) `mod` msPerDay) / msPerHour) +:+ "h"
      else if decide (msPerHour <= deadline_ - now)
           then pretty (((deadline_ - now) `mod` msPerDay) / msPerHour) +:+ "h "
                +:+ pretty (((deadline_ - now) `mod` msPerHour) / msPerMinute) +:+ "m"
           else pretty (((deadline_ - now) `mod` msPerHour) / msPerMinute) +:+ "m").
  { intros Hlt. unfold getTimeRemaining.
    destruct (Z.leb_spec (deadline_ - now) 0) as [?|_]; [lia|].
    rewrite !Z.rem_mod_nonneg by (use_ms; dlia).
    rewrite !Z.gtb_ltb. use_ms.
    case_decide as Hd.
    { rewrite (proj2 (Z.ltb_lt 0 _)) by dlia. done. }
    rewrite (proj2 (Z.ltb_ge 0 ((deadline_ - now) / _))) by dlia.
    case_decide as Hh.
    { rewrite (proj2 (Z.ltb_lt 0 _)) by dlia. done. }
    rewrite (proj2 (Z.ltb_ge 0 _)) by dlia. done. }
  split.
  - split.
    + intros Heq. destruct (Z.le_gt_cases deadline_ now) as [|Hlt]; [done|].
      exfalso. rewrite Hfmt in Heq by done.
      assert (startsWithDigit (t env "expired") = true); [|congruence].
      rewrite <- Heq.
      repeat case_decide; apply startsWithDigit_app, startsWithDigit_pretty;
        use_ms; dlia.
    + apply getTimeRemaining_expired.
  - intros Hlt. cbv zeta. split_and!; [use_ms; dlia .. | by apply Hfmt].
Qed.

Lemma getTimeRemaining_spec_witness :
  (getTimeRemaining plainEnv 1000 1000 = "expired" <-> 1000 <= 1000)
  /\ getTimeRemaining plainEnv 0 90061000 = "1d 1h"
  /\ getTimeRemaining plainEnv 0 3725000 = "1h 2m"
  /\ getTimeRemaining plainEnv 0 59000 = "0m".
Proof.
  split; [apply (getTimeRemaining_spec plainEnv 1000 1000); reflexivity|].
  split_and!.
  - destruct (getTimeRemaining_spec plainEnv 0 90061000) as [_ H]; [reflexivity|].
    destruct H as (_ & _ & ->); [lia|]. vm_compute. reflexivity.
  - destruct (getTimeRemaining_spec plainEnv 0 3725000) as [_ H]; [reflexivity|].
    destruct H as (_ & _ & ->); [lia|]. vm_compute. reflexivity.
  - destruct (getTimeRemaining_spec plainEnv 0 59000) as [_ H]; [reflexivity|].
    destruct H as (_ & _ & ->); [lia|]. vm_compute. reflexivity.
Defined.

(** ** Progress percentage *)

Lemma number_of_Z_100 : number_of_Z 100 = hundred.
Proof. vm_compute. reflexivity. Qed.

Lemma SFcompare_swap (x y : number) :
  SFcompare y x = option_map CompOpp (SFcompare x y).
Proof.
  destruct x as [[]|[]| |[] mx ex], y as [[]|[]| |[] my ey]; cbn; try reflexivity.
  - rewrite (Z.compare_antisym ex ey).
    pose proof (Pos.compare_cont_antisym mx my Eq) as Hm. cbn in Hm.
    destruct (Z.compare ex ey); cbn; try reflexivity.
    by rewrite <- Hm, CompOpp_involutive.
  - rewrite (Z.compare_antisym ex ey).
    pose proof (Pos.compare_cont_antisym mx my Eq) as Hm. cbn in Hm.
    destruct (Z.compare ex ey); cbn; try reflexivity.
    by rewrite <- Hm.
Qed.

(** [Math.min(p, 100) > 100] is false for every [p], NaN included. *)
Lemma Math_min_not_above (p : number) : SFltb hundred (Math_min p hundred) = false.
Proof.
  unfold Math_min. destruct (SFcompare p hundred) as [[]|] eqn:Hc; try reflexivity.
  - by destruct p as [[]|[]| |[] m e].
  - unfold SFltb. rewrite (SFcompare_swap p hundred), Hc. reflexivity.
Qed.

Lemma Math_min_below (p : number) :
  p <> S754_nan -> SFleb (Math_min p hundred) hundred = true.
Proof.
  intros Hp. unfold Math_min.
  destruct (SFcompare p hundred) as [[]|] eqn:Hc.
  - by destruct p as [[]|[]| |[] m e].
  - unfold SFleb. by rewrite Hc.
  - reflexivity.
  - by destruct p as [[]|[]| |[] m e].
Qed.

(** Rounding a non-negative mantissa never produces NaN. *)
Lemma shr_1_nonneg mrs : nonneg_record mrs -> nonneg_record (shr_1 mrs).
Proof.
  unfold nonneg_record. destruct mrs as [[|[p|p|]|[p|p|]] r s]; cbn; lia.
Qed.

Lemma iter_pos_nonneg (n : positive) mrs :
  nonneg_record mrs -> nonneg_record (SpecFloat.iter_pos shr_1 n mrs).
Proof.
  revert mrs. induction n as [n IH|n IH|]; intros mrs H; cbn;
    auto using shr_1_nonneg.
Qed.

Lemma shr_fexp_nonneg m e l :
  0 <= m -> nonneg_record (shr_fexp prec emax m e l).1.
Proof.
  intros Hm. unfold shr_fexp, shr.
  assert (H0 : nonneg_record (shr_record_of_loc m l)).
  { unfold nonneg_record. by destruct l as [|[]]. }
  destruct (fexp prec emax (Zdigits2 m + e) - e); cbn [fst];
    auto using iter_pos_nonneg.
Qed.

Lemma round_nearest_even_nonneg m l : 0 <= m -> 0 <= round_nearest_even m l.
Proof.
  intros Hm. unfold round_nearest_even.
  destruct l as [|[]]; try done; [destruct (Z.even m)|]; lia.
Qed.

Lemma binary_round_aux_not_nan s m e l :
  0 <= m -> binary_round_aux prec emax s m e l <> S754_nan.
Proof.
  intros Hm. unfold binary_round_aux.
  pose proof (shr_fexp_nonneg m e l Hm) as H1.
  destruct (shr_fexp prec emax m e l) as [mrs' e']. cbn [fst] in H1.
  pose proof (shr_fexp_nonneg
                (round_nearest_even (shr_m mrs') (loc_of_shr_record mrs')) e'
                loc_Exact (round_nearest_even_nonneg _ _ H1)) as H2.
  destruct (shr_fexp prec emax _ e' loc_Exact) as [mrs'' e'']. cbn [fst] in H2.
  unfold nonneg_record in H2.
  destruct (shr_m mrs'') as [|p|p]; [done | | lia].
  by destruct (e'' <=? emax - prec).
Qed.

Lemma Number_div_not_nan (x y : number) :
  SFleb (number_of_Z 0) x = true -> is_finite x = true ->
  SFleb (number_of_Z 1) y = true ->
  Number_div x y <> S754_nan.
Proof.
  intros Hx Hfin Hy.
  destruct x as [sx|sx| |sx mx ex]; try discriminate;
    destruct y as [sy|[]| |[] my ey]; try discriminate; try done.
  unfold Number_div, SFdiv.
  destruct (SFdiv_core_binary prec emax (Z.pos mx) ex (Z.pos my) ey)
    as [[mz ez] lz] eqn:Hcore.
  apply binary_round_aux_not_nan.
  unfold SFdiv_core_binary in Hcore.
  set (m' := match _ - _ - _ with Z.pos _ => _ | _ => _ end) in Hcore.
  assert (Hm' : 0 <= m').
  { subst m'. destruct (_ - _ - _); [lia | | lia].
    rewrite Z.shiftl_mul_pow2 by lia. lia. }
  pose proof (Z.div_pos m' (Z.pos my) Hm' ltac:(lia)) as Hq.
  unfold Z.div in Hq. destruct (Z.div_eucl m' (Z.pos my)) as [q r].
  by injection Hcore as <- _ _.
Qed.

Lemma Number_mul_hundred_not_nan (p : number) :
  p <> S754_nan -> Number_mul p hundred <> S754_nan.
Proof.
  intros Hp. destruct p as [s|s| |s m e]; try done.
  unfold Number_mul, SFmul, hundred. by apply binary_round_aux_not_nan.
Qed.

(** Below the cap [Math.min] returns its first argument. *)
Lemma Math_min_lt (p : number) : SFltb p hundred = true -> Math_min p hundred = p.
Proof.
  unfold SFltb, Math_min. by destruct (SFcompare p hundred) as [[]|].
Qed.

(** At the cap and above it [Math.min] returns the cap. *)
Lemma Math_min_ge (p : number) :
  SFleb hundred p = true -> Math_min p hundred = hundred.
Proof.
  unfold SFleb, Math_min. rewrite (SFcompare_swap hundred p).
  destruct (SFcompare hundred p) as [[]|] eqn:Hc; cbn; try done.
  by destruct p as [[]|[]| |[] m e].
Qed.

(** C7.  For a member count of at least 0 and a minimum of at least 1, take
    the count divided by the minimum, times 100 (in double arithmetic).
    [getProgressPercentage] returns that percentage itself when it is below
    100, and 100 when it is 100 or more; so the result never exceeds 100,
    and for a finite count it is a number (not NaN) that is at most 100. *)
Theorem getProgressPercentage_capped (memberCount minVendors_ : number) :
  SFleb (number_of_Z 0) memberCount = true ->
  SFleb (number_of_Z 1) minVendors_ = true ->
  let percentage :=
    Number_mul (Number_div memberCount minVendors_) (number_of_Z 100) in
  (SFltb percentage (number_of_Z 100) = true ->
     getProgressPercentage memberCount minVendors_ = percentage)
  /\ (SFleb (number_of_Z 100) percentage = true ->
       getProgressPercentage memberCount minVendors_ = number_of_Z 100)
  /\ SFltb (number_of_Z 100) (getProgressPercentage memberCount minVendors_) = false
  /\ (is_finite memberCount = true ->
       percentage <> S754_nan
       /\ (SFltb percentage (number_of_Z 100) = true
            \/ SFleb (number_of_Z 100) percentage = true)
       /\ SFleb (getProgressPercentage memberCount minVendors_) (number_of_Z 100)
          = true).
Proof.
  intros Hx Hy. cbv zeta. unfold getProgressPercentage.
  rewrite number_of_Z_100.
  split; [apply Math_min_lt|]. split; [apply Math_min_ge|].
  split; [apply Math_min_not_above|].
  intros Hfin.
  assert (Hp : Number_mul (Number_div memberCount minVendors_) hundred <> S754_nan)
    by by apply Number_mul_hundred_not_nan, Number_div_not_nan.
  split; [done|]. split; [|by apply Math_min_below].
  unfold SFltb, SFleb. rewrite (SFcompare_swap _ hundred).
  destruct (SFcompare _ hundred) as [[]|] eqn:Hc; cbn; auto.
  exfalso. apply Hp.
  destruct (Number_mul _ hundred) as [[]|[]| |[] m e]; done.
Qed.

(** One member of two wanted is 50 percent, one of three a third of 100
    (rounded to the nearest double), three of four 75; three of three and
    five of three are both 100. *)
Lemma getProgressPercentage_capped_witness :
  getProgressPercentage (number_of_Z 1) (number_of_Z 2) = number_of_Z 50
  /\ getProgressPercentage (number_of_Z 1) (number_of_Z 3)
     = S754_finite false 4691249611844266 (-47)
  /\ getProgressPercentage (number_of_Z 3) (number_of_Z 4) = number_of_Z 75
  /\ getProgressPercentage (number_of_Z 3) (number_of_Z 3) = number_of_Z 100
  /\ getProgressPercentage (number_of_Z 5) (number_of_Z 3) = number_of_Z 100
  /\ SFltb (number_of_Z 100) (getProgressPercentage (number_of_Z 5) (number_of_Z 3))
     = false.
Proof.
  split_and!.
  - destruct (getProgressPercentage_capped (number_of_Z 1) (number_of_Z 2))
      as (Hbelow & _); [reflexivity..|].
    rewrite Hbelow; vm_compute; reflexivity.
  - destruct (getProgressPercentage_capped (number_of_Z 1) (number_of_Z 3))
      as (Hbelow & _); [reflexivity..|].
    rewrite Hbelow; vm_compute; reflexivity.
  - destruct (getProgressPercentage_capped (number_of_Z 3) (number_of_Z 4))
      as (Hbelow & _); [reflexivity..|].
    rewrite Hbelow; vm_compute; reflexivity.
  - destruct (getProgressPercentage_capped (number_of_Z 3) (number_of_Z 3))
      as (_ & Hcap & _); [reflexivity..|].
    apply Hcap. vm_compute. reflexivity.
  - destruct (getProgressPercentage_capped (number_of_Z 5) (number_of_Z 3))
      as (_ & Hcap & _); [reflexivity..|].
    apply Hcap. vm_compute. reflexivity.
  - destruct (getProgressPercentage_capped (number_of_Z 5) (number_of_Z 3))
      as (_ & _ & Hnot & _); [reflexivity..|].
    exact Hnot.
Defined.

(** ** The scenarios of the specification, run on the model *)

(** An order for three vendors is created, and two more users join with
    quantity 2 each: three members, total quantity 5, progress 100. *)
Example scenario_three_vendors :
  let w1 := (handleCreateGroupOrder plainEnv 0 0 (Some {| uid := "chitra" |})
               (freshComponent riceForm) emptyWorld).2 in
  let w2 := (joinGroupOrder 10 "0" "asha" (number_of_Z 2) w1).2 in
  let w3 := (joinGroupOrder 20 "0" "bala" (number_of_Z 2) w2).2 in
  exists g,
    groupOrders w3 !! "0" = Some g
    /\ length (joinedVendors g) = 3%nat
    /\ getTotalQuantity g = number_of_Z 5
    /\ getProgressPercentage (number_of_Z (Z.of_nat (length (joinedVendors g))))
         (minVendors g) = number_of_Z 100.
Proof.
  cbv zeta. eexists. split; [vm_compute; reflexivity|].
  vm_compute. repeat split.
Qed.

(** An order whose deadline is 30 seconds away shows as expired 31 seconds
    later, and not one second before the deadline. *)
Example scenario_deadline_passes :
  getTimeRemaining plainEnv 31000 30000 = "expired"
  /\ getTimeRemaining plainEnv 29000 30000 = "0m".
Proof. vm_compute. split; reflexivity. Qed.

(** * Further properties of the group-order code *)

(** ** Joining again, and what a join never does *)

Lemma with_quantity_same v : with_quantity (quantity v) v = v.
Proof. by destruct v. Qed.

Lemma updatedVendors_again now1 now2 u q vs :
  updatedVendors now2 u q (updatedVendors now1 u q vs) = updatedVendors now1 u q vs.
Proof.
  rewrite (updatedVendors_present now2) by apply updatedVendors_member.
  rewrite <- (map_id (updatedVendors now1 u q vs)) at 2.
  apply map_ext_in. intros v Hv%list_elem_of_In.
  destruct (String.eqb_spec (userId v) u) as [Hu|_]; [|done].
  rewrite <- (updatedVendors_quantity now1 u q vs v Hv Hu).
  apply with_quantity_same.
Qed.

(** X1. Joining is idempotent: on an order stored under a plain id,
    repeating a join with the same user and quantity resolves again and
    leaves the world exactly as the first join left it, whatever the time of
    the second call. *)
Theorem joinGroupOrder_idempotent (now1 now2 : Date) (k u : string) (q : number)
  (w : World) (d : GroupOrder) :
  reachable w -> plainId k = true -> groupOrders w !! k = Some d ->
  joinGroupOrder now2 k u q (joinGroupOrder now1 k u q w).2
  = (Resolved (), (joinGroupOrder now1 k u q w).2).
Proof.
  intros Hw Hp Hk. rewrite (joinGroupOrder_existing now1 k u q w d Hw Hp Hk).
  cbn [snd].
  erewrite joinGroupOrder_existing; [|done|done|apply lookup_insert_eq].
  simpl_world. rewrite insert_insert_eq.
  cbn [set_joinedVendors joinedVendors]. by rewrite updatedVendors_again.
Qed.

Lemma joinGroupOrder_idempotent_witness :
  joinGroupOrder 400 "g2" "asha" (number_of_Z 4)
    (joinGroupOrder 300 "g2" "asha" (number_of_Z 4) sampleWorld).2
  = (Resolved (), (joinGroupOrder 300 "g2" "asha" (number_of_Z 4) sampleWorld).2).
Proof.
  apply (joinGroupOrder_idempotent 300 400 "g2" "asha" (number_of_Z 4)
           sampleWorld oilOrder).
  - reflexivity.
  - reflexivity.
  - vm_compute. reflexivity.
Defined.

Lemma updatedVendors_stamps now u q vs :
  map (fun v => (userId v, joinedAt v)) (updatedVendors now u q vs)
  = if decide (u ∈ map userId vs)
    then map (fun v => (userId v, joinedAt v)) vs
    else map (fun v => (userId v, joinedAt v)) vs ++ [(u, now)].
Proof.
  case_decide as Hin.
  - rewrite updatedVendors_present by done. rewrite map_map.
    apply map_ext. intros v. by destruct (String.eqb _ _).
  - rewrite updatedVendors_absent by done. by rewrite map_app.
Qed.

Lemma perform_members c w k d :
  groupOrders w !! k = Some d ->
  exists d', groupOrders (perform c w) !! k = Some d'
             /\ memberStamps d `prefix_of` memberStamps d'.
Proof.
  intros Hk. destruct c as [ts g|now k' u q|]; cbn [perform].
  - destruct (createGroupOrder_cases ts g w) as [[_ ->]|[_ ->]]; [by eauto|].
    rewrite lookup_insert_ne; [by eauto|].
    intros Heq. rewrite <- Heq, fresh_id_unused in Hk. done.
  - destruct (joinGroupOrder_cases now k' u q w)
      as [(_ & _ & ->)|[[_ ->]|[(r & _ & _ & _ & ->)|(r & d0 & _ & _ & Hk' & ->)]]];
      [by eauto..|].
    destruct (decide (path r = k)) as [Heq|Hne].
    + rewrite Heq in *. rewrite lookup_insert_eq. eexists; split; [done|].
      assert (d0 = d) as -> by congruence.
      unfold memberStamps. cbn [joinedVendors set_joinedVendors].
      rewrite updatedVendors_stamps. case_decide; [done|].
      by apply prefix_app_r.
    + rewrite lookup_insert_ne by done. eauto.
  - rewrite getActiveGroupOrders_reads_only. eauto.
Qed.

(** X2. Between calls that do not overlap, membership only grows.  Over any
    sequence of calls of the three operations that run one after the other,
    each completed before the next begins ([performAll]), and whatever the
    store answers, the members of a stored order and their join times stay
    as they are, in the same order, with new members only added behind them.
    (Calls that overlap are outside this statement: a join reads the list
    and writes it back in two requests.) *)
Theorem membership_only_grows (w : World) (k : string) (d : GroupOrder)
  (cs : list Call) :
  groupOrders w !! k = Some d ->
  exists d',
    groupOrders (performAll cs w) !! k = Some d'
    /\ memberStamps d `prefix_of` memberStamps d'
    /\ (length (joinedVendors d) <= length (joinedVendors d'))%nat.
Proof.
  revert w d. induction cs as [|c cs IH]; intros w d Hk.
  - exists d. by split_and!.
  - cbn [performAll fold_left].
    destruct (perform_members c w k d Hk) as (d1 & Hk1 & H1).
    destruct (IH _ _ Hk1) as (d' & Hk' & H' & _).
    exists d'. split; [done|].
    assert (Hpre : memberStamps d `prefix_of` memberStamps d')
      by by etrans.
    split; [done|].
    apply prefix_length in Hpre. unfold memberStamps in Hpre.
    by rewrite !length_map in Hpre.
Qed.

Lemma membership_only_grows_witness :
  exists d',
    groupOrders
      (performAll
         [ JoinGroupOrder 300 "g1" "bala" (number_of_Z 9);
           JoinGroupOrder 310 "g1" "chitra" (number_of_Z 1);
           GetActiveGroupOrders ]
         sampleWorld) !! "g1" = Some d'
    /\ memberStamps riceOrder `prefix_of` memberStamps d'.
Proof.
  destruct (membership_only_grows sampleWorld "g1" riceOrder
              [ JoinGroupOrder 300 "g1" "bala" (number_of_Z 9);
                JoinGroupOrder 310 "g1" "chitra" (number_of_Z 1);
                GetActiveGroupOrders ])
    as (d' & Hk & Hpre & _).
  - vm_compute. reflexivity.
  - exists d'. split; [exact Hk | exact Hpre].
Defined.

(** [joinGroupOrder] is its two steps run one after the other, inside the
    [try]. *)
Lemma joinGroupOrder_steps now k u q w :
  joinGroupOrder now k u q w
  = try_catch
      (await read <- joinSnapshot k;; joinUpdate now u q read)
      (fun error =>
         await _ <- console_error "Error joining group order:";;
         throw error) w.
Proof.
  destruct w as [m fs c]. unfold joinGroupOrder, joinSnapshot, joinUpdate.
  unfold_promise. destruct (reference k) as [docRef|]; [|done]. simpl_world.
  destruct fs as [|[] fs]; simpl_world; try done.
Qed.

Lemma joinSnapshot_reachable k w :
  reachable w -> plainId k = true ->
  joinSnapshot k w = (Resolved ({| path := k |}, groupOrders w !! k), w).
Proof.
  intros Hw Hp. unfold joinSnapshot, bind at 1.
  rewrite (doc_reference k {| path := k |}) by by apply reference_plainId.
  unfold bind at 1. by rewrite getDoc_reachable.
Qed.

(** X28. Joins that overlap can lose a member.  [joinGroupOrder] is a read
    followed by a write computed from that read.  When two users who are
    not members join the same order and both reads are answered before
    either write, both calls resolve, but the second write puts back the
    list that its own read saw with only the second user added: the first
    user, a member after the first write, is not a member afterwards. *)
Theorem overlapping_joins_lose_a_member (now1 now2 : Date) (k u1 u2 : string)
  (q1 q2 : number) (w : World) (d : GroupOrder) :
  reachable w -> plainId k = true -> groupOrders w !! k = Some d ->
  u1 ∉ userIds d -> u1 <> u2 ->
  (forall now u q w0,
     joinGroupOrder now k u q w0
     = try_catch
         (await read <- joinSnapshot k;; joinUpdate now u q read)
         (fun error =>
            await _ <- console_error "Error joining group order:";;
            throw error) w0)
  /\ exists read1 read2 w1 w2 d1 d2,
    joinSnapshot k w = (Resolved read1, w)
    /\ joinSnapshot k w = (Resolved read2, w)
    /\ joinUpdate now1 u1 q1 read1 w = (Resolved (), w1)
    /\ joinUpdate now2 u2 q2 read2 w1 = (Resolved (), w2)
    /\ groupOrders w1 !! k = Some d1 /\ u1 ∈ userIds d1
    /\ groupOrders w2 !! k = Some d2 /\ (u1 ∉ userIds d2)
    /\ joinedVendors d2 = updatedVendors now2 u2 q2 (joinedVendors d).
Proof.
  intros Hw Hp Hk Hu1 Hne.
  split; [intros now u q w0; apply joinGroupOrder_steps|].
  eexists _, _, _, _, _, _.
  split; [by apply joinSnapshot_reachable|].
  split; [by apply joinSnapshot_reachable|].
  unfold joinUpdate. cbn [fst snd]. rewrite Hk.
  split; [by apply (updateDoc_reachable {| path := k |} _ d)|].
  split.
  { apply (updateDoc_reachable {| path := k |}); [done|]. cbn [path groupOrders].
    apply lookup_insert_eq. }
  cbn [path groupOrders]. rewrite insert_insert_eq, !lookup_insert_eq.
  split; [done|]. split; [apply updatedVendors_member|].
  split; [done|]. split; [|done].
  unfold userIds. cbn [joinedVendors set_joinedVendors].
  rewrite updatedVendors_userIds. fold (userIds d).
  case_decide; [done|].
  rewrite not_elem_of_app, list_elem_of_singleton. done.
Qed.

Lemma overlapping_joins_lose_a_member_witness :
  exists (read1 read2 : DocumentReference * option GroupOrder) (w1 w2 : World)
         (d2 : GroupOrder),
    joinSnapshot "g2" sampleWorld = (Resolved read1, sampleWorld)
    /\ joinSnapshot "g2" sampleWorld = (Resolved read2, sampleWorld)
    /\ joinUpdate 300 "asha" (number_of_Z 2) read1 sampleWorld = (Resolved (), w1)
    /\ joinUpdate 301 "chitra" (number_of_Z 3) read2 w1 = (Resolved (), w2)
    /\ groupOrders w2 !! "g2" = Some d2
    /\ "asha" ∉ userIds d2.
Proof.
  destruct (overlapping_joins_lose_a_member 300 301 "g2" "asha" "chitra"
              (number_of_Z 2) (number_of_Z 3) sampleWorld oilOrder)
    as (_ & read1 & read2 & w1 & w2 & d1 & d2
        & H1 & H2 & H3 & H4 & _ & _ & H5 & H6 & _).
  - reflexivity.
  - reflexivity.
  - vm_compute. reflexivity.
  - unfold userIds. cbn. intros Hin. apply list_elem_of_singleton in Hin.
    discriminate.
  - discriminate.
  - exists read1, read2, w1, w2, d2. by split_and!.
Defined.

(** ** Errors are logged and passed on *)

(** X3. None of the three operations swallows an error or logs without one.
    A call rejects when the store fails one of its requests (the read of a
    join, or its write to an existing order; the write of a creation; the
    query of a listing), and a join also when [doc] refuses its id; a call
    that rejects has appended exactly its own message to the console, and a
    call that resolves has left the console as it was. *)
Theorem rejections_are_logged (w : World) :
  (forall now k u q,
     let r := joinGroupOrder now k u q w in
     match r.1 with
     | Resolved _ => console r.2 = console w
     | Rejected _ => console r.2 = console w ++ ["Error joining group order:"]
     end
     /\ (reference k = None -> r.1 = Rejected InvalidArgument)
     /\ (reference k <> None -> head (failures w) = Some true ->
           r.1 = Rejected StorageError)
     /\ (forall docRef d,
           reference k = Some docRef -> groupOrders w !! path docRef = Some d ->
           head (failures w) = Some false ->
           head (tail (failures w)) = Some true ->
           r.1 = Rejected StorageError))
  /\ (forall ts g,
        let r := createGroupOrder ts g w in
        match r.1 with
        | Resolved _ => console r.2 = console w
        | Rejected _ => console r.2 = console w ++ ["Error creating group order:"]
        end
        /\ (head (failures w) = Some true -> r.1 = Rejected StorageError)
        /\ (head (failures w) <> Some true -> exists k, r.1 = Resolved k))
  /\ (let r := getActiveGroupOrders w in
      match r.1 with
      | Resolved _ => console r.2 = console w
      | Rejected _ => console r.2 = console w ++ ["Error getting active group orders:"]
      end
      /\ (head (failures w) = Some true -> r.1 = Rejected StorageError)
      /\ (head (failures w) <> Some true -> exists orders, r.1 = Resolved orders)).
Proof.
  destruct w as [m fs c]. split_and!.
  - intros now k u q. cbv zeta. simpl_world.
    destruct (reference k) as [docRef|] eqn:Hr.
    + unfold joinGroupOrder. unfold_promise. rewrite Hr. simpl_world.
      split_and!.
      * destruct fs as [|[] [|[] fs]]; simpl_world; try done;
          destruct (m !! path docRef) as [d|] eqn:Hk; simpl_world; rewrite ?Hk; done.
      * done.
      * intros _ Hf. by destruct fs as [|[] fs].
      * intros r d [= <-] Hk Hf1 Hf2. destruct fs as [|[] [|[] fs]]; try done.
        simpl_world. rewrite ?Hk. simpl_world. by rewrite ?Hk.
    + rewrite joinGroupOrder_malformed by done. simpl_world. by split_and!.
  - intros ts g. unfold createGroupOrder. unfold_promise. simpl_world.
    destruct fs as [|[] fs]; simpl_world; split_and!; try done; eauto.
  - unfold getActiveGroupOrders. unfold_promise. simpl_world.
    destruct fs as [|[] fs]; simpl_world; split_and!; try done; eauto.
Qed.

(** ** What the component shows after a join or a creation *)

Lemma activeListing w :
  reachable w ->
  exists orders,
    getActiveGroupOrders w = (Resolved orders, w)
    /\ forall g, g ∈ orders <->
         exists k d, groupOrders w !! k = Some d /\ plainId k = true
                     /\ status d = active /\ g = with_id k d.
Proof.
  intros Hw. eexists. split; [by apply getActiveGroupOrders_reachable|].
  intros g. rewrite list_elem_of_fmap. split.
  - intros ([k d] & -> & Hin). rewrite merge_sort_Permutation in Hin.
    apply elem_of_selected in Hin as (Hk & Hp & Hst). apply Status_eqb_eq in Hst.
    by exists k, d.
  - intros (k & d & Hk & Hp & Hst & ->). exists (k, d). split; [done|].
    rewrite merge_sort_Permutation. apply elem_of_selected. split_and!; [done..|].
    by apply Status_eqb_eq.
Qed.

Lemma isUserJoined_member u g :
  isUserJoined (Some u) g = true <-> uid u ∈ userIds g.
Proof.
  unfold isUserJoined, userIds. rewrite existsb_exists, list_elem_of_fmap.
  split.
  - intros (v & Hv%list_elem_of_In & Hu%String.eqb_eq). eauto.
  - intros (v & -> & Hv%list_elem_of_In). exists v. split; [done|].
    apply String.eqb_refl.
Qed.

(** X4. After a signed-in user joins an existing active order (stored under
    a plain id) through the handler, with the store answering, the component
    reports success and its refreshed list holds that order with the user
    among its members, so that no join button is rendered for it any more. *)
Theorem handleJoinGroupOrder_shows_membership (env : Env) (now : Date) (u : User)
  (k : string) (q : number) (c : Component.t) (w : World) (d : GroupOrder) :
  reachable w -> plainId k = true -> groupOrders w !! k = Some d ->
  status d = active ->
  let r := handleJoinGroupOrder env now (Some u) k q c w in
  Component.toasts r.1
  = Component.toasts c ++ [successToast env "joined_group_order_successfully"]
  /\ Component.loading r.1 = false
  /\ exists g,
       g ∈ Component.groupOrders r.1
       /\ joinedVendors g = updatedVendors now (uid u) q (joinedVendors d)
       /\ isUserJoined (Some u) g = true
       /\ forall now', joinButton env now' (Some u) g = None.
Proof.
  intros Hw Hp Hk Hst r. subst r. unfold handleJoinGroupOrder.
  rewrite (joinGroupOrder_existing now k (uid u) q w d Hw Hp Hk).
  set (d' := set_joinedVendors (updatedVendors now (uid u) q (joinedVendors d)) d).
  set (w' := {| groupOrders := <[k := d']> (groupOrders w);
                failures := failures w; console := console w |}).
  destruct (activeListing w' Hw) as (orders & Hlist & Hin).
  unfold loadGroupOrders. rewrite Hlist. cbn [fst snd].
  split; [done|]. split; [done|].
  exists (with_id k d'). cbn [setLoading setGroupOrders Component.groupOrders].
  assert (Hj : isUserJoined (Some u) (with_id k d') = true).
  { apply isUserJoined_member. apply updatedVendors_member. }
  split.
  { apply Hin. exists k, d'. split; [apply lookup_insert_eq | done]. }
  split; [done|]. split; [done|].
  intros now'. unfold joinButton. by rewrite Hj.
Qed.

Lemma handleJoinGroupOrder_shows_membership_witness :
  exists g,
    g ∈ Component.groupOrders
          (handleJoinGroupOrder plainEnv 300 (Some {| uid := "asha" |}) "g2"
             (number_of_Z 1) (freshComponent emptyForm) sampleWorld).1
    /\ isUserJoined (Some {| uid := "asha" |}) g = true.
Proof.
  destruct (handleJoinGroupOrder_shows_membership plainEnv 300 {| uid := "asha" |}
              "g2" (number_of_Z 1) (freshComponent emptyForm) sampleWorld oilOrder)
    as (_ & _ & g & Hg & _ & Hj & _).
  - reflexivity.
  - reflexivity.
  - vm_compute. reflexivity.
  - reflexivity.
  - exists g. split; [exact Hg | exact Hj].
Defined.

(** X5. Joining an order that does not exist is reported as a success: with
    the store answering and an id that is a well-formed document path but
    names no stored order, the handler raises the success toast although
    nothing has been written.  An id that is no document path is refused by
    [doc]: then the handler raises the failure toast, and again nothing is
    written. *)
Theorem handleJoinGroupOrder_missing_order (env : Env) (now : Date) (u : User)
  (k : string) (q : number) (c : Component.t) (w : World) :
  reachable w ->
  (forall docRef, reference k = Some docRef ->
     groupOrders w !! path docRef = None) ->
  let r := handleJoinGroupOrder env now (Some u) k q c w in
  groupOrders r.2 = groupOrders w
  /\ (reference k <> None ->
        r.2 = w
        /\ Component.toasts r.1
           = Component.toasts c
               ++ [successToast env "joined_group_order_successfully"])
  /\ (reference k = None ->
        console r.2 = console w ++ ["Error joining group order:"]
        /\ Component.toasts r.1
           = Component.toasts c ++ [errorToast env "failed_to_join_group_order"]).
Proof.
  intros Hw Hk r. subst r. unfold handleJoinGroupOrder.
  destruct (reference k) as [docRef|] eqn:Hr.
  - rewrite (joinGroupOrder_missing now k docRef (uid u) q w Hw Hr (Hk _ eq_refl)).
    unfold loadGroupOrders. rewrite getActiveGroupOrders_reachable by done.
    by split_and!.
  - rewrite joinGroupOrder_malformed by done. by split_and!.
Qed.

Lemma handleJoinGroupOrder_missing_order_witness :
  (handleJoinGroupOrder plainEnv 300 (Some {| uid := "asha" |}) "g9"
     (number_of_Z 1) (freshComponent emptyForm) sampleWorld).2 = sampleWorld
  /\ Component.toasts
       (handleJoinGroupOrder plainEnv 300 (Some {| uid := "asha" |}) "g9"
          (number_of_Z 1) (freshComponent emptyForm) sampleWorld).1
     = [successToast plainEnv "joined_group_order_successfully"].
Proof.
  destruct (handleJoinGroupOrder_missing_order plainEnv 300 {| uid := "asha" |} "g9"
              (number_of_Z 1) (freshComponent emptyForm) sampleWorld)
    as (_ & Hok & _).
  - reflexivity.
  - intros docRef Hr. vm_compute in Hr. injection Hr as <-. vm_compute. reflexivity.
  - apply Hok. discriminate.
Defined.

(** X6. A join by a new user to an order stored under a plain id raises the
    order's total quantity by the quantity given (a double addition) and its
    member count by one. *)
Theorem getTotalQuantity_after_join (now : Date) (k u : string) (q : number)
  (w : World) (d : GroupOrder) :
  reachable w -> plainId k = true -> groupOrders w !! k = Some d ->
  u ∉ userIds d ->
  exists d',
    groupOrders (joinGroupOrder now k u q w).2 !! k = Some d'
    /\ getTotalQuantity d' = Number_add (getTotalQuantity d) q
    /\ length (joinedVendors d') = S (length (joinedVendors d)).
Proof.
  intros Hw Hp Hk Hu. rewrite (joinGroupOrder_existing now k u q w d Hw Hp Hk).
  simpl_world. eexists. split; [apply lookup_insert_eq|].
  unfold getTotalQuantity. cbn [joinedVendors set_joinedVendors].
  rewrite updatedVendors_absent by done.
  rewrite fold_left_app, length_app. cbn. split; [done | lia].
Qed.

Lemma getTotalQuantity_after_join_witness :
  exists d',
    groupOrders (joinGroupOrder 300 "g2" "asha" (number_of_Z 4) sampleWorld).2 !! "g2"
    = Some d'
    /\ getTotalQuantity d' = number_of_Z 6.
Proof.
  destruct (getTotalQuantity_after_join 300 "g2" "asha" (number_of_Z 4)
              sampleWorld oilOrder) as (d' & Hk & Hq & _).
  - reflexivity.
  - reflexivity.
  - vm_compute. reflexivity.
  - unfold userIds. cbn. intros Hin. apply list_elem_of_singleton in Hin.
    discriminate.
  - exists d'. split; [exact Hk|]. rewrite Hq. vm_compute. reflexivity.
Defined.

(** X7. When the store refuses the write, creating an order through the
    handler stores nothing, logs the error, and raises the failure toast;
    the dialog stays as it was and the form keeps what was typed. *)
Theorem handleCreateGroupOrder_store_failure (env : Env) (now ts : Date) (u : User)
  (c : Component.t) (w : World) (rest : list bool) :
  failures w = true :: rest ->
  missingRequiredFields (Some u) (Component.formData c) = false ->
  let r := handleCreateGroupOrder env now ts (Some u) c w in
  groupOrders r.2 = groupOrders w
  /\ console r.2 = console w ++ ["Error creating group order:"]
  /\ Component.toasts r.1
     = Component.toasts c ++ [errorToast env "failed_to_create_group_order"]
  /\ Component.formData r.1 = Component.formData c
  /\ Component.dialogOpen r.1 = Component.dialogOpen c.
Proof.
  intros Hf Hfd r. subst r. unfold handleCreateGroupOrder. rewrite Hfd.
  unfold createGroupOrder. unfold_promise. rewrite Hf. by cbn.
Qed.

Lemma handleCreateGroupOrder_store_failure_witness :
  groupOrders
    (handleCreateGroupOrder plainEnv 1000 1001 (Some {| uid := "chitra" |})
       (freshComponent riceForm)
       {| groupOrders := groupOrders sampleWorld; failures := [true];
          console := [] |}).2
  = groupOrders sampleWorld.
Proof.
  destruct (handleCreateGroupOrder_store_failure plainEnv 1000 1001
              {| uid := "chitra" |} (freshComponent riceForm)
              {| groupOrders := groupOrders sampleWorld; failures := [true];
                 console := [] |} []) as (Hstore & _).
  - reflexivity.
  - reflexivity.
  - exact Hstore.
Defined.

(** X8. When the store answers, creating an order through the handler closes
    the dialog, clears the form, and refreshes the list: the list then holds
    the new order under its id, and only active orders. *)
Theorem handleCreateGroupOrder_refreshes (env : Env) (now ts : Date) (u : User)
  (c : Component.t) (w : World) :
  reachable w ->
  missingRequiredFields (Some u) (Component.formData c) = false ->
  let r := handleCreateGroupOrder env now ts (Some u) c w in
  Component.dialogOpen r.1 = false
  /\ Component.formData r.1 = emptyForm
  /\ Component.loading r.1 = false
  /\ (exists k,
        groupOrders w !! k = None
        /\ with_id k (with_createdAt
                        (groupOrderData env now u (Component.formData c)) ts)
           ∈ Component.groupOrders r.1)
  /\ (forall g, g ∈ Component.groupOrders r.1 -> status g = active).
Proof.
  intros Hw Hfd r. subst r. unfold handleCreateGroupOrder. rewrite Hfd.
  rewrite createGroupOrder_reachable by done.
  set (k := fresh (dom (groupOrders w))).
  set (doc := with_createdAt (groupOrderData env now u (Component.formData c)) ts).
  set (w' := {| groupOrders := <[k := doc]> (groupOrders w);
                failures := failures w; console := console w |}).
  destruct (activeListing w' Hw) as (orders & Hlist & Hin).
  unfold loadGroupOrders. rewrite Hlist. cbn [fst snd].
  split; [done|]. split; [done|]. split; [done|].
  cbn [setLoading setGroupOrders Component.groupOrders]. split.
  - exists k. split; [apply fresh_id_unused|].
    apply Hin. exists k, doc.
    split; [apply lookup_insert_eq|]. split; [apply plainId_fresh | done].
  - intros g (k' & d' & _ & _ & Hst & ->)%Hin. done.
Qed.

Lemma handleCreateGroupOrder_refreshes_witness :
  Component.dialogOpen
    (handleCreateGroupOrder plainEnv 1000 1001 (Some {| uid := "chitra" |})
       (freshComponent riceForm) sampleWorld).1 = false
  /\ Component.formData
       (handleCreateGroupOrder plainEnv 1000 1001 (Some {| uid := "chitra" |})
          (freshComponent riceForm) sampleWorld).1 = emptyForm.
Proof.
  destruct (handleCreateGroupOrder_refreshes plainEnv 1000 1001
              {| uid := "chitra" |} (freshComponent riceForm) sampleWorld)
    as (Hd & Hf & _).
  - reflexivity.
  - reflexivity.
  - split; [exact Hd | exact Hf].
Defined.

(** X9. An order that [createGroupOrder] has stored appears in the next
    listing exactly when it was given the status [active]; the orders listed
    before are all still listed. *)
Theorem createGroupOrder_then_list (ts : Date) (g : NewGroupOrder.t) (w : World) :
  reachable w ->
  exists k before after,
    getActiveGroupOrders w = (Resolved before, w)
    /\ (createGroupOrder ts g w).1 = Resolved k
    /\ getActiveGroupOrders (createGroupOrder ts g w).2
       = (Resolved after, (createGroupOrder ts g w).2)
    /\ (with_id k (with_createdAt g ts) ∈ after <-> NewGroupOrder.status g = active)
    /\ (forall o, o ∈ before -> o ∈ after).
Proof.
  intros Hw. rewrite createGroupOrder_reachable by done. cbn [fst snd].
  set (k := fresh (dom (groupOrders w))).
  set (w' := {| groupOrders := <[k := with_createdAt g ts]> (groupOrders w);
                failures := failures w; console := console w |}).
  destruct (activeListing w Hw) as (before & Hb & Hbin).
  destruct (activeListing w' Hw) as (after & Ha & Hain).
  exists k, before, after. split_and!; try done.
  - rewrite Hain. split.
    + intros (k' & d' & _ & _ & Hst & Heq).
      apply (f_equal status) in Heq. cbn in Heq. congruence.
    + intros Hst. exists k, (with_createdAt g ts).
      split; [apply lookup_insert_eq|]. split; [apply plainId_fresh | done].
  - intros o (k0 & d0 & Hk0 & Hp & Hst & ->)%Hbin. apply Hain.
    exists k0, d0. split; [|done]. cbn [w' groupOrders].
    rewrite lookup_insert_ne; [done|].
    intros Heq. subst k0. unfold k in Hk0. by rewrite fresh_id_unused in Hk0.
Qed.

Lemma createGroupOrder_then_list_witness :
  exists (k : string) (before after : list GroupOrder),
    getActiveGroupOrders sampleWorld = (Resolved before, sampleWorld)
    /\ (createGroupOrder 10 lateOrder sampleWorld).1 = Resolved k
    /\ getActiveGroupOrders (createGroupOrder 10 lateOrder sampleWorld).2
       = (Resolved after, (createGroupOrder 10 lateOrder sampleWorld).2)
    /\ with_id k (with_createdAt lateOrder 10) ∈ after.
Proof.
  destruct (createGroupOrder_then_list 10 lateOrder sampleWorld eq_refl)
    as (k & before & after & Hb & Hk & Ha & Hin & _).
  exists k, before, after. split; [exact Hb|]. split; [exact Hk|].
  split; [exact Ha|]. apply Hin. reflexivity.
Defined.

(** ** The join button *)

Lemma getTimeRemaining_running env now dl :
  now < dl -> startsWithDigit (getTimeRemaining env now dl) = true.
Proof.
  intros Hlt. unfold getTimeRemaining.
  destruct (Z.leb_spec (dl - now) 0) as [?|_]; [lia|].
  rewrite !Z.rem_mod_nonneg by (use_ms; dlia).
  repeat case_match; apply startsWithDigit_app, startsWithDigit_pretty;
    use_ms; dlia.
Qed.

(** X10. Provided the translation of "expired" does not begin with a digit:
    the card of an order shows no join button to a member; to anyone else it
    shows a button that is disabled and labelled as expired exactly when the
    deadline has been reached, and enabled with the join label before. *)
Theorem joinButton_states (env : Env) (now : Date) (user : option User)
  (g : GroupOrder) :
  startsWithDigit (t env "expired") = false ->
  (isUserJoined user g = true -> joinButton env now user g = None)
  /\ (isUserJoined user g = false ->
      joinButton env now user g
      = Some (if decide (deadline g <= now)
              then {| disabled := true; label := t env "expired" |}
              else {| disabled := false; label := t env "join_group_order" |})).
Proof.
  intros Ht. unfold joinButton. split; intros ->; [done|].
  case_decide as Hdl.
  - rewrite getTimeRemaining_expired by done. by rewrite String.eqb_refl.
  - assert (Hrun : startsWithDigit (getTimeRemaining env now (deadline g)) = true)
      by (apply getTimeRemaining_running; lia).
    destruct (String.eqb_spec (getTimeRemaining env now (deadline g))
                (t env "expired")) as [Heq|_]; [|done].
    rewrite Heq in Hrun. congruence.
Qed.

Lemma joinButton_states_witness :
  joinButton plainEnv 300 (Some {| uid := "bala" |}) oilOrder = None
  /\ joinButton plainEnv 300 (Some {| uid := "asha" |}) oilOrder
     = Some {| disabled := false; label := "join_group_order" |}
  /\ joinButton plainEnv 9000 None oilOrder
     = Some {| disabled := true; label := "expired" |}.
Proof.
  split_and!.
  - apply (joinButton_states plainEnv 300 (Some {| uid := "bala" |}) oilOrder);
      reflexivity.
  - apply (joinButton_states plainEnv 300 (Some {| uid := "asha" |}) oilOrder);
      reflexivity.
  - apply (joinButton_states plainEnv 9000 None oilOrder); reflexivity.
Defined.

(** ** Progress at the edges *)

(** X11. The edge cases of [getProgressPercentage]: without members the
    progress is 0 for any minimum of at least 1; with a minimum of 0 the
    division yields infinity and the progress is 100 for every positive
    member count; 0 members against a minimum of 0 give NaN, and so does a
    NaN on either side (as when the minimum could not be parsed). *)
Theorem getProgressPercentage_edges :
  (forall minVendors_,
     SFleb (number_of_Z 1) minVendors_ = true ->
     getProgressPercentage (number_of_Z 0) minVendors_ = number_of_Z 0)
  /\ (forall m e,
        getProgressPercentage (S754_finite false m e) (number_of_Z 0)
        = number_of_Z 100)
  /\ getProgressPercentage (number_of_Z 0) (number_of_Z 0) = S754_nan
  /\ (forall x, getProgressPercentage x S754_nan = S754_nan)
  /\ (forall y, getProgressPercentage S754_nan y = S754_nan).
Proof.
  split_and!.
  - intros y Hy. destruct y as [sy|[]| |[] my ey]; try discriminate; reflexivity.
  - intros m e. reflexivity.
  - reflexivity.
  - intros x. by destruct x as [[]|[]| |[] m e].
  - intros y. by destruct y as [[]|[]| |[] m e].
Qed.

(** * The other collections *)

(** ** The store operations on a collection *)

Ltac unfold_action :=
  cbv beta delta [Collection.logged Collection.try_catch Collection.bind
                  Collection.doc Collection.getDoc Collection.setDoc Collection.addDoc
                  Collection.updateDoc Collection.deleteDoc Collection.getDocs
                  Collection.request Collection.write Collection.resolve
                  Collection.throw Collection.console_error].

Ltac simpl_collection :=
  cbn [fst snd Collection.docs Collection.failures Collection.console].

Lemma String_leb_trans s1 s2 s3 :
  String.leb s1 s2 = true -> String.leb s2 s3 = true -> String.leb s1 s3 = true.
Proof.
  unfold String.leb. revert s2 s3.
  induction s1 as [|c1 s1 IH]; intros [|c2 s2] [|c3 s3]; cbn; try done.
  unfold Ascii.compare.
  destruct (N.compare_spec (N_of_ascii c1) (N_of_ascii c2)),
    (N.compare_spec (N_of_ascii c2) (N_of_ascii c3)),
    (N.compare_spec (N_of_ascii c1) (N_of_ascii c3));
    try done; try lia.
  apply IH.
Qed.

Section CollectionFacts.
Context {D : Type}.
Implicit Types (s : Collection.t D) (k : string) (d : D).

Lemma logged_resolved {A} msg (m : Collection.Action A) s a s' :
  m s = (Resolved a, s') -> Collection.logged msg m s = (Resolved a, s').
Proof. intros H. unfold Collection.logged, Collection.try_catch. by rewrite H. Qed.

Lemma logged_rejected {A} msg (m : Collection.Action A) s e s' :
  m s = (Rejected e, s') ->
  Collection.logged msg m s
  = (Rejected e, {| Collection.docs := Collection.docs s';
                    Collection.failures := Collection.failures s';
                    Collection.console := Collection.console s' ++ [msg] |}).
Proof. intros H. unfold Collection.logged, Collection.try_catch. by rewrite H. Qed.

Lemma Collection_doc_reference k docRef s :
  reference k = Some docRef -> Collection.doc k s = (Resolved docRef, s).
Proof. unfold Collection.doc. by intros ->. Qed.

Lemma Collection_doc_malformed k s :
  reference k = None -> Collection.doc k s = (Rejected InvalidArgument, s).
Proof. unfold Collection.doc. by intros ->. Qed.

Lemma Collection_getDoc_answering docRef s :
  answering s ->
  Collection.getDoc docRef s = (Resolved (Collection.docs s !! path docRef), s).
Proof. unfold answering. destruct s as [m fs c]. cbn. by intros ->. Qed.

Lemma Collection_setDoc_answering docRef d s :
  answering s ->
  Collection.setDoc docRef d s
  = (Resolved (), {| Collection.docs := <[path docRef := d]> (Collection.docs s);
                     Collection.failures := Collection.failures s;
                     Collection.console := Collection.console s |}).
Proof. unfold answering. destruct s as [m fs c]. cbn. by intros ->. Qed.

Lemma Collection_addDoc_answering d s :
  answering s ->
  Collection.addDoc d s
  = (Resolved (fresh (dom (Collection.docs s))),
     {| Collection.docs := <[fresh (dom (Collection.docs s)) := d]> (Collection.docs s);
        Collection.failures := Collection.failures s;
        Collection.console := Collection.console s |}).
Proof. unfold answering. destruct s as [m fs c]. cbn. by intros ->. Qed.

Lemma Collection_updateDoc_answering docRef fields s d :
  answering s -> Collection.docs s !! path docRef = Some d ->
  Collection.updateDoc docRef fields s
  = (Resolved (), {| Collection.docs := <[path docRef := fields d]> (Collection.docs s);
                     Collection.failures := Collection.failures s;
                     Collection.console := Collection.console s |}).
Proof.
  unfold answering. destruct s as [m fs c]. cbn. intros -> Hk.
  unfold_action. simpl_collection. by rewrite Hk.
Qed.

Lemma Collection_updateDoc_missing docRef fields s :
  answering s -> Collection.docs s !! path docRef = None ->
  Collection.updateDoc docRef fields s = (Rejected NotFoundError, s).
Proof.
  unfold answering. destruct s as [m fs c]. cbn. intros -> Hk.
  unfold_action. simpl_collection. by rewrite Hk.
Qed.

Lemma Collection_deleteDoc_answering docRef s :
  answering s ->
  Collection.deleteDoc docRef s
  = (Resolved (), {| Collection.docs := delete (path docRef) (Collection.docs s);
                     Collection.failures := Collection.failures s;
                     Collection.console := Collection.console s |}).
Proof. unfold answering. destruct s as [m fs c]. cbn. by intros ->. Qed.

Lemma bind_doc {A} k docRef (body : DocumentReference -> Collection.Action A) s :
  reference k = Some docRef ->
  Collection.bind (Collection.doc k) body s = body docRef s.
Proof.
  intros Hr. unfold Collection.bind. by rewrite (Collection_doc_reference k docRef).
Qed.

(** A call on a malformed id is refused and logged, with nothing asked of
    the store. *)
Lemma logged_malformed {A} msg k (body : DocumentReference -> Collection.Action A) s :
  reference k = None ->
  Collection.logged msg (Collection.bind (Collection.doc k) body) s
  = (Rejected InvalidArgument,
     {| Collection.docs := Collection.docs s;
        Collection.failures := Collection.failures s;
        Collection.console := Collection.console s ++ [msg] |}).
Proof.
  intros Hr. apply (logged_rejected msg _ s InvalidArgument s).
  unfold Collection.bind. by rewrite Collection_doc_malformed.
Qed.

Lemma fresh_key_unused (m : gmap string D) : m !! fresh (dom m) = None.
Proof. apply not_elem_of_dom, is_fresh. Qed.

Context (p : D -> bool) (le : relation (string * D)) `{!forall a b, Decision (le a b)}.

Lemma Collection_getDocs_answering s :
  answering s -> Collection.getDocs p le s = (Resolved (queried p le s), s).
Proof. unfold answering. destruct s as [m fs c]. cbn. by intros ->. Qed.

Lemma Collection_getDocs_reads_only s :
  Collection.docs (Collection.getDocs p le s).2 = Collection.docs s.
Proof.
  destruct s as [m fs c]. unfold_action. simpl_collection.
  by destruct fs as [|[] fs].
Qed.

Lemma elem_of_queried s k d :
  (k, d) ∈ queried p le s <->
  Collection.docs s !! k = Some d /\ plainId k = true /\ p d = true.
Proof.
  cbv beta delta [queried].
  rewrite merge_sort_Permutation, list_elem_of_filter, elem_of_members.
  cbn. tauto.
Qed.

Lemma queried_length s :
  length (queried p le s)
  = length (filter (fun kd => p kd.2 = true) (members (Collection.docs s))).
Proof. cbv beta delta [queried]. by rewrite merge_sort_Permutation. Qed.

Lemma queried_NoDup_keys s : NoDup (map fst (queried p le s)).
Proof.
  apply (NoDup_fmap_2_strong fst).
  - intros [k1 d1] [k2 d2] [H1 _]%elem_of_queried [H2 _]%elem_of_queried.
    cbn. intros <-. congruence.
  - cbv beta delta [queried]. rewrite merge_sort_Permutation.
    apply NoDup_filter, NoDup_members.
Qed.

Lemma queried_sorted `{!Total le, !Transitive le} s : StronglySorted le (queried p le s).
Proof. apply StronglySorted_merge_sort; apply _. Qed.

End CollectionFacts.

Global Instance byName_total : Total byName.
Proof. intros a b. apply String.leb_total. Qed.

Global Instance byName_trans : Transitive byName.
Proof. intros a b c. apply String_leb_trans. Qed.

Global Instance newestFirst_total : Total newestFirst.
Proof. intros a b. unfold newestFirst. lia. Qed.

Global Instance newestFirst_trans : Transitive newestFirst.
Proof. intros a b c. unfold newestFirst. lia. Qed.

(** ** Inventory *)

Lemma filter_all {A} (l : list A) : filter (fun _ : A => true = true) l = l.
Proof. induction l as [|x l IH]; [done|]. rewrite filter_cons_True by done. by f_equal. Qed.

Lemma addInventoryItem_answering ts item s :
  answering s ->
  addInventoryItem ts item s
  = (Resolved (fresh (dom (Collection.docs s))),
     {| Collection.docs :=
          <[fresh (dom (Collection.docs s)) := newInventoryDoc item ts]>
            (Collection.docs s);
        Collection.failures := Collection.failures s;
        Collection.console := Collection.console s |}).
Proof.
  intros Hs. apply logged_resolved. unfold Collection.bind.
  by rewrite Collection_addDoc_answering.
Qed.

Lemma getAllInventory_answering s :
  answering s ->
  getAllInventory s
  = (Resolved (map inventoryItemOf (queried (fun _ => true) byName s)), s).
Proof.
  intros Hs. apply logged_resolved. unfold Collection.bind.
  by rewrite Collection_getDocs_answering.
Qed.

Lemma getSupplierInventory_answering sup s :
  answering s ->
  getSupplierInventory sup s
  = (Resolved (map inventoryItemOf
                 (queried (fun d => String.eqb (InventoryItem.supplierId d) sup)
                    byName s)), s).
Proof.
  intros Hs. apply logged_resolved. unfold Collection.bind.
  by rewrite Collection_getDocs_answering.
Qed.

Lemma getAllInventory_length s :
  length (queried (fun _ : InventoryItem.t => true) byName s)
  = length (members (Collection.docs s)).
Proof. by rewrite queried_length, filter_all. Qed.

(** X12. An item that [addInventoryItem] has stored is in the next full
    listing, under the id that was returned and stamped with the server
    time; everything listed before is still listed, and the listing is
    longer by one. *)
Theorem addInventoryItem_then_listed (ts : Date) (item : NewInventoryItem.t)
  (s : Collection.t InventoryItem.t) :
  answering s ->
  exists (k : string) (before after : list InventoryItem.t),
    Collection.docs s !! k = None
    /\ getAllInventory s = (Resolved before, s)
    /\ (addInventoryItem ts item s).1 = Resolved k
    /\ getAllInventory (addInventoryItem ts item s).2
       = (Resolved after, (addInventoryItem ts item s).2)
    /\ inventoryItemOf (k, newInventoryDoc item ts) ∈ after
    /\ InventoryItem.id (inventoryItemOf (k, newInventoryDoc item ts)) = Some k
    /\ (forall g, g ∈ before -> g ∈ after)
    /\ length after = S (length before).
Proof.
  intros Hs. rewrite addInventoryItem_answering by done. cbn [fst snd].
  set (k := fresh (dom (Collection.docs s))).
  set (s' := {| Collection.docs := <[k := newInventoryDoc item ts]> (Collection.docs s);
                Collection.failures := Collection.failures s;
                Collection.console := Collection.console s |}).
  assert (Hk : Collection.docs s !! k = None) by apply fresh_key_unused.
  assert (Hp : plainId k = true) by apply plainId_fresh.
  exists k; eexists _, _.
  split; [done|]. split; [by apply getAllInventory_answering|].
  split; [done|]. split; [by apply (getAllInventory_answering s')|].
  split_and!.
  - apply list_elem_of_fmap. eexists; split; [done|].
    apply elem_of_queried. cbn [s' Collection.docs]. by rewrite lookup_insert_eq.
  - done.
  - intros g ([k0 d0] & -> & (Hk0 & Hp0 & _)%elem_of_queried)%list_elem_of_fmap.
    apply list_elem_of_fmap. exists (k0, d0). split; [done|].
    apply elem_of_queried. split; [|done]. cbn [s' Collection.docs].
    rewrite lookup_insert_ne; [done | congruence].
  - rewrite !length_map, !getAllInventory_length. cbn [s' Collection.docs].
    by rewrite (Permutation_length (members_insert_new _ k _ Hk Hp)).
Qed.

Lemma addInventoryItem_then_listed_witness :
  exists (k : string) (after : list InventoryItem.t),
    (addInventoryItem 40 turmeric sampleInventory).1 = Resolved k
    /\ getAllInventory (addInventoryItem 40 turmeric sampleInventory).2
       = (Resolved after, (addInventoryItem 40 turmeric sampleInventory).2)
    /\ inventoryItemOf (k, newInventoryDoc turmeric 40) ∈ after
    /\ length after = 4%nat.
Proof.
  destruct (addInventoryItem_then_listed 40 turmeric sampleInventory eq_refl)
    as (k & before & after & _ & Hb & Hk & Ha & Hin & _ & _ & Hlen).
  exists k, after. split; [exact Hk|]. split; [exact Ha|]. split; [exact Hin|].
  rewrite Hlen. f_equal.
  assert (Hb' : getAllInventory sampleInventory
                = (Resolved (map inventoryItemOf
                               [("i2", chillies); ("i3", ghee); ("i1", onions)]),
                   sampleInventory)) by (vm_compute; reflexivity).
  rewrite Hb' in Hb. injection Hb as <-. reflexivity.
Defined.

Lemma deleteInventoryItem_answering k docRef (s : Collection.t InventoryItem.t) :
  answering s -> reference k = Some docRef ->
  deleteInventoryItem k s
  = (Resolved (), {| Collection.docs := delete (path docRef) (Collection.docs s);
                     Collection.failures := Collection.failures s;
                     Collection.console := Collection.console s |}).
Proof.
  intros Hs Hr. apply logged_resolved. rewrite (bind_doc k docRef) by done.
  by apply Collection_deleteDoc_answering.
Qed.

(** X13. Given a well-formed id, [deleteInventoryItem] resolves whether or
    not the item exists.  Afterwards there is no document under that id and
    every other document is as before; deleting an id that is not there
    changes nothing, so a repeated delete is a no-op.  An id that is no
    document path is refused by [doc]: the call rejects with the
    invalid-argument error, logs it, and deletes nothing. *)
Theorem deleteInventoryItem_removes (k : string) (s : Collection.t InventoryItem.t) :
  answering s ->
  let s' := (deleteInventoryItem k s).2 in
  (forall docRef, reference k = Some docRef ->
     (deleteInventoryItem k s).1 = Resolved ()
     /\ Collection.docs s' !! path docRef = None
     /\ (forall k', k' <> path docRef ->
           Collection.docs s' !! k' = Collection.docs s !! k')
     /\ (Collection.docs s !! path docRef = None -> s' = s)
     /\ deleteInventoryItem k s' = (Resolved (), s'))
  /\ (reference k = None ->
        (deleteInventoryItem k s).1 = Rejected InvalidArgument
        /\ Collection.docs s' = Collection.docs s
        /\ Collection.failures s' = Collection.failures s
        /\ Collection.console s'
           = Collection.console s ++ ["Error deleting inventory item:"]).
Proof.
  intros Hs. cbv zeta. split.
  - intros docRef Hr.
    rewrite !(deleteInventoryItem_answering k docRef) by done.
    cbn [fst snd Collection.docs]. split_and!.
    + done.
    + apply lookup_delete_eq.
    + intros k' Hne. by apply lookup_delete_ne.
    + intros Hk. rewrite delete_id by done. by destruct s.
    + rewrite ?(deleteInventoryItem_answering k docRef) by done.
      simpl_collection. by rewrite delete_delete_eq.
  - intros Hr. unfold deleteInventoryItem. by rewrite logged_malformed.
Qed.

Lemma deleteInventoryItem_removes_witness :
  (deleteInventoryItem "i2" sampleInventory).1 = Resolved ()
  /\ Collection.docs (deleteInventoryItem "i2" sampleInventory).2 !! "i2" = None
  /\ Collection.docs (deleteInventoryItem "i2" sampleInventory).2 !! "i1"
     = Some onions
  /\ (deleteInventoryItem "" sampleInventory).1 = Rejected InvalidArgument.
Proof.
  destruct (deleteInventoryItem_removes "i2" sampleInventory eq_refl) as [Hok _].
  destruct (Hok {| path := "i2" |} eq_refl) as (Hr & Hk & Hother & _).
  destruct (deleteInventoryItem_removes "" sampleInventory eq_refl) as [_ Hbad].
  split; [exact Hr|]. split; [exact Hk|]. split.
  - rewrite (Hother "i1") by discriminate. vm_compute. reflexivity.
  - apply Hbad. reflexivity.
Defined.

Lemma updateInventoryItem_answering_at ts k docRef updates s d :
  answering s -> reference k = Some docRef ->
  Collection.docs s !! path docRef = Some d ->
  updateInventoryItem ts k updates s
  = (Resolved (),
     {| Collection.docs :=
          <[path docRef := inventoryFields updates ts d]> (Collection.docs s);
        Collection.failures := Collection.failures s;
        Collection.console := Collection.console s |}).
Proof.
  intros Hs Hr Hk. apply logged_resolved. rewrite (bind_doc k docRef) by done.
  by apply Collection_updateDoc_answering.
Qed.

Lemma updateInventoryItem_answering ts k updates s d :
  answering s -> plainId k = true -> Collection.docs s !! k = Some d ->
  updateInventoryItem ts k updates s
  = (Resolved (),
     {| Collection.docs := <[k := inventoryFields updates ts d]> (Collection.docs s);
        Collection.failures := Collection.failures s;
        Collection.console := Collection.console s |}).
Proof.
  intros Hs Hp Hk.
  by apply (updateInventoryItem_answering_at ts k {| path := k |});
    [|apply reference_plainId|].
Qed.

(** An update that names no stored document fails, whichever way: the
    rejection is logged and nothing is written. *)
Lemma updateInventoryItem_absent ts k updates (s : Collection.t InventoryItem.t) :
  answering s ->
  (forall docRef, reference k = Some docRef ->
     Collection.docs s !! path docRef = None) ->
  updateInventoryItem ts k updates s
  = (Rejected (match reference k with
               | Some _ => NotFoundError
               | None => InvalidArgument
               end),
     {| Collection.docs := Collection.docs s;
        Collection.failures := Collection.failures s;
        Collection.console := Collection.console s ++ ["Error updating inventory item:"] |}).
Proof.
  intros Hs Hk. unfold updateInventoryItem.
  destruct (reference k) as [docRef|] eqn:Hr.
  - apply (logged_rejected _ _ s NotFoundError s).
    rewrite (bind_doc k docRef) by done.
    apply Collection_updateDoc_missing; [done | by apply Hk].
  - by apply logged_malformed.
Qed.

(** X14. Updating an inventory item that does not exist fails, and the
    collection is left as it was.  For a well-formed id the store's
    not-found rejection is passed on to the caller; an id that is no
    document path is refused by [doc] with the invalid-argument error.
    Either way the rejection is logged first. *)
Theorem updateInventoryItem_missing (ts : Date) (k : string)
  (updates : InventoryUpdates.t) (s : Collection.t InventoryItem.t) :
  answering s ->
  (forall docRef, reference k = Some docRef ->
     Collection.docs s !! path docRef = None) ->
  exists e,
    updateInventoryItem ts k updates s
    = (Rejected e,
       {| Collection.docs := Collection.docs s;
          Collection.failures := Collection.failures s;
          Collection.console :=
            Collection.console s ++ ["Error updating inventory item:"] |})
    /\ (reference k <> None -> e = NotFoundError)
    /\ (reference k = None -> e = InvalidArgument).
Proof.
  intros Hs Hk. eexists. split; [by apply updateInventoryItem_absent|].
  by destruct (reference k).
Qed.

Lemma updateInventoryItem_missing_witness :
  (updateInventoryItem 50 "i9" (priceOnly (number_of_Z 35)) sampleInventory).1
  = Rejected NotFoundError
  /\ (updateInventoryItem 50 "" (priceOnly (number_of_Z 35)) sampleInventory).1
     = Rejected InvalidArgument.
Proof.
  split.
  - destruct (updateInventoryItem_missing 50 "i9" (priceOnly (number_of_Z 35))
                sampleInventory eq_refl) as (e & -> & He & _).
    + intros docRef Hr. vm_compute in Hr. injection Hr as <-. vm_compute. reflexivity.
    + cbn [fst]. f_equal. apply He. discriminate.
  - destruct (updateInventoryItem_missing 50 "" (priceOnly (number_of_Z 35))
                sampleInventory eq_refl) as (e & -> & _ & He).
    + intros docRef Hr. vm_compute in Hr. discriminate.
    + cbn [fst]. f_equal. apply He. reflexivity.
Defined.

(** X15. Updating an existing inventory item (stored under a plain id)
    replaces exactly the fields that the update gives and keeps the others;
    [updatedAt] becomes the server time whatever the update says about it;
    no other document is touched. *)
Theorem updateInventoryItem_existing (ts : Date) (k : string)
  (updates : InventoryUpdates.t) (s : Collection.t InventoryItem.t)
  (d : InventoryItem.t) :
  answering s -> plainId k = true -> Collection.docs s !! k = Some d ->
  exists d',
    (updateInventoryItem ts k updates s).1 = Resolved ()
    /\ Collection.docs (updateInventoryItem ts k updates s).2 !! k = Some d'
    /\ (forall k', k' <> k ->
          Collection.docs (updateInventoryItem ts k updates s).2 !! k'
          = Collection.docs s !! k')
    /\ InventoryItem.updatedAt d' = ts
    /\ InventoryItem.name d'
       = updated (InventoryUpdates.name updates) (InventoryItem.name d)
    /\ InventoryItem.price d'
       = updated (InventoryUpdates.price updates) (InventoryItem.price d)
    /\ InventoryItem.stock d'
       = updated (InventoryUpdates.stock updates) (InventoryItem.stock d)
    /\ InventoryItem.category d'
       = updated (InventoryUpdates.category updates) (InventoryItem.category d)
    /\ InventoryItem.unit d'
       = updated (InventoryUpdates.unit updates) (InventoryItem.unit d)
    /\ InventoryItem.supplierId d'
       = updated (InventoryUpdates.supplierId updates) (InventoryItem.supplierId d)
    /\ InventoryItem.createdAt d'
       = updated (InventoryUpdates.createdAt updates) (InventoryItem.createdAt d)
    /\ InventoryItem.description d'
       = updatedOptional (InventoryUpdates.description updates)
           (InventoryItem.description d).
Proof.
  intros Hs Hp Hk. rewrite (updateInventoryItem_answering ts k updates s d) by done.
  simpl_collection. exists (inventoryFields updates ts d).
  split; [done|]. split; [apply lookup_insert_eq|].
  split; [intros k' Hne; by apply lookup_insert_ne|].
  by split_and!.
Qed.

Lemma updateInventoryItem_existing_witness :
  exists d',
    Collection.docs
      (updateInventoryItem 50 "i1" (priceOnly (number_of_Z 35)) sampleInventory).2
      !! "i1" = Some d'
    /\ InventoryItem.updatedAt d' = 50
    /\ InventoryItem.price d' = number_of_Z 35
    /\ InventoryItem.name d' = "onions".
Proof.
  destruct (updateInventoryItem_existing 50 "i1" (priceOnly (number_of_Z 35))
              sampleInventory onions)
    as (d' & _ & Hk & _ & Hts & Hname & Hprice & _).
  - reflexivity.
  - reflexivity.
  - vm_compute. reflexivity.
  - exists d'. split; [exact Hk|]. split; [exact Hts|].
    split; [exact Hprice | exact Hname].
Defined.

Lemma listedItem_inventoryItemOf k d : listedItem k d (inventoryItemOf (k, d)).
Proof. by repeat split. Qed.

(** X16. [getSupplierInventory] writes nothing, whatever the store answers;
    and when the store answers it resolves to a list with one entry for each
    item of the collection whose stored supplier is the given one, and no
    other entry.  The entries stand in ascending order of the stored names,
    and each one carries the stored values of its item (name, category,
    price, unit, stock, description, times) together with the document
    id. *)
Theorem getSupplierInventory_spec (sup : string) (s : Collection.t InventoryItem.t) :
  Collection.docs (getSupplierInventory sup s).2 = Collection.docs s
  /\ (answering s ->
      exists (stored : list (string * InventoryItem.t)) (items : list InventoryItem.t),
        getSupplierInventory sup s = (Resolved items, s)
        /\ (forall k d, (k, d) ∈ stored <->
              Collection.docs s !! k = Some d /\ plainId k = true
              /\ InventoryItem.supplierId d = sup)
        /\ NoDup (map fst stored)
        /\ StronglySorted
             (fun a b => String.leb (InventoryItem.name a.2) (InventoryItem.name b.2)
                         = true)
             stored
        /\ Forall2 (fun kd g => listedItem kd.1 kd.2 g) stored items
        /\ (forall g, g ∈ items <->
              exists k d, Collection.docs s !! k = Some d /\ plainId k = true
                          /\ InventoryItem.supplierId d = sup
                          /\ g = inventoryItemOf (k, d))
        /\ (forall g, g ∈ items -> InventoryItem.supplierId g = sup)
        /\ StronglySorted
             (fun a b => String.leb (InventoryItem.name a) (InventoryItem.name b) = true)
             items).
Proof.
  split.
  { destruct s as [m fs c]. unfold getSupplierInventory. unfold_action.
    simpl_collection. by destruct fs as [|[] fs]. }
  intros Hs.
  exists (queried (fun d => String.eqb (InventoryItem.supplierId d) sup) byName s).
  eexists. split; [by apply getSupplierInventory_answering|].
  assert (Hin : forall g,
    g ∈ map inventoryItemOf
          (queried (fun d => String.eqb (InventoryItem.supplierId d) sup) byName s)
    <-> exists k d, Collection.docs s !! k = Some d /\ plainId k = true
                    /\ InventoryItem.supplierId d = sup
                    /\ g = inventoryItemOf (k, d)).
  { intros g. rewrite list_elem_of_fmap. split.
    - intros ([k d] & -> & (Hk & Hp & Hsup%String.eqb_eq)%elem_of_queried).
      by exists k, d.
    - intros (k & d & Hk & Hp & Hsup & ->). exists (k, d). split; [done|].
      apply elem_of_queried. split_and!; [done..|]. by apply String.eqb_eq. }
  split_and!.
  - intros k d. rewrite elem_of_queried. by rewrite String.eqb_eq.
  - apply queried_NoDup_keys.
  - apply (queried_sorted _ byName).
  - apply Forall2_map_self. intros [k d]. apply listedItem_inventoryItemOf.
  - exact Hin.
  - intros g (k & d & _ & _ & Hsup & ->)%Hin. done.
  - apply (StronglySorted_fmap _ byName); [by intros [] []|].
    apply queried_sorted; apply _.
Qed.

Lemma getSupplierInventory_spec_witness :
  exists items,
    getSupplierInventory "ravi" sampleInventory = (Resolved items, sampleInventory)
    /\ (forall g, g ∈ items -> InventoryItem.supplierId g = "ravi").
Proof.
  destruct (getSupplierInventory_spec "ravi" sampleInventory) as [_ H].
  destruct (H eq_refl) as (stored & items & Hrun & _ & _ & _ & _ & _ & Hsup & _).
  exists items. split; [exact Hrun | exact Hsup].
Defined.

Example getSupplierInventory_sample :
  getSupplierInventory "ravi" sampleInventory
  = (Resolved [inventoryItemOf ("i2", chillies); inventoryItemOf ("i1", onions)],
     sampleInventory).
Proof. vm_compute. reflexivity. Qed.

(** ** Orders *)

Lemma createOrder_answering ts order s :
  answering s ->
  createOrder ts order s
  = (Resolved (fresh (dom (Collection.docs s))),
     {| Collection.docs :=
          <[fresh (dom (Collection.docs s)) := newOrderDoc order ts]> (Collection.docs s);
        Collection.failures := Collection.failures s;
        Collection.console := Collection.console s |}).
Proof.
  intros Hs. apply logged_resolved. unfold Collection.bind.
  by rewrite Collection_addDoc_answering.
Qed.

Lemma getRetailerOrders_answering r s :
  answering s ->
  getRetailerOrders r s
  = (Resolved (map orderOf
                 (queried (fun d => String.eqb (Order.retailerId d) r) newestFirst s)),
     s).
Proof.
  intros Hs. apply logged_resolved. unfold Collection.bind.
  by rewrite Collection_getDocs_answering.
Qed.

Lemma getSupplierOrders_answering sup s :
  answering s ->
  getSupplierOrders sup s
  = (Resolved (map orderOf
                 (queried (fun d => String.eqb (Order.supplierId d) sup) newestFirst s)),
     s).
Proof.
  intros Hs. apply logged_resolved. unfold Collection.bind.
  by rewrite Collection_getDocs_answering.
Qed.

Lemma elem_of_retailerOrders r s g :
  g ∈ map orderOf (queried (fun d => String.eqb (Order.retailerId d) r) newestFirst s)
  <-> exists k d, Collection.docs s !! k = Some d /\ plainId k = true
                  /\ Order.retailerId d = r /\ g = orderOf (k, d).
Proof.
  rewrite list_elem_of_fmap. split.
  - intros ([k d] & -> & (Hk & Hp & Hr%String.eqb_eq)%elem_of_queried).
    by exists k, d.
  - intros (k & d & Hk & Hp & Hr & ->). exists (k, d). split; [done|].
    apply elem_of_queried. split_and!; [done..|]. by apply String.eqb_eq.
Qed.

Lemma elem_of_supplierOrders sup s g :
  g ∈ map orderOf (queried (fun d => String.eqb (Order.supplierId d) sup) newestFirst s)
  <-> exists k d, Collection.docs s !! k = Some d /\ plainId k = true
                  /\ Order.supplierId d = sup /\ g = orderOf (k, d).
Proof.
  rewrite list_elem_of_fmap. split.
  - intros ([k d] & -> & (Hk & Hp & Hr%String.eqb_eq)%elem_of_queried).
    by exists k, d.
  - intros (k & d & Hk & Hp & Hr & ->). exists (k, d). split; [done|].
    apply elem_of_queried. split_and!; [done..|]. by apply String.eqb_eq.
Qed.




Lemma listedOrderEntry_orderOf k d : listedOrderEntry k d (orderOf (k, d)).
Proof. by repeat split. Qed.

(** X18. Each of the two order listings writes nothing and, when the store
    answers, resolves to a list with one entry for each order of the
    collection whose stored retailer (respectively supplier) is the given
    one, and no other entry.  The entries stand newest first by the stored
    creation times, and each one carries the stored values of its order
    (parties, items, amount, status, times) together with the document
    id. *)
Theorem order_listings_spec (who : string) (s : Collection.t Order.t) :
  Collection.docs (getRetailerOrders who s).2 = Collection.docs s
  /\ Collection.docs (getSupplierOrders who s).2 = Collection.docs s
  /\ (answering s ->
      exists (storedR storedS : list (string * Order.t))
             (asRetailer asSupplier : list Order.t),
        getRetailerOrders who s = (Resolved asRetailer, s)
        /\ getSupplierOrders who s = (Resolved asSupplier, s)
        /\ (forall k d, (k, d) ∈ storedR <->
              Collection.docs s !! k = Some d /\ plainId k = true
              /\ Order.retailerId d = who)
        /\ (forall k d, (k, d) ∈ storedS <->
              Collection.docs s !! k = Some d /\ plainId k = true
              /\ Order.supplierId d = who)
        /\ NoDup (map fst storedR) /\ NoDup (map fst storedS)
        /\ StronglySorted (fun a b => Order.createdAt b.2 <= Order.createdAt a.2)
             storedR
        /\ StronglySorted (fun a b => Order.createdAt b.2 <= Order.createdAt a.2)
             storedS
        /\ Forall2 (fun kd g => listedOrderEntry kd.1 kd.2 g) storedR asRetailer
        /\ Forall2 (fun kd g => listedOrderEntry kd.1 kd.2 g) storedS asSupplier
        /\ (forall g, g ∈ asRetailer <->
              exists k d, Collection.docs s !! k = Some d /\ plainId k = true
                          /\ Order.retailerId d = who /\ g = orderOf (k, d))
        /\ (forall g, g ∈ asSupplier <->
              exists k d, Collection.docs s !! k = Some d /\ plainId k = true
                          /\ Order.supplierId d = who /\ g = orderOf (k, d))
        /\ StronglySorted (fun a b => Order.createdAt b <= Order.createdAt a)
             asRetailer
        /\ StronglySorted (fun a b => Order.createdAt b <= Order.createdAt a)
             asSupplier).
Proof.
  split_and!.
  - destruct s as [m fs c]. unfold getRetailerOrders. unfold_action.
    simpl_collection. by destruct fs as [|[] fs].
  - destruct s as [m fs c]. unfold getSupplierOrders. unfold_action.
    simpl_collection. by destruct fs as [|[] fs].
  - intros Hs.
    exists (queried (fun d => String.eqb (Order.retailerId d) who) newestFirst s),
      (queried (fun d => String.eqb (Order.supplierId d) who) newestFirst s).
    eexists _, _.
    split; [by apply getRetailerOrders_answering|].
    split; [by apply getSupplierOrders_answering|].
    split; [intros k d; rewrite elem_of_queried; by rewrite String.eqb_eq|].
    split; [intros k d; rewrite elem_of_queried; by rewrite String.eqb_eq|].
    split; [apply queried_NoDup_keys|]. split; [apply queried_NoDup_keys|].
    split; [apply (queried_sorted _ newestFirst)|].
    split; [apply (queried_sorted _ newestFirst)|].
    split; [apply Forall2_map_self; intros [k d]; apply listedOrderEntry_orderOf|].
    split; [apply Forall2_map_self; intros [k d]; apply listedOrderEntry_orderOf|].
    split; [intros g; apply elem_of_retailerOrders|].
    split; [intros g; apply elem_of_supplierOrders|].
    split; (apply (StronglySorted_fmap _ newestFirst); [by intros [] []|];
            apply queried_sorted; apply _).
Qed.

Example getRetailerOrders_sample :
  getRetailerOrders "asha" sampleOrders
  = (Resolved [orderOf ("o2", order2); orderOf ("o1", order1)], sampleOrders).
Proof. vm_compute. reflexivity. Qed.

(** X19. An order that [createOrder] has stored is listed for its retailer
    and for its supplier, and in the listing of no other retailer or
    supplier. *)
Theorem createOrder_listed_for_both (ts : Date) (order : NewOrder.t)
  (s : Collection.t Order.t) (who : string) :
  answering s ->
  exists (k : string) (asRetailer asSupplier : list Order.t),
    (createOrder ts order s).1 = Resolved k
    /\ getRetailerOrders who (createOrder ts order s).2
       = (Resolved asRetailer, (createOrder ts order s).2)
    /\ getSupplierOrders who (createOrder ts order s).2
       = (Resolved asSupplier, (createOrder ts order s).2)
    /\ (orderOf (k, newOrderDoc order ts) ∈ asRetailer
        <-> who = NewOrder.retailerId order)
    /\ (orderOf (k, newOrderDoc order ts) ∈ asSupplier
        <-> who = NewOrder.supplierId order).
Proof.
  intros Hs. rewrite createOrder_answering by done. cbn [fst snd].
  set (k := fresh (dom (Collection.docs s))).
  set (s' := {| Collection.docs := <[k := newOrderDoc order ts]> (Collection.docs s);
                Collection.failures := Collection.failures s;
                Collection.console := Collection.console s |}).
  exists k; eexists _, _. split; [done|].
  split; [by apply (getRetailerOrders_answering who s')|].
  split; [by apply (getSupplierOrders_answering who s')|].
  split.
  - rewrite elem_of_retailerOrders. split.
    + intros (k' & d' & _ & _ & Hr & Heq).
      apply (f_equal Order.retailerId) in Heq. cbn in Heq. congruence.
    + intros ->. exists k, (newOrderDoc order ts).
      split; [apply lookup_insert_eq|]. split; [apply plainId_fresh | done].
  - rewrite elem_of_supplierOrders. split.
    + intros (k' & d' & _ & _ & Hr & Heq).
      apply (f_equal Order.supplierId) in Heq. cbn in Heq. congruence.
    + intros ->. exists k, (newOrderDoc order ts).
      split; [apply lookup_insert_eq|]. split; [apply plainId_fresh | done].
Qed.

Lemma createOrder_listed_for_both_witness :
  exists (k : string) (asRetailer : list Order.t),
    (createOrder 400 order4 sampleOrders).1 = Resolved k
    /\ getRetailerOrders "bala" (createOrder 400 order4 sampleOrders).2
       = (Resolved asRetailer, (createOrder 400 order4 sampleOrders).2)
    /\ orderOf (k, newOrderDoc order4 400) ∈ asRetailer.
Proof.
  destruct (createOrder_listed_for_both 400 order4 sampleOrders "bala" eq_refl)
    as (k & asRetailer & asSupplier & Hk & Hr & _ & Hin & _).
  exists k, asRetailer. split; [exact Hk|]. split; [exact Hr|].
  apply Hin. reflexivity.
Defined.

(** X20. The tabs of the order manager: the filter "all" gives every order,
    each of the four status filters gives exactly the orders with that
    status, the four together count every order once, and any other filter
    gives nothing. *)
Theorem filterOrdersByStatus_partition (orders : list Order.t) :
  filterOrdersByStatus orders "all" = orders
  /\ (forall st o,
        o ∈ filterOrdersByStatus orders (OrderStatus.toString st)
        <-> o ∈ orders /\ Order.status o = st)
  /\ length orders
     = (length (filterOrdersByStatus orders "pending")
        + length (filterOrdersByStatus orders "confirmed")
        + length (filterOrdersByStatus orders "rejected")
        + length (filterOrdersByStatus orders "completed"))%nat
  /\ (forall other,
        other ∉ ["all"; "pending"; "confirmed"; "rejected"; "completed"] ->
        filterOrdersByStatus orders other = []).
Proof.
  split_and!.
  - reflexivity.
  - intros st o. unfold filterOrdersByStatus.
    replace (String.eqb (OrderStatus.toString st) "all") with false
      by by destruct st.
    rewrite list_elem_of_In, filter_In, <- list_elem_of_In, String.eqb_eq.
    split; intros [Hin Hst]; (split; [done|]).
    + by destruct (Order.status o), st.
    + by rewrite Hst.
  - unfold filterOrdersByStatus. cbn [String.eqb Ascii.eqb Bool.eqb].
    induction orders as [|o orders IH]; [done|]. cbn [List.filter length].
    rewrite IH. destruct (Order.status o); cbn; lia.
  - intros other Hother. unfold filterOrdersByStatus.
    destruct (String.eqb_spec other "all") as [->|_].
    { destruct Hother. repeat constructor. }
    induction orders as [|o orders IH]; [done|]. cbn [List.filter].
    destruct (String.eqb_spec (OrderStatus.toString (Order.status o)) other)
      as [<-|_]; [|done].
    destruct Hother. destruct (Order.status o); cbn; set_solver.
Qed.

(** ** Supplier profiles *)

Lemma createSupplierProfile_answering ts u data s :
  answering s -> plainId u = true ->
  createSupplierProfile ts u data s
  = (Resolved (),
     {| Collection.docs := <[u := newSupplierDoc u data ts]> (Collection.docs s);
        Collection.failures := Collection.failures s;
        Collection.console := Collection.console s |}).
Proof.
  intros Hs Hp. apply logged_resolved.
  rewrite (bind_doc u {| path := u |}) by by apply reference_plainId.
  by apply Collection_setDoc_answering.
Qed.

Lemma getSupplierProfile_answering u s :
  answering s -> plainId u = true ->
  getSupplierProfile u s
  = (Resolved ((fun data => supplierOf (u, data)) <$> Collection.docs s !! u), s).
Proof.
  intros Hs Hp. apply logged_resolved.
  rewrite (bind_doc u {| path := u |}) by by apply reference_plainId.
  unfold Collection.bind. rewrite Collection_getDoc_answering by done.
  cbn [path]. rewrite referenceId_plainId by done.
  by destruct (Collection.docs s !! u).
Qed.

(** X21. A profile written by [createSupplierProfile] for a user whose id is
    a plain document id is what [getSupplierProfile] returns for that user
    next, under the user's id: with the store name, location and contact
    data as given, but with rating 0 and 0 orders whatever the caller
    passed, and replacing any profile the user had; the profiles of other
    users are untouched. *)
Theorem createSupplierProfile_round_trip (ts : Date) (u : string)
  (data : NewSupplier.t) (s : Collection.t Supplier.t) :
  answering s -> plainId u = true ->
  let s' := (createSupplierProfile ts u data s).2 in
  exists profile,
    (createSupplierProfile ts u data s).1 = Resolved ()
    /\ getSupplierProfile u s' = (Resolved (Some profile), s')
    /\ Supplier.id profile = Some u
    /\ Supplier.userId profile = u
    /\ Supplier.storeName profile = NewSupplier.storeName data
    /\ Supplier.location profile = NewSupplier.location data
    /\ Supplier.contactInfo profile = NewSupplier.contactInfo data
    /\ Supplier.rating profile = number_of_Z 0
    /\ Supplier.totalOrders profile = number_of_Z 0
    /\ Supplier.createdAt profile = ts
    /\ (forall other, other <> u ->
          Collection.docs s' !! other = Collection.docs s !! other).
Proof.
  intros Hs Hp. cbv zeta. rewrite createSupplierProfile_answering by done.
  cbn [fst snd]. rewrite getSupplierProfile_answering by done.
  simpl_collection. rewrite lookup_insert_eq. eexists.
  split; [done|]. split; [done|]. split_and!; try done.
  intros other Hne. by apply lookup_insert_ne.
Qed.

Lemma createSupplierProfile_round_trip_witness :
  exists profile,
    getSupplierProfile "ravi" (createSupplierProfile 5 "ravi" raviStore noSuppliers).2
    = (Resolved (Some profile),
       (createSupplierProfile 5 "ravi" raviStore noSuppliers).2)
    /\ Supplier.rating profile = number_of_Z 0
    /\ Supplier.storeName profile = "Ravi Traders".
Proof.
  destruct (createSupplierProfile_round_trip 5 "ravi" raviStore noSuppliers
              eq_refl eq_refl)
    as (profile & _ & Hget & _ & _ & Hname & _ & _ & Hrating & _).
  exists profile. split; [exact Hget|]. split; [exact Hrating | exact Hname].
Defined.

(** X22. For a user without a profile, [getSupplierProfile] signals nothing
    when the user id is a well-formed document path: it resolves to null
    whenever the store answers the read, never rejects with not-found, and
    writes nothing.  A user id that is no document path (the empty one) is
    refused by [doc]: the call rejects with the invalid-argument error and
    logs it, with nothing asked of the store. *)
Theorem getSupplierProfile_missing (u : string) (s : Collection.t Supplier.t) :
  (forall docRef, reference u = Some docRef ->
     Collection.docs s !! path docRef = None) ->
  let r := getSupplierProfile u s in
  r.1 <> Rejected NotFoundError
  /\ Collection.docs r.2 = Collection.docs s
  /\ (reference u <> None ->
        (r.1 = Resolved None \/ r.1 = Rejected StorageError)
        /\ (head (Collection.failures s) = Some true -> r.1 = Rejected StorageError)
        /\ (answering s -> r = (Resolved None, s)))
  /\ (reference u = None ->
        r = (Rejected InvalidArgument,
             {| Collection.docs := Collection.docs s;
                Collection.failures := Collection.failures s;
                Collection.console :=
                  Collection.console s ++ ["Error getting supplier profile:"] |})).
Proof.
  intros Hu. cbv zeta. destruct (reference u) as [docRef|] eqn:Hr.
  - specialize (Hu docRef eq_refl).
    destruct s as [m fs c]. cbn in Hu. unfold getSupplierProfile. unfold_action.
    rewrite Hr. simpl_collection.
    destruct fs as [|[] fs]; simpl_collection; rewrite ?Hu; simpl_collection;
      split_and!; try done; intros _; split_and!; try done; auto.
  - unfold getSupplierProfile. rewrite logged_malformed by done.
    simpl_collection. by split_and!.
Qed.

Lemma getSupplierProfile_missing_witness :
  getSupplierProfile "ravi" noSuppliers = (Resolved None, noSuppliers)
  /\ (getSupplierProfile "" noSuppliers).1 = Rejected InvalidArgument.
Proof.
  split.
  - destruct (getSupplierProfile_missing "ravi" noSuppliers) as (_ & _ & H & _).
    + intros docRef Hr. vm_compute in Hr. injection Hr as <-. vm_compute. reflexivity.
    + destruct H as (_ & _ & H); [discriminate|]. apply H. reflexivity.
  - destruct (getSupplierProfile_missing "" noSuppliers) as (_ & _ & _ & H).
    + intros docRef Hr. vm_compute in Hr. discriminate.
    + rewrite H by reflexivity. reflexivity.
Defined.

(** ** The inventory manager *)

Lemma loadInventory_answering env u c s :
  answering s ->
  InventoryManager.loadInventory env (Some u) c s
  = (InventoryManager.setLoading false
       (InventoryManager.setItems
          (map inventoryItemOf
             (queried (fun d => String.eqb (InventoryItem.supplierId d) (uid u))
                byName s)) c), s).
Proof.
  intros Hs. unfold InventoryManager.loadInventory.
  by rewrite getSupplierInventory_answering.
Qed.

(** X23. Saving the form while an item is being edited (one stored under a
    plain id) rewrites that item's document and creates none: the document takes the form's name, category,
    unit and description and the parsed price and stock, is assigned to the
    signed-in user, keeps its creation time, and gets the server time as
    [updatedAt]; the manager reports the update, closes the dialog and
    clears the form and the edited item. *)
Theorem handleSubmit_edit (env : Env) (ts : Date) (u : User)
  (c : InventoryManager.t) (s : Collection.t InventoryItem.t)
  (item d : InventoryItem.t) (k : string) :
  answering s ->
  InventoryManager.missingRequiredFields (Some u) (InventoryManager.formData c) = false ->
  InventoryManager.editingItem c = Some item ->
  InventoryItem.id item = Some k ->
  plainId k = true ->
  Collection.docs s !! k = Some d ->
  let r := InventoryManager.handleSubmit env ts (Some u) c s in
  let fd := InventoryManager.formData c in
  (exists d',
     Collection.docs r.2 = <[k := d']> (Collection.docs s)
     /\ InventoryItem.name d' = ItemFormData.name fd
     /\ InventoryItem.category d' = ItemFormData.category fd
     /\ InventoryItem.unit d' = ItemFormData.unit fd
     /\ InventoryItem.price d' = parseFloat env (ItemFormData.price fd)
     /\ InventoryItem.stock d' = parseInt env (ItemFormData.stock fd)
     /\ InventoryItem.description d' = Some (ItemFormData.description fd)
     /\ InventoryItem.supplierId d' = uid u
     /\ InventoryItem.createdAt d' = InventoryItem.createdAt d
     /\ InventoryItem.updatedAt d' = ts)
  /\ dom (Collection.docs r.2) = dom (Collection.docs s)
  /\ InventoryManager.toasts r.1
     = InventoryManager.toasts c ++ [successToast env "item_updated_successfully"]
  /\ InventoryManager.dialogOpen r.1 = false
  /\ InventoryManager.editingItem r.1 = None
  /\ InventoryManager.formData r.1 = InventoryManager.emptyForm.
Proof.
  intros Hs Hfd Hedit Hid Hp Hk. cbv zeta.
  unfold InventoryManager.handleSubmit, InventoryManager.submitWrite.
  rewrite Hfd, Hedit, Hid.
  rewrite (updateInventoryItem_answering ts k _ s d Hs Hp Hk).
  rewrite loadInventory_answering by done. cbn [fst snd Collection.docs].
  split.
  { eexists. split; [done|]. by split_and!. }
  split; [|by split_and!].
  apply dom_insert_lookup_L. by rewrite Hk.
Qed.

Lemma handleSubmit_edit_witness :
  exists d',
    Collection.docs
      (InventoryManager.handleSubmit plainEnv 60 (Some {| uid := "ravi" |})
         editingOnions sampleInventory).2 !! "i1" = Some d'
    /\ InventoryItem.name d' = "red onions"
    /\ InventoryItem.createdAt d' = 10
    /\ InventoryItem.updatedAt d' = 60.
Proof.
  destruct (handleSubmit_edit plainEnv 60 {| uid := "ravi" |} editingOnions
              sampleInventory (inventoryItemOf ("i1", onions)) onions "i1")
    as [(d' & Hdocs & Hname & _ & _ & _ & _ & _ & _ & Hc & Hu) _].
  - reflexivity.
  - reflexivity.
  - reflexivity.
  - reflexivity.
  - reflexivity.
  - vm_compute. reflexivity.
  - exists d'. rewrite Hdocs, lookup_insert_eq.
    split; [reflexivity|]. split; [exact Hname|]. split; [exact Hc | exact Hu].
Defined.

(** X24. Saving the form for an edited item whose id names no stored
    document (the document is gone, or the id is no document path) fails:
    nothing is written, the error is logged, and the manager raises the
    update-failed toast while the dialog, the form and the edited item stay
    as they were. *)
Theorem handleSubmit_edit_missing (env : Env) (ts : Date) (u : User)
  (c : InventoryManager.t) (s : Collection.t InventoryItem.t)
  (item : InventoryItem.t) (k : string) :
  answering s ->
  InventoryManager.missingRequiredFields (Some u) (InventoryManager.formData c) = false ->
  InventoryManager.editingItem c = Some item ->
  InventoryItem.id item = Some k ->
  (forall docRef, reference k = Some docRef ->
     Collection.docs s !! path docRef = None) ->
  let r := InventoryManager.handleSubmit env ts (Some u) c s in
  Collection.docs r.2 = Collection.docs s
  /\ Collection.console r.2
     = Collection.console s ++ ["Error updating inventory item:"]
  /\ r.1 = InventoryManager.toast (errorToast env "failed_to_update_item") c.
Proof.
  intros Hs Hfd Hedit Hid Hk. cbv zeta.
  unfold InventoryManager.handleSubmit, InventoryManager.submitWrite.
  rewrite Hfd, Hedit, Hid. rewrite updateInventoryItem_absent by done.
  by split_and!.
Qed.

Lemma handleSubmit_edit_missing_witness :
  Collection.docs
    (InventoryManager.handleSubmit plainEnv 60 (Some {| uid := "ravi" |})
       editingOnions (deleteInventoryItem "i1" sampleInventory).2).2
  = Collection.docs (deleteInventoryItem "i1" sampleInventory).2.
Proof.
  destruct (handleSubmit_edit_missing plainEnv 60 {| uid := "ravi" |} editingOnions
              (deleteInventoryItem "i1" sampleInventory).2
              (inventoryItemOf ("i1", onions)) "i1") as (Hdocs & _).
  - reflexivity.
  - reflexivity.
  - reflexivity.
  - reflexivity.
  - intros docRef Hr. vm_compute in Hr. injection Hr as <-. vm_compute. reflexivity.
  - exact Hdocs.
Defined.

(** X25. Saving the form when no item is being edited adds one document
    under an unused id, owned by the signed-in user, and the refreshed list
    of the manager holds the new item. *)
Theorem handleSubmit_add (env : Env) (ts : Date) (u : User)
  (c : InventoryManager.t) (s : Collection.t InventoryItem.t) :
  answering s ->
  InventoryManager.missingRequiredFields (Some u) (InventoryManager.formData c) = false ->
  InventoryManager.editingItem c = None ->
  let r := InventoryManager.handleSubmit env ts (Some u) c s in
  let doc := newInventoryDoc (InventoryManager.itemData env u (InventoryManager.formData c)) ts in
  exists k,
    Collection.docs s !! k = None
    /\ Collection.docs r.2 = <[k := doc]> (Collection.docs s)
    /\ InventoryItem.supplierId doc = uid u
    /\ inventoryItemOf (k, doc) ∈ InventoryManager.items r.1
    /\ InventoryManager.toasts r.1
       = InventoryManager.toasts c ++ [successToast env "item_added_successfully"]
    /\ InventoryManager.dialogOpen r.1 = false.
Proof.
  intros Hs Hfd Hedit. cbv zeta.
  assert (Hw : InventoryManager.submitWrite env ts u c s
               = (Resolved (),
                  {| Collection.docs :=
                       <[fresh (dom (Collection.docs s)) :=
                           newInventoryDoc
                             (InventoryManager.itemData env u
                                (InventoryManager.formData c)) ts]>
                         (Collection.docs s);
                     Collection.failures := Collection.failures s;
                     Collection.console := Collection.console s |})).
  { unfold InventoryManager.submitWrite. rewrite Hedit. unfold Collection.bind.
    by rewrite addInventoryItem_answering. }
  unfold InventoryManager.handleSubmit. rewrite Hfd, Hw, Hedit.
  rewrite loadInventory_answering by done. cbn [fst snd Collection.docs].
  exists (fresh (dom (Collection.docs s))).
  split; [apply fresh_key_unused|]. split; [done|]. split; [done|].
  split; [|done].
  cbn [InventoryManager.setLoading InventoryManager.setItems InventoryManager.items].
  apply list_elem_of_fmap. eexists; split; [done|].
  apply elem_of_queried. simpl_collection. rewrite lookup_insert_eq.
  split; [done|]. split; [apply plainId_fresh | apply String.eqb_refl].
Qed.

Lemma handleSubmit_add_witness :
  exists k,
    Collection.docs sampleInventory !! k = None
    /\ inventoryItemOf
         (k, newInventoryDoc
               (InventoryManager.itemData plainEnv {| uid := "ravi" |} onionForm) 60)
       ∈ InventoryManager.items
           (InventoryManager.handleSubmit plainEnv 60 (Some {| uid := "ravi" |})
              addingOnions sampleInventory).1.
Proof.
  destruct (handleSubmit_add plainEnv 60 {| uid := "ravi" |} addingOnions
              sampleInventory) as (k & Hk & _ & _ & Hin & _).
  - reflexivity.
  - reflexivity.
  - reflexivity.
  - exists k. split; [exact Hk | exact Hin].
Defined.

(** X26. Deleting through the manager: when the user declines the
    confirmation nothing happens at all; when the user confirms, the store
    answers and the id is a well-formed document path, the document is gone,
    success is reported, and no item of the refreshed list comes from the
    deleted document.  When the id is no document path the delete is
    refused: nothing is deleted, the error is logged, the failure toast is
    raised and the list is not refreshed. *)
Theorem handleDelete_spec (env : Env) (u : User) (k : string)
  (c : InventoryManager.t) (s : Collection.t InventoryItem.t) :
  answering s ->
  let r := InventoryManager.handleDelete env true (Some u) k c s in
  InventoryManager.handleDelete env false (Some u) k c s = (c, s)
  /\ (forall docRef, reference k = Some docRef ->
        Collection.docs r.2 = delete (path docRef) (Collection.docs s)
        /\ InventoryManager.toasts r.1
           = InventoryManager.toasts c ++ [successToast env "item_deleted_successfully"]
        /\ forall g, g ∈ InventoryManager.items r.1 ->
             exists k' d', k' <> path docRef /\ Collection.docs s !! k' = Some d'
                           /\ InventoryItem.supplierId d' = uid u
                           /\ g = inventoryItemOf (k', d'))
  /\ (reference k = None ->
        Collection.docs r.2 = Collection.docs s
        /\ Collection.console r.2
           = Collection.console s ++ ["Error deleting inventory item:"]
        /\ r.1 = InventoryManager.toast (errorToast env "failed_to_delete_item") c).
Proof.
  intros Hs. cbv zeta. split; [done|].
  unfold InventoryManager.handleDelete. cbn [negb]. split.
  - intros docRef Hr. rewrite (deleteInventoryItem_answering k docRef) by done.
    rewrite loadInventory_answering by done. cbn [fst snd Collection.docs].
    split; [done|]. split; [done|].
    cbn [InventoryManager.setLoading InventoryManager.setItems InventoryManager.items].
    intros g ([k' d'] & -> & (Hk' & _ & Hsup%String.eqb_eq)%elem_of_queried)
                               %list_elem_of_fmap.
    cbn [Collection.docs] in Hk'. apply lookup_delete_Some in Hk' as [Hne Hk'].
    by exists k', d'.
  - intros Hr. unfold deleteInventoryItem. rewrite logged_malformed by done.
    by split_and!.
Qed.

Lemma handleDelete_spec_witness :
  InventoryManager.handleDelete plainEnv false (Some {| uid := "ravi" |}) "i1"
    addingOnions sampleInventory = (addingOnions, sampleInventory)
  /\ Collection.docs
       (InventoryManager.handleDelete plainEnv true (Some {| uid := "ravi" |}) "i1"
          addingOnions sampleInventory).2 !! "i1" = None.
Proof.
  destruct (handleDelete_spec plainEnv {| uid := "ravi" |} "i1" addingOnions
              sampleInventory eq_refl) as (Hno & Hok & _).
  destruct (Hok {| path := "i1" |} eq_refl) as (Hdocs & _).
  split; [exact Hno|]. rewrite Hdocs. apply lookup_delete_eq.
Defined.

Global Instance byId_total {D} : Total (@byId D).
Proof. intros a b. apply String.leb_total. Qed.

Global Instance byId_trans {D} : Transitive (@byId D).
Proof. intros a b c. apply String_leb_trans. Qed.

Lemma getAllSuppliers_answering s :
  answering s ->
  getAllSuppliers s = (Resolved (map supplierOf (queried (fun _ => true) byId s)), s).
Proof.
  intros Hs. apply logged_resolved. unfold Collection.bind.
  by rewrite Collection_getDocs_answering.
Qed.

(** X27. A user (whose id is a plain document id) has at most one supplier
    profile: creating a profile again for the same user replaces the first
    one, so that the store is as if only the second had been created, and
    the list of all suppliers, which has one entry per profile of the
    collection, is no longer than after the first. *)
Theorem createSupplierProfile_overwrites (ts1 ts2 : Date) (u : string)
  (data1 data2 : NewSupplier.t) (s : Collection.t Supplier.t) :
  answering s -> plainId u = true ->
  let s1 := (createSupplierProfile ts1 u data1 s).2 in
  let s2 := (createSupplierProfile ts2 u data2 s1).2 in
  s2 = (createSupplierProfile ts2 u data2 s).2
  /\ exists (first second : list Supplier.t),
       getAllSuppliers s1 = (Resolved first, s1)
       /\ getAllSuppliers s2 = (Resolved second, s2)
       /\ length first = length (members (Collection.docs s1))
       /\ length second = length first
       /\ supplierOf (u, newSupplierDoc u data2 ts2) ∈ second.
Proof.
  intros Hs Hp. cbv zeta.
  rewrite (createSupplierProfile_answering ts1 u data1 s Hs Hp). cbn [snd].
  rewrite !createSupplierProfile_answering by done. cbn [snd Collection.docs].
  rewrite insert_insert_eq. split; [done|].
  eexists _, _.
  split; [by apply getAllSuppliers_answering|].
  split; [by apply getAllSuppliers_answering|].
  rewrite !length_map, !queried_length, !filter_all.
  simpl_collection. split_and!.
  - done.
  - destruct (Collection.docs s !! u) as [d|] eqn:Hu.
    + by rewrite !(Permutation_length (members_insert_old _ u d _ Hu Hp)).
    + by rewrite !(Permutation_length (members_insert_new _ u _ Hu Hp)).
  - apply list_elem_of_fmap. eexists; split; [done|].
    apply elem_of_queried. simpl_collection. by rewrite lookup_insert_eq.
Qed.

Lemma createSupplierProfile_overwrites_witness :
  (createSupplierProfile 9 "ravi" raviStore
     (createSupplierProfile 5 "ravi" raviStore noSuppliers).2).2
  = (createSupplierProfile 9 "ravi" raviStore noSuppliers).2.
Proof.
  destruct (createSupplierProfile_overwrites 5 9 "ravi" raviStore raviStore
              noSuppliers eq_refl eq_refl) as [H _].
  exact H.
Defined.
